(** * Taxonomic abundance trees (recentrifuge/trees.py)

    A shallow embedding of the [TaxTree] and [MultiTree] classes of
    [recentrifuge/trees.py] together with the properties the design
    document states about them, and of the selection of reads that
    [rextract.py] builds on them.

    Conventions of the embedding:
    - a Python [int] is a [Z];
    - [TaxId], [Sample], [Rank] and [Score] are declared in modules that
      are imported by [trees.py] ([recentrifuge.config],
      [recentrifuge.rank]); they are parameters of the development, with
      the operations [trees.py] applies to them gathered in the classes
      [RankOps] and [ScoreOps];
    - a tree node is a [dict] subclass carrying four attributes; its
      entries are kept as an association list in insertion order, which
      is the iteration order of the dictionary;
    - look-up tables that are only read ([Counter]s of abundances, the
      children table of the taxonomy, the parents table) are [gmap]s;
    - an exception is a value of [outcome]. *)

From Stdlib Require Import ZArith QArith Lia.
From stdpp Require Import base option list gmap strings.

Local Open Scope Z_scope.

(** ** Exceptions and fuel *)

Inductive PyExn : Type :=
  | ZeroDivisionError
  | KeyError.

Inductive outcome (A : Type) : Type :=
  | Return (a : A)
  | Raise (e : PyExn)
  | OutOfFuel.

Arguments Return {A} a.
Arguments Raise {A} e.
Arguments OutOfFuel {A}.

Definition obind {A B : Type} (m : outcome A) (k : A -> outcome B) : outcome B :=
  match m with
  | Return a => k a
  | Raise e => Raise e
  | OutOfFuel => OutOfFuel
  end.

Notation "'do' x <~ m ; k" := (obind m (fun x => k))
  (at level 10, x name, m at level 100, k at level 200, only parsing).
Notation "'do' ' p <~ m ; k" := (obind m (fun x => let 'p := x in k))
  (at level 10, p pattern, m at level 100, k at level 200, only parsing).

(** [[f(x) for x in l]] for an [f] that may raise. *)
Fixpoint omap {A B : Type} (f : A -> outcome B) (l : list A) : outcome (list B) :=
  match l with
  | [] => Return []
  | x :: l' => do y <~ f x; do ys <~ omap f l'; Return (y :: ys)
  end.

(** ** Dictionaries in insertion order *)

Section Dict.

Context {K : Type} `{EqDecision K} {V : Type}.

(** [k in d] *)
Definition dict_mem (k : K) (d : list (K * V)) : bool :=
  bool_decide (k ∈ d.*1).

(** [d[k] = v]: replaces the value in place if the key is present,
    appends a new entry otherwise. *)
Fixpoint dict_set (k : K) (v : V) (d : list (K * V)) : list (K * V) :=
  match d with
  | [] => [(k, v)]
  | (k', w) :: d' =>
      if decide (k' = k) then (k', v) :: d' else (k', w) :: dict_set k v d'
  end.

(** [d[k]], [None] standing for the [KeyError] *)
Fixpoint dict_get (k : K) (d : list (K * V)) : option V :=
  match d with
  | [] => None
  | (k', w) :: d' => if decide (k' = k) then Some w else dict_get k d'
  end.

End Dict.

(** ** Interfaces of the imported types *)

(** [recentrifuge.rank.Rank]: an enumeration compared with [<] and [<=],
    tested for truth ([if min_rank and ...]) and for identity ([is]). *)
Class RankOps (Rank : Type) : Type := {
  UNCLASSIFIED : Rank;
  rank_lt : Rank -> Rank -> bool;
  rank_le : Rank -> Rank -> bool;
  rank_truth : Rank -> bool;
  rank_is : Rank -> Rank -> bool
}.

(** [recentrifuge.config.Score] (a float) and [NO_SCORE].  [score_zero]
    is the integer [0] that [TaxTree.__init__] and [sum] start from;
    [score_div] is [/] by a nonzero integer (a zero divisor raises, see
    [py_div]).  The arithmetic is taken to be defined on every score,
    [NO_SCORE] included, and nothing is assumed of it: what is proved
    holds for floats as well as for exact numbers. *)
Class ScoreOps (Score : Type) : Type := {
  NO_SCORE : Score;
  score_zero : Score;
  score_add : Score -> Score -> Score;
  score_mul : Score -> Z -> Score;
  score_div : Score -> Z -> Score;
  score_ne : Score -> Score -> bool
}.

(** A reading of the two interfaces on which the model runs: ranks are
    numbered levels that are all true, and scores are rationals. *)
#[export] Instance level_RankOps : RankOps nat := {|
  UNCLASSIFIED := 0%nat;
  rank_lt := Nat.ltb;
  rank_le := Nat.leb;
  rank_truth := fun _ => true;
  rank_is := Nat.eqb
|}.

#[export] Instance rational_ScoreOps : ScoreOps Q := {|
  NO_SCORE := 0%Q;
  score_zero := 0%Q;
  score_add := Qplus;
  score_mul := fun s n => Qmult s (inject_Z n);
  score_div := fun s n => Qdiv s (inject_Z n);
  score_ne := fun s s' => negb (Qeq_bool s s')
|}.

Section Trees.

Context {TaxId : Type} `{Countable TaxId}.
Context {Rank : Type} `{RankOps Rank}.
Context {Score : Type} `{ScoreOps Score}.

(** [recentrifuge.config.ROOT] *)
Variable ROOT : TaxId.

(** [x / d] on scores: Python raises [ZeroDivisionError] when [d] is 0. *)
Definition py_div (x : Score) (d : Z) : outcome Score :=
  if d =? 0 then Raise ZeroDivisionError else Return (score_div x d).

(** [sum(l)] *)
Definition py_sum (l : list Score) : Score := fold_left score_add l score_zero.

(** ** class TaxTree(dict) *)

#[warnings="-register-all"]
Inductive TaxTree : Type :=
  Node {
    counts : Z;
    taxlevel : Rank;
    score : Score;
    acc : Z;
    children : list (TaxId * TaxTree)
  }.

(** [TaxTree(counts=c, rank=r, score=s)]: no entries, [acc] is 0. *)
Definition new_TaxTree (c : Z) (r : Rank) (s : Score) : TaxTree :=
  Node c r s 0 [].

(** [TaxTree()] *)
Definition empty_TaxTree : TaxTree := new_TaxTree 0 UNCLASSIFIED score_zero.

(** Induction on a tree, with the property at hand for every entry. *)
Section TaxTree_induction.

Variable P : TaxTree -> Prop.
Hypothesis P_node : forall c r s a kids,
  Forall (fun kc => P kc.2) kids -> P (Node c r s a kids).

Fixpoint TaxTree_induction (t : TaxTree) : P t :=
  match t with
  | Node c r s a kids =>
      P_node c r s a kids
        ((fix all (l : list (TaxId * TaxTree)) : Forall (fun kc => P kc.2) l :=
            match l with
            | [] => @List.Forall_nil _ (fun kc => P kc.2)
            | (k, c) :: l' =>
                @List.Forall_cons _ (fun kc => P kc.2) (k, c) l'
                  (TaxTree_induction c) (all l')
            end) kids)
  end.

End TaxTree_induction.

(** ** TaxTree.shape *)

(** The loop [for tid in list(self)] of [shape], with the running value
    of [self.acc].  Each entry is shaped; it is popped when its [acc] is
    zero, and its [acc] is added to the parent's otherwise.  The keys of
    a dictionary are distinct, so [self[tid]] and [self.pop(tid)] act on
    the entry at hand and the loop runs over the entries themselves. *)
Definition shape_loop (shape : TaxTree -> outcome TaxTree) :
    list (TaxId * TaxTree) -> Z -> outcome (Z * list (TaxId * TaxTree)) :=
  fix loop (l : list (TaxId * TaxTree)) (a : Z) :=
    match l with
    | [] => Return (a, [])
    | (tid, child) :: rest =>
        do child' <~ shape child;
        if acc child' =? 0 then loop rest a
        else do '(a', rest') <~ loop rest (a + acc child');
             Return (a', (tid, child') :: rest')
    end.

(** [sum([self[tid].score * self[tid].acc / self.acc for tid in self])] *)
Definition shape_score (kids : list (TaxId * TaxTree)) (a : Z) : outcome Score :=
  do terms <~ omap (fun kc => py_div (score_mul (score kc.2) (acc kc.2)) a) kids;
  Return (py_sum terms).

Fixpoint shape (self : TaxTree) : outcome TaxTree :=
  do '(a, kids) <~ shape_loop shape (children self) (counts self);
  if counts self =? 0 then
    if a =? 0 then
      Return (Node (counts self) (taxlevel self) (score self) a kids)
    else
      do s <~ shape_score kids a;
      Return (Node (counts self) (taxlevel self) s a kids)
  else
    Return (Node (counts self) (taxlevel self) (score self) a kids).

(** ** TaxTree.prune *)

(** The attributes of [self] that the loop of [prune] assigns. *)
Record prune_state : Type := PruneState {
  ps_counts : Z;
  ps_score : Score;
  ps_acc : Z
}.

(** The test that decides whether a leaf [child] is pruned. *)
Definition prune_test (min_taxa : Z) (min_rank : option Rank)
    (self_level : Rank) (child : TaxTree) : bool :=
  (counts child <? min_taxa)
  || match min_rank with
     | None => false
     | Some mr =>
         rank_truth mr
         && (rank_lt (taxlevel child) mr || rank_le self_level mr)
     end.

(** What happens to [self] when the leaf [child] is pruned: with
    [collapse] the counts are added and the score averaged, unless the
    collapsed counts are zero; without it [self.acc] is decreased. *)
Definition prune_leaf (collapse : bool) (st : prune_state) (child : TaxTree) :
    outcome prune_state :=
  if collapse then
    let collapsed_counts := ps_counts st + counts child in
    if collapsed_counts =? 0 then Return st
    else
      do s <~ py_div (score_add (score_mul (ps_score st) (ps_counts st))
                                 (score_mul (score child) (counts child)))
                      collapsed_counts;
      Return (PruneState collapsed_counts s (ps_acc st))
  else
    if ps_acc st >? counts child
    then Return (PruneState (ps_counts st) (ps_score st) (ps_acc st - counts child))
    else Return (PruneState (ps_counts st) (ps_score st) 0).

(** The loop [for tid in list(self)] of [prune].  [prune] returns
    [bool(self)] next to the pruned node.  The [debug] flag only prints
    and is left out. *)
Definition prune_loop (prune : TaxTree -> outcome (bool * TaxTree))
    (min_taxa : Z) (min_rank : option Rank) (collapse : bool) (self_level : Rank) :
    list (TaxId * TaxTree) -> prune_state ->
    outcome (prune_state * list (TaxId * TaxTree)) :=
  fix loop (l : list (TaxId * TaxTree)) (st : prune_state) :=
    match l with
    | [] => Return (st, [])
    | (tid, child) :: rest =>
        do '(branches, child') <~
          match children child with
          | [] => Return (false, child)
          | _ :: _ => prune child
          end;
        if branches then
          do '(st', rest') <~ loop rest st;
          Return (st', (tid, child') :: rest')
        else if prune_test min_taxa min_rank self_level child' then
          do st1 <~ prune_leaf collapse st child';
          loop rest st1
        else
          do '(st', rest') <~ loop rest st;
          Return (st', (tid, child') :: rest')
    end.

Fixpoint prune (min_taxa : Z) (min_rank : option Rank) (collapse : bool)
    (self : TaxTree) : outcome (bool * TaxTree) :=
  do '(st, kids) <~
    prune_loop (prune min_taxa min_rank collapse) min_taxa min_rank collapse
      (taxlevel self) (children self)
      (PruneState (counts self) (score self) (acc self));
  Return (match kids with [] => false | _ :: _ => true end,
          Node (ps_counts st) (taxlevel self) (ps_score st) (ps_acc st) kids).

(** ** The taxonomy *)

(** What [trees.py] reads of a [Taxonomy]: the table [children] (the
    sequence of child taxids of each taxid that has some) and
    [get_rank]. *)
Record Taxonomy : Type := {
  tx_children : gmap TaxId (list TaxId);
  get_rank : TaxId -> Rank
}.

(** ** TaxTree.grow *)

(** [if not abundances: abundances = col.Counter({ROOT: 1})] *)
Definition default_abundances (abundances : option (gmap TaxId Z)) : gmap TaxId Z :=
  match abundances with
  | None => {[ ROOT := 1 ]}
  | Some m => if decide (m = ∅) then {[ ROOT := 1 ]} else m
  end.

(** [if not scores: scores = {}] *)
Definition default_scores (scores : option (gmap TaxId Score)) : gmap TaxId Score :=
  match scores with
  | None => ∅
  | Some m => m
  end.

(** The loop [for child in taxonomy.children[taxid]] of both [grow]
    methods: every child is grown in place into [node]. *)
Definition grow_loop {T : Type} (grow_child : TaxId -> T -> outcome T) :
    list TaxId -> T -> outcome T :=
  fix loop (l : list TaxId) (node : T) : outcome T :=
    match l with
    | [] => Return node
    | child :: rest => do node1 <~ grow_child child node; loop rest node1
    end.

(** [grow] follows the taxonomy, not the tree, so its recursion is
    bounded by [fuel]; [grow_returns] shows which fuel is always enough.
    [_path] is [None] or a list; [None] is the empty list.  The node is
    assigned to [self[taxid]] before its branches are grown in place;
    here the branches are grown first and the finished node is assigned,
    which gives the same dictionary. *)
Fixpoint grow (fuel : nat) (taxonomy : Taxonomy)
    (abundances : option (gmap TaxId Z)) (scores : option (gmap TaxId Score))
    (taxid : TaxId) (path : list TaxId) (self : TaxTree) : outcome TaxTree :=
  match fuel with
  | O => OutOfFuel
  | S fuel' =>
      let abundances := default_abundances abundances in
      let scores := default_scores scores in
      if decide (taxid ∈ path) then Return self
      else
        let node := new_TaxTree (default 0 (abundances !! taxid))
                                (get_rank taxonomy taxid)
                                (default NO_SCORE (scores !! taxid)) in
        do node' <~
          match tx_children taxonomy !! taxid with
          | None => Return node
          | Some kids =>
              grow_loop (fun child node =>
                           grow fuel' taxonomy (Some abundances) (Some scores)
                             child (path ++ [taxid]) node) kids node
          end;
        Return (Node (counts self) (taxlevel self) (score self) (acc self)
                     (dict_set taxid node' (children self)))
  end.

(** ** TaxTree.trace *)

(** [trace] appends to the list [nodes] it is given; the list is threaded
    through and returned with the flag.  [nodes.pop()] is [removelast]:
    the list is never empty there, [tid] was appended before. *)
Fixpoint trace (self : TaxTree) (target : TaxId) (nodes : list TaxId) :
    bool * list TaxId :=
  (fix loop (l : list (TaxId * TaxTree)) (nodes : list TaxId) : bool * list TaxId :=
     match l with
     | [] => (false, nodes)
     | (tid, child) :: rest =>
         match children child with
         | [] => loop rest nodes
         | _ :: _ =>
             let nodes1 := nodes ++ [tid] in
             if dict_mem target (children child) && bool_decide (target ≠ ROOT)
             then (true, nodes1 ++ [target])
             else
               let '(found, nodes2) := trace child target nodes1 in
               if found then (true, nodes2) else loop rest (removelast nodes2)
         end
     end) (children self) nodes.

(** ** TaxTree.get_lineage *)

(** The pieces written to the log, in order. *)
Inductive log_chunk : Type :=
  | LogGettingLineage
  | LogFailedTracing (tid : TaxId)
  | LogDiscardedUnknown (tid : TaxId)
  | LogOK.

Definition get_lineage_step (self : TaxTree) (parents : gmap TaxId TaxId)
    (st : list log_chunk * gmap TaxId (list TaxId)) (tid : TaxId) :
    list log_chunk * gmap TaxId (list TaxId) :=
  let '(output, nodes_traced) := st in
  if decide (tid = ROOT) then (output, <[ROOT := [ROOT]]> nodes_traced)
  else if decide (is_Some (parents !! tid)) then
    let '(found, nodes) := trace self tid [] in
    if found then (output, <[tid := nodes]> nodes_traced)
    else (output ++ [LogFailedTracing tid], nodes_traced)
  else (output ++ [LogDiscardedUnknown tid], nodes_traced).

Definition get_lineage (self : TaxTree) (parents : gmap TaxId TaxId)
    (taxids : list TaxId) : list log_chunk * gmap TaxId (list TaxId) :=
  let '(output, nodes_traced) :=
    fold_left (get_lineage_step self parents) taxids ([LogGettingLineage], ∅) in
  (output ++ [LogOK], nodes_traced).

(** ** TaxTree.get_taxa *)

(** The four optional output dictionaries ([None] when not requested). *)
Record taxa_outputs : Type := TaxaOutputs {
  out_abundance : option (gmap TaxId Z);
  out_accs : option (gmap TaxId Z);
  out_scores : option (gmap TaxId Score);
  out_ranks : option (gmap TaxId Rank)
}.

(** The four assignments made for a taxid that qualifies. *)
Definition record_taxon (tid : TaxId) (node : TaxTree) (out : taxa_outputs) :
    taxa_outputs :=
  TaxaOutputs
    (insert tid (counts node) <$> out_abundance out)
    (insert tid (acc node) <$> out_accs out)
    (if score_ne (score node) NO_SCORE
     then insert tid (score node) <$> out_scores out
     else out_scores out)
    (insert tid (taxlevel node) <$> out_ranks out).

(** Whether the entry [tid] is in a branch to report. *)
Definition in_branch_of (_in_branch : bool) (include exclude : gset TaxId)
    (tid : TaxId) : bool :=
  (_in_branch || bool_decide (include = ∅) || bool_decide (tid ∈ include))
  && negb (bool_decide (tid ∈ exclude)).

(** The loop [for tid in self] of [get_taxa], at the depths already
    decremented; [visit] is the recursive call on an entry. *)
Definition get_taxa_loop (visit : TaxTree -> taxa_outputs -> bool -> taxa_outputs)
    (mindepth : Z) (include exclude : gset TaxId) (just_level : option Rank)
    (_in_branch : bool) :
    list (TaxId * TaxTree) -> taxa_outputs -> taxa_outputs :=
  fix loop (l : list (TaxId * TaxTree)) (out : taxa_outputs) : taxa_outputs :=
    match l with
    | [] => out
    | (tid, child) :: rest =>
        let in_branch := in_branch_of _in_branch include exclude tid in
        let out1 :=
          if (mindepth <=? 0) && in_branch
             && match just_level with
                | None => true
                | Some level => rank_is (taxlevel child) level
                end
          then record_taxon tid child out
          else out in
        let out2 :=
          match children child with
          | [] => out1
          | _ :: _ => visit child out1 in_branch
          end in
        loop rest out2
    end.

Fixpoint get_taxa (self : TaxTree) (out : taxa_outputs) (mindepth maxdepth : Z)
    (include exclude : gset TaxId) (just_level : option Rank)
    (_in_branch : bool) : taxa_outputs :=
  let mindepth := mindepth - 1 in
  if maxdepth =? 1 then out
  else
    let maxdepth := maxdepth - 1 in
    get_taxa_loop
      (fun child out in_branch =>
         get_taxa child out mindepth maxdepth include exclude just_level in_branch)
      mindepth include exclude just_level _in_branch (children self) out.

(** ** class MultiTree(dict) *)

Context {Sample : Type} `{Countable Sample}.

#[warnings="-register-all"]
Inductive MultiTree : Type :=
  MNode {
    m_samples : list Sample;
    m_taxlevel : Rank;
    m_counts : list Z;
    m_accs : list Z;
    m_score : list Score;
    m_children : list (TaxId * MultiTree)
  }.

(** [[d[sample] for sample in samples]] *)
Definition by_samples {V : Type} (samples : list Sample) (d : list (Sample * V)) :
    outcome (list V) :=
  omap (fun sample => match dict_get sample d with
                      | Some v => Return v
                      | None => Raise KeyError
                      end) samples.

(** [MultiTree(samples=..., counts=..., accs=..., rank=..., scores=...)]
    with the three dictionaries given. *)
Definition new_MultiTree (samples : list Sample) (counts : list (Sample * Z))
    (accs : list (Sample * Z)) (rank : Rank) (scores : list (Sample * Score)) :
    outcome MultiTree :=
  do cs <~ by_samples samples counts;
  do acs <~ by_samples samples accs;
  do ss <~ by_samples samples scores;
  Return (MNode samples rank cs acs ss []).

(** [MultiTree(samples=samples)]: the dictionaries default to 0, 0 and
    [NO_SCORE] for every sample. *)
Definition empty_MultiTree (samples : list Sample) : MultiTree :=
  MNode samples UNCLASSIFIED ((fun _ => 0) <$> samples) ((fun _ => 0) <$> samples)
    ((fun _ => NO_SCORE) <$> samples) [].

(** ** MultiTree.grow *)

(** [{sample: v for sample in samples}] *)
Definition for_samples {V : Type} (samples : list Sample) (v : V) : gmap Sample V :=
  list_to_map ((fun sample => (sample, v)) <$> samples).

Definition default_per_sample {V : Type} (samples : list Sample) (v : V)
    (d : option (gmap Sample V)) : gmap Sample V :=
  match d with
  | None => for_samples samples v
  | Some m => if decide (m = ∅) then for_samples samples v else m
  end.

(** [{sample: d[sample].get(taxid, dflt) for sample in samples}], kept as
    its list of items (a sample listed twice gets the same value twice). *)
Definition per_sample_get {V : Type} (samples : list Sample)
    (d : gmap Sample (gmap TaxId V)) (taxid : TaxId) (dflt : V) :
    outcome (list (Sample * V)) :=
  omap (fun sample => match d !! sample with
                      | Some m => Return (sample, default dflt (m !! taxid))
                      | None => Raise KeyError
                      end) samples.

(** [any(multi_acc.values())] *)
Definition any_acc (multi_acc : list (Sample * Z)) : bool :=
  existsb (fun sv => negb (sv.2 =? 0)) multi_acc.

Fixpoint MultiTree_grow (fuel : nat) (taxonomy : Taxonomy)
    (abundances accs : option (gmap Sample (gmap TaxId Z)))
    (scores : option (gmap Sample (gmap TaxId Score)))
    (taxid : TaxId) (path : list TaxId) (self : MultiTree) : outcome MultiTree :=
  match fuel with
  | O => OutOfFuel
  | S fuel' =>
      let samples := m_samples self in
      let abundances := default_per_sample samples {[ ROOT := 1 ]} abundances in
      let accs := default_per_sample samples {[ ROOT := 1 ]} accs in
      let scores := default_per_sample samples ∅ scores in
      if decide (taxid ∈ path) then Return self
      else
        do multi_count <~ per_sample_get samples abundances taxid 0;
        do multi_acc <~ per_sample_get samples accs taxid 0;
        do multi_score <~ per_sample_get samples scores taxid NO_SCORE;
        if any_acc multi_acc then
          do node <~ new_MultiTree samples multi_count multi_acc
                       (get_rank taxonomy taxid) multi_score;
          do node' <~
            match tx_children taxonomy !! taxid with
            | None => Return node
            | Some kids =>
                grow_loop (fun child node =>
                             MultiTree_grow fuel' taxonomy (Some abundances)
                               (Some accs) (Some scores) child (path ++ [taxid]) node)
                  kids node
            end;
          Return (MNode (m_samples self) (m_taxlevel self) (m_counts self)
                        (m_accs self) (m_score self)
                        (dict_set taxid node' (m_children self)))
        else Return self
  end.

(** ** MultiTree.to_items *)

(** Induction on a multi-sample tree, with the property at hand for
    every entry. *)
Section MultiTree_induction.

Variable P : MultiTree -> Prop.
Hypothesis P_node : forall smp r cs acs ss kids,
  Forall (fun kc => P kc.2) kids -> P (MNode smp r cs acs ss kids).

Fixpoint MultiTree_induction (t : MultiTree) : P t :=
  match t with
  | MNode smp r cs acs ss kids =>
      P_node smp r cs acs ss kids
        ((fix all (l : list (TaxId * MultiTree)) : Forall (fun kc => P kc.2) l :=
            match l with
            | [] => @List.Forall_nil _ (fun kc => P kc.2)
            | (k, c) :: l' =>
                @List.Forall_cons _ (fun kc => P kc.2) (k, c) l'
                  (MultiTree_induction c) (all l')
            end) kids)
  end.

End MultiTree_induction.

(** The values that a row of [to_items] holds: integers, scores, and
    the two strings of the rank and of the name. *)
Inductive cell : Type :=
  | CellInt (z : Z)
  | CellScore (s : Score)
  | CellStr (s : string).

(** [l[i]] for a Python integer [i]: a negative index counts from the
    end; [None] stands for the [IndexError]. *)
Definition py_index {A : Type} (l : list A) (i : Z) : option A :=
  if 0 <=? i then l !! Z.to_nat i
  else if 0 <=? Z.of_nat (length l) + i
       then l !! Z.to_nat (Z.of_nat (length l) + i)
       else None.

(** The row of the entry [tid]: the counts at [sample_indexes] if some
    are given, and otherwise the accumulated count, the count and the
    score of every sample of [self], followed by the rank and the name.
    [rank_label] is [rank.name.lower()] and [get_name] is
    [taxonomy.get_name]; [None] stands for the [IndexError]. *)
Definition to_items_row (rank_label : Rank -> string) (get_name : TaxId -> string)
    (taxonomy : Taxonomy) (self : MultiTree) (tid : TaxId) (child : MultiTree)
    (sample_indexes : option (list Z)) : option (list cell) :=
  match sample_indexes with
  | Some (i :: indexes) =>
      mapM (fun i => CellInt <$> py_index (m_counts child) i) (i :: indexes)
  | _ =>
      triples ← mapM (fun i : nat =>
                        a ← m_accs child !! i;
                        c ← m_counts child !! i;
                        s ← m_score child !! i;
                        Some [CellInt a; CellInt c; CellScore s])
                     (seq 0 (length (m_samples self)));
      Some (concat triples
            ++ [CellStr (rank_label (get_rank taxonomy tid)); CellStr (get_name tid)])
  end.

(** The loop [for tid in self] of [to_items]; [items] is the list that
    the method appends to. *)
Definition to_items_loop
    (visit : MultiTree -> list (TaxId * list cell) -> option (list (TaxId * list cell)))
    (row : TaxId -> MultiTree -> option (list cell)) :
    list (TaxId * MultiTree) -> list (TaxId * list cell) ->
    option (list (TaxId * list cell)) :=
  fix loop (l : list (TaxId * MultiTree)) (items : list (TaxId * list cell)) :=
    match l with
    | [] => Some items
    | (tid, child) :: rest =>
        list_row ← row tid child;
        items1 ← match m_children child with
                  | [] => Some (items ++ [(tid, list_row)])
                  | _ :: _ => visit child (items ++ [(tid, list_row)])
                  end;
        loop rest items1
    end.

Fixpoint to_items (rank_label : Rank -> string) (get_name : TaxId -> string)
    (taxonomy : Taxonomy) (self : MultiTree) (items : list (TaxId * list cell))
    (sample_indexes : option (list Z)) : option (list (TaxId * list cell)) :=
  to_items_loop
    (fun child items1 =>
       to_items rank_label get_name taxonomy child items1 sample_indexes)
    (fun tid child =>
       to_items_row rank_label get_name taxonomy self tid child sample_indexes)
    (m_children self) items.

(** ** rextract.main *)

(** The records that [SeqIO.parse] yields are values of the Biopython
    library: here a type with the two fields that [main] reads, the [id]
    of a record and, for the records of the output file of Centrifuge,
    [annotations['taxID']].  The files are the lists of their records,
    the output file without its header. *)
Context {SeqRecord : Type}.
Variable record_id : SeqRecord -> string.
Variable record_taxid : SeqRecord -> TaxId.

(** The taxids that [main] selects: [tree.grow(taxonomy=ncbi)] on a new
    tree, [tree.get_taxa(ranks=ranks, include=including,
    exclude=excluding)] on an empty [ranks], and [set(ranks)]. *)
Definition selected_taxids (fuel : nat) (ncbi : Taxonomy)
    (including excluding : gset TaxId) : outcome (gset TaxId) :=
  do tree <~ grow fuel ncbi None None ROOT [] empty_TaxTree;
  let out := get_taxa tree (TaxaOutputs None None None (Some ∅)) 0 0
               including excluding None false in
  Return (match out_ranks out with
          | Some ranks => dom ranks
          | None => ∅
          end).

(** The loop over the records of the output file: [records] gets the
    records with a taxid of [taxids], and [num_seqs] the index that
    [enumerate] gave to the last record. *)
Fixpoint records_loop (taxids : gset TaxId) (i : Z) (parsed : list SeqRecord)
    (records : list SeqRecord) (num_seqs : Z) : list SeqRecord * Z :=
  match parsed with
  | [] => (records, num_seqs)
  | record :: rest =>
      records_loop taxids (i + 1) rest
        (if decide (record_taxid record ∈ taxids)
         then records ++ [record] else records)
        i
  end.

(** [l.remove(x)]: [l] without its first element equal to [x]; [None]
    stands for the [ValueError]. *)
Fixpoint py_remove (x : string) (l : list string) : option (list string) :=
  match l with
  | [] => None
  | y :: l' => if decide (y = x) then Some l' else (y ::.) <$> py_remove x l'
  end.

(** The loop over the pairs of reads of two FASTQ files. *)
Fixpoint fastq_paired_loop (reads : list (SeqRecord * SeqRecord))
    (records_ids : list string) (seqs1 seqs2 : list SeqRecord) :
    list SeqRecord * list SeqRecord :=
  match reads with
  | [] => (seqs1, seqs2)
  | (rec1, rec2) :: rest =>
      match py_remove (record_id rec1) records_ids with
      | None => fastq_paired_loop rest records_ids seqs1 seqs2
      | Some records_ids' =>
          fastq_paired_loop rest records_ids' (seqs1 ++ [rec1]) (seqs2 ++ [rec2])
      end
  end.

(** The loop over the reads of a single FASTQ file. *)
Fixpoint fastq_single_loop (reads : list SeqRecord) (records_ids : list string)
    (seqs1 : list SeqRecord) : list SeqRecord :=
  match reads with
  | [] => seqs1
  | rec1 :: rest =>
      match py_remove (record_id rec1) records_ids with
      | None => fastq_single_loop rest records_ids seqs1
      | Some records_ids' => fastq_single_loop rest records_ids' (seqs1 ++ [rec1])
      end
  end.

(** [main], from the taxonomy to the reads that it writes: [seqs1] and
    [seqs2].  [output] is the list of the records of the output file,
    [fastq_1] the reads of the FASTQ file (of mate 1 if [fastq_2] is
    given).  The statistics on the matching reads divide by [num_seqs]. *)
Definition main (fuel : nat) (ncbi : Taxonomy) (including excluding : gset TaxId)
    (output : list SeqRecord) (fastq_1 : list SeqRecord)
    (fastq_2 : option (list SeqRecord)) :
    outcome (list SeqRecord * list SeqRecord) :=
  do taxids <~ selected_taxids fuel ncbi including excluding;
  let '(records, num_seqs) := records_loop taxids 0 output [] 0 in
  if num_seqs =? 0 then Raise ZeroDivisionError
  else
    let records_ids := record_id <$> records in
    match fastq_2 with
    | Some mate2 =>
        Return (fastq_paired_loop (zip fastq_1 mate2) records_ids [] [])
    | None => Return (fastq_single_loop fastq_1 records_ids [], [])
    end.

(** ** Vocabulary of the properties *)

(** [Zsum_with f l] is the sum of [f x] over the elements of [l]. *)
Definition Zsum_with {A : Type} (f : A -> Z) (l : list A) : Z :=
  foldr (fun x s => f x + s) 0 l.

(** Sum of the [acc] of the entries of a node. *)
Definition sum_acc (kids : list (TaxId * TaxTree)) : Z :=
  Zsum_with (fun kc => acc kc.2) kids.

(** Sum of [counts] over a node and all its descendants. *)
Fixpoint total_counts (t : TaxTree) : Z :=
  counts t + Zsum_with (fun kc => total_counts kc.2) (children t).

(** [node_at t p n]: following the keys [p] downwards from [t] leads to
    the node [n]. *)
Inductive node_at : TaxTree -> list TaxId -> TaxTree -> Prop :=
  | node_at_here t : node_at t [] t
  | node_at_child t tid child p n :
      (tid, child) ∈ children t -> node_at child p n -> node_at t (tid :: p) n.

(** Every count of the tree is non-negative. *)
Fixpoint nonneg_counts (t : TaxTree) : bool :=
  (0 <=? counts t) && forallb (fun kc => nonneg_counts kc.2) (children t).

(** The [acc]-weighted average of the scores of the entries [kids], as
    [shape] computes it: each score times its [acc] over the sum of the
    [acc]s, summed. *)
Definition acc_weighted_average (kids : list (TaxId * TaxTree)) : Score :=
  py_sum ((fun kc => score_div (score_mul (score kc.2) (acc kc.2)) (sum_acc kids))
            <$> kids).

(** The score [shape] leaves in a node whose entries after the loop are
    [kids']. *)
Definition shaped_score (self : TaxTree) (kids' : list (TaxId * TaxTree)) : Score :=
  if (counts self =? 0) && negb (sum_acc kids' =? 0)
  then acc_weighted_average kids'
  else score self.

(** [tax_chain taxonomy x q]: [q] lists successive children in the
    taxonomy, starting with a child of [x]. *)
Inductive tax_chain (taxonomy : Taxonomy) : TaxId -> list TaxId -> Prop :=
  | tax_chain_nil x : tax_chain taxonomy x []
  | tax_chain_cons x kids y q :
      tx_children taxonomy !! x = Some kids -> y ∈ kids ->
      tax_chain taxonomy y q -> tax_chain taxonomy x (y :: q).

(** What [grow] guarantees of the node [node] it builds for [taxid]
    below [path]: every node of it lies on a chain of the taxonomy that
    repeats no taxid, has the counts and the score of its own taxid, and
    has no accumulated count yet. *)
Definition grown (taxonomy : Taxonomy) (abundances : gmap TaxId Z)
    (scores : gmap TaxId Score) (path : list TaxId) (taxid : TaxId)
    (node : TaxTree) : Prop :=
  forall q n, node_at node q n ->
    NoDup (path ++ taxid :: q)
    /\ tax_chain taxonomy taxid q
    /\ counts n = default 0 (abundances !! List.last q taxid)
    /\ score n = default NO_SCORE (scores !! List.last q taxid)
    /\ taxlevel n = get_rank taxonomy (List.last q taxid)
    /\ acc n = 0.

(** Number of nodes below [t] (the tree that [grow] is called on is a
    bare container; it is not counted). *)
Fixpoint count_nodes (t : TaxTree) : nat :=
  foldr (fun kc s => (S (count_nodes kc.2) + s)%nat) 0%nat (children t).

(** The node [n] given the entries [kids]. *)
Definition with_children (n : TaxTree) (kids : list (TaxId * TaxTree)) : TaxTree :=
  Node (counts n) (taxlevel n) (score n) (acc n) kids.

(** The tree root→A→B: a container holding the node of [root], which
    holds that of [a], which holds that of [b].  The attributes of the
    nodes are those of [nr], [na] and [nb]. *)
Definition chain3 (root a b : TaxId) (nr na nb : TaxTree) : TaxTree :=
  with_children empty_TaxTree
    [(root, with_children nr
       [(a, with_children na
          [(b, with_children nb [])])])].

(** The tree root→A→B→C. *)
Definition chain4 (root a b c : TaxId) (nr na nb nc : TaxTree) : TaxTree :=
  with_children empty_TaxTree
    [(root, with_children nr
       [(a, with_children na
          [(b, with_children nb
             [(c, with_children nc [])])])])].

(** The entries below [t] in the order [get_taxa] visits them: every
    entry, followed by the entries below it. *)
Fixpoint preorder (t : TaxTree) : list (TaxId * TaxTree) :=
  flat_map (fun kc => kc :: preorder kc.2) (children t).

(** [record_taxon] for every entry of a list, in order. *)
Definition record_all (l : list (TaxId * TaxTree)) (out : taxa_outputs) :
    taxa_outputs :=
  fold_left (fun out kc => record_taxon kc.1 kc.2 out) l out.

(** Four empty dictionaries for [get_taxa] to fill. *)
Definition no_taxa : taxa_outputs :=
  TaxaOutputs (Some ∅) (Some ∅) (Some ∅) (Some ∅).

(** The tables of one sample, as [MultiTree.grow] takes them. *)
Record sample_table : Type := SampleTable {
  st_abundance : gmap TaxId Z;
  st_accs : gmap TaxId Z;
  st_scores : gmap TaxId Score
}.

(** Modelled from the spec: the caller of [MultiTree.grow], which is not
    in [trees.py].  The design document has the per-sample inputs be
    "the acc-populated outputs of independently shaped Single-Sample
    Trees": the tree of the sample is grown and shaped, and its counts,
    accumulated counts and scores are read with [get_taxa] at its
    default arguments. *)
Definition sample_tables (fuel : nat) (taxonomy : Taxonomy)
    (abundances : option (gmap TaxId Z)) (scores : option (gmap TaxId Score)) :
    outcome sample_table :=
  do t <~ grow fuel taxonomy abundances scores ROOT [] empty_TaxTree;
  do t' <~ shape t;
  let out := get_taxa t' no_taxa 0 0 ∅ ∅ None false in
  Return (SampleTable (default ∅ (out_abundance out))
                      (default ∅ (out_accs out))
                      (default ∅ (out_scores out))).

(** A table is that of a shaped tree over [taxonomy] when every taxid
    with a nonzero accumulated count is at the end of a chain of the
    taxonomy that starts at the root, repeats no taxid and runs through
    taxids with a nonzero accumulated count, and when a taxid without
    accumulated count has no count either. *)
Definition shaped_table (taxonomy : Taxonomy) (tb : sample_table) : Prop :=
  (forall x, default 0 (st_accs tb !! x) ≠ 0 ->
     exists q, tax_chain taxonomy ROOT q
               /\ NoDup (ROOT :: q)
               /\ List.last q ROOT = x
               /\ forall y, y ∈ ROOT :: q -> default 0 (st_accs tb !! y) ≠ 0)
  /\ (forall x, default 0 (st_accs tb !! x) = 0 ->
        default 0 (st_abundance tb !! x) = 0).

(** [mnode_at t p n]: the same as [node_at], in a [MultiTree]. *)
Inductive mnode_at : MultiTree -> list TaxId -> MultiTree -> Prop :=
  | mnode_at_here t : mnode_at t [] t
  | mnode_at_child t tid child p n :
      (tid, child) ∈ m_children t -> mnode_at child p n ->
      mnode_at t (tid :: p) n.

(** The value of [taxid] in the table of [sample], [dflt] if there is
    none. *)
Definition table_value {V : Type} (d : gmap Sample (gmap TaxId V)) (dflt : V)
    (taxid : TaxId) (sample : Sample) : V :=
  match d !! sample with
  | Some m => default dflt (m !! taxid)
  | None => dflt
  end.

(** Some sample has a nonzero accumulated count for [taxid]. *)
Definition occupied (samples : list Sample) (accs : gmap Sample (gmap TaxId Z))
    (taxid : TaxId) : Prop :=
  exists sample, sample ∈ samples /\ table_value accs 0 taxid sample ≠ 0.

(** The node [MultiTree.grow] creates for [taxid], before its branches
    are grown. *)
Definition fresh_MultiTree (taxonomy : Taxonomy) (samples : list Sample)
    (abundances accs : gmap Sample (gmap TaxId Z))
    (scores : gmap Sample (gmap TaxId Score)) (taxid : TaxId) : MultiTree :=
  MNode samples (get_rank taxonomy taxid)
    (table_value abundances 0 taxid <$> samples)
    (table_value accs 0 taxid <$> samples)
    (table_value scores NO_SCORE taxid <$> samples) [].

(** What [MultiTree.grow] guarantees of the node it builds for [taxid]
    below [path]: every node of it is that of an occupied taxid and
    holds the values of the samples for it, in the order of [samples];
    and there is a node at the end of every chain of occupied taxids of
    the taxonomy that repeats no taxid. *)
Definition mgrown (taxonomy : Taxonomy) (samples : list Sample)
    (abundances accs : gmap Sample (gmap TaxId Z))
    (scores : gmap Sample (gmap TaxId Score)) (path : list TaxId)
    (taxid : TaxId) (node : MultiTree) : Prop :=
  (forall q n, mnode_at node q n ->
     occupied samples accs (List.last q taxid)
     /\ m_samples n = samples
     /\ m_counts n = table_value abundances 0 (List.last q taxid) <$> samples
     /\ m_accs n = table_value accs 0 (List.last q taxid) <$> samples
     /\ m_score n = table_value scores NO_SCORE (List.last q taxid) <$> samples)
  /\ (forall q, tax_chain taxonomy taxid q ->
        NoDup (path ++ taxid :: q) ->
        Forall (occupied samples accs) q ->
        exists n, mnode_at node q n).

(** [{sample: f(sample) for sample in samples}] *)
Definition per_sample {V : Type} (samples : list Sample) (f : Sample -> V) :
    gmap Sample V :=
  list_to_map ((fun sample => (sample, f sample)) <$> samples).

(** *** Vocabulary for shape *)

(** [live_at t p n]: following the keys [p] downwards from [t] leads to
    the node [n], and every entry on the way, [n] included, has reads
    in its subtree: the counts of the subtree do not add up to zero.
    These are the entries that [shape] does not pop. *)
Inductive live_at : TaxTree -> list TaxId -> TaxTree -> Prop :=
  | live_at_here t : live_at t [] t
  | live_at_child t tid child p n :
      (tid, child) ∈ children t -> total_counts child ≠ 0 ->
      live_at child p n -> live_at t (tid :: p) n.

(** What [shape] makes of the node [n], the node [n'] with its entries
    after the loop: the counts and the rank of [n], for [acc] the sum
    of the counts of the subtree of [n], which is also the counts plus
    the [acc] of the entries that are left, and the score that the last
    lines of [shape] assign. *)
Definition shaped_from (n n' : TaxTree) : Prop :=
  counts n' = counts n
  /\ taxlevel n' = taxlevel n
  /\ acc n' = total_counts n
  /\ acc n' = counts n' + sum_acc (children n')
  /\ score n' = shaped_score n (children n').

(** *** Vocabulary for get_taxa *)

(** An entry below a node, with the keys of the entries above it, from
    the node downwards. *)
Definition located : Type := (list TaxId * TaxId * TaxTree)%type.

Definition loc_above (e : located) : list TaxId := e.1.1.
Definition loc_key (e : located) : TaxId := e.1.2.
Definition loc_node (e : located) : TaxTree := e.2.
Definition loc_entry (e : located) : TaxId * TaxTree := (loc_key e, loc_node e).

(** The entry [e], seen from one level up, through the entry [tid]. *)
Definition loc_push (tid : TaxId) (e : located) : located :=
  (tid :: loc_above e, loc_key e, loc_node e).

(** The entries below [t] in pre-order, each with the keys above it. *)
Fixpoint preorder_located (t : TaxTree) : list located :=
  flat_map (fun kc => ([], kc.1, kc.2) :: (loc_push kc.1 <$> preorder_located kc.2))
    (children t).

(** Depth of an entry: 1 for the entries of the node itself. *)
Definition loc_depth (e : located) : Z := Z.of_nat (S (length (loc_above e))).

(** The flag [in_branch] at the end of a path of keys, starting from
    the flag [b]. *)
Definition branch_along (include exclude : gset TaxId) (b : bool)
    (path : list TaxId) : bool :=
  fold_left (fun b k => in_branch_of b include exclude k) path b.

(** The entries that a call of [get_taxa] reports, told from their place
    alone: deep enough, above the first depth not visited, in a branch,
    and of the level asked for. *)
Definition taxa_selected (mindepth maxdepth : Z) (include exclude : gset TaxId)
    (just_level : option Rank) (b : bool) (e : located) : bool :=
  (mindepth <=? loc_depth e)
  && ((maxdepth <=? 0) || (loc_depth e <? maxdepth))
  && branch_along include exclude b (loc_above e ++ [loc_key e])
  && match just_level with
     | None => true
     | Some level => rank_is (taxlevel (loc_node e)) level
     end.

(** A path of keys is under [include] when one of its keys is included
    and neither that key nor a key after it is excluded. *)
Fixpoint under_include (include exclude : gset TaxId) (path : list TaxId) : bool :=
  match path with
  | [] => false
  | k :: rest =>
      (bool_decide (k ∈ include)
       && forallb (fun x => negb (bool_decide (x ∈ exclude))) (k :: rest))
      || under_include include exclude rest
  end.

(** What the four dictionaries hold for [tid]. *)
Definition taxa_at (tid : TaxId) (out : taxa_outputs) :
    option (option Z) * option (option Z) * option (option Score)
    * option (option Rank) :=
  ((.!! tid) <$> out_abundance out, (.!! tid) <$> out_accs out,
   (.!! tid) <$> out_scores out, (.!! tid) <$> out_ranks out).

(** *** Vocabulary for prune *)

(** A tree is pruned when none of its leaves, at any depth, would be
    pruned: every entry without entries of its own fails [prune_test]
    under its parent. *)
Fixpoint pruned (min_taxa : Z) (min_rank : option Rank) (t : TaxTree) : bool :=
  forallb (fun kc =>
             match children kc.2 with
             | [] => negb (prune_test min_taxa min_rank (taxlevel t) kc.2)
             | _ :: _ => pruned min_taxa min_rank kc.2
             end) (children t).

(** [bool(self)] *)
Definition has_entries (t : TaxTree) : bool :=
  match children t with
  | [] => false
  | _ :: _ => true
  end.

(** How [prune] may change the attributes of a node that it keeps:
    with [collapse] the counts do not decrease and [acc] stays; without
    it the counts and the score stay and an [acc] that is not negative
    does not increase nor become negative. *)
Definition prune_changes (collapse : bool) (counts0 : Z) (score0 : Score) (acc0 : Z)
    (counts1 : Z) (score1 : Score) (acc1 : Z) : Prop :=
  if collapse
  then counts0 <= counts1 /\ acc1 = acc0
  else counts1 = counts0 /\ score1 = score0
       /\ (0 <= acc0 -> 0 <= acc1 <= acc0).

(** *** Vocabulary for trace *)

(** The loop [for tid in self] of [trace], [visit] being the recursive
    call; [trace_unfold] shows that it is the loop of [trace]. *)
Definition trace_loop (visit : TaxTree -> list TaxId -> bool * list TaxId)
    (target : TaxId) : list (TaxId * TaxTree) -> list TaxId -> bool * list TaxId :=
  fix loop (l : list (TaxId * TaxTree)) (nodes : list TaxId) : bool * list TaxId :=
    match l with
    | [] => (false, nodes)
    | (tid, child) :: rest =>
        match children child with
        | [] => loop rest nodes
        | _ :: _ =>
            let nodes1 := nodes ++ [tid] in
            if dict_mem target (children child) && bool_decide (target ≠ ROOT)
            then (true, nodes1 ++ [target])
            else
              let '(found, nodes2) := visit child nodes1 in
              if found then (true, nodes2) else loop rest (removelast nodes2)
        end
    end.

(** [target] is the key of an entry at depth 2 or more below [t]. *)
Definition below_entries (t : TaxTree) (target : TaxId) : Prop :=
  exists p n, p ≠ [] /\ node_at t (p ++ [target]) n.

(** What a step of [get_lineage] finds for [tid]: the lineage that it
    assigns, if it assigns one. *)
Definition lineage_of (self : TaxTree) (parents : gmap TaxId TaxId) (tid : TaxId) :
    option (list TaxId) :=
  if decide (tid = ROOT) then Some [ROOT]
  else if decide (is_Some (parents !! tid)) then
    let '(found, nodes) := trace self tid [] in
    if found then Some nodes else None
  else None.

(** *** Vocabulary for to_items *)

(** The entries below [t] in pre-order. *)
Fixpoint m_preorder (t : MultiTree) : list (TaxId * MultiTree) :=
  flat_map (fun kc => kc :: m_preorder kc.2) (m_children t).

(** Every entry, at any depth, has the samples of the node that holds
    it and one slot per sample in its three lists. *)
Fixpoint slots_match (t : MultiTree) : bool :=
  forallb (fun kc =>
             bool_decide (m_samples kc.2 = m_samples t)
             && (length (m_counts kc.2) =? length (m_samples t))%nat
             && (length (m_accs kc.2) =? length (m_samples t))%nat
             && (length (m_score kc.2) =? length (m_samples t))%nat
             && slots_match kc.2) (m_children t).

(** Accumulated count, count and score, sample after sample. *)
Fixpoint triples (accs counts : list Z) (scores : list Score) : list cell :=
  match accs, counts, scores with
  | a :: accs', c :: counts', s :: scores' =>
      CellInt a :: CellInt c :: CellScore s :: triples accs' counts' scores'
  | _, _, _ => []
  end.

(** The row of an entry when no sample index is given. *)
Definition full_row (rank_label : Rank -> string) (get_name : TaxId -> string)
    (taxonomy : Taxonomy) (kc : TaxId * MultiTree) : TaxId * list cell :=
  (kc.1, triples (m_accs kc.2) (m_counts kc.2) (m_score kc.2)
         ++ [CellStr (rank_label (get_rank taxonomy kc.1)); CellStr (get_name kc.1)]).

(** An index that Python accepts for a list of [n] elements. *)
Definition index_in_range (n : nat) (i : Z) : Prop :=
  - Z.of_nat n <= i < Z.of_nat n.

(** The row of an entry when sample indexes are given: the count at
    every index, an index below zero counting from the end. *)
Definition counts_row (indexes : list Z) (kc : TaxId * MultiTree) :
    TaxId * list cell :=
  (kc.1, (fun i => CellInt (nth (Z.to_nat (i mod Z.of_nat (length (m_counts kc.2))))
                                (m_counts kc.2) 0)) <$> indexes).

(** The row of [tid] that the tables of the samples give. *)
Definition table_row (rank_label : Rank -> string) (get_name : TaxId -> string)
    (taxonomy : Taxonomy) (samples : list Sample)
    (abundances accs : gmap Sample (gmap TaxId Z))
    (scores : gmap Sample (gmap TaxId Score)) (tid : TaxId) : list cell :=
  flat_map (fun s => [CellInt (table_value accs 0 tid s);
                      CellInt (table_value abundances 0 tid s);
                      CellScore (table_value scores NO_SCORE tid s)]) samples
  ++ [CellStr (rank_label (get_rank taxonomy tid)); CellStr (get_name tid)].

(** *** Vocabulary for rextract *)

(** A taxid that the taxonomy reaches from the root along a chain that
    repeats no taxid, with that chain. *)
Definition reached_by (taxonomy : Taxonomy) (q : list TaxId) (tid : TaxId) : Prop :=
  tax_chain taxonomy ROOT q /\ NoDup (ROOT :: q) /\ List.last q ROOT = tid.

(** How many records of a list have the id [x]. *)
Definition count_id (x : string) (l : list SeqRecord) : nat :=
  length (List.filter (fun r => bool_decide (record_id r = x)) l).

(** The records of a list with a taxid of [taxids]. *)
Definition classified_in (taxids : gset TaxId) (l : list SeqRecord) :
    list SeqRecord :=
  List.filter (fun r => bool_decide (record_taxid r ∈ taxids)) l.

(** How many times the id [x] is in a list of ids. *)
Definition id_count (x : string) (ids : list string) : nat :=
  length (List.filter (fun y => bool_decide (y = x)) ids).

(** * Properties *)

(** ** Generalities *)

Lemma Zsum_with_ext {A : Type} (f g : A -> Z) (l : list A) :
  Forall (fun x => f x = g x) l -> Zsum_with f l = Zsum_with g l.
Proof.
  induction 1 as [|x l Hx _ IH]; simpl; [reflexivity|].
  rewrite Hx, IH. reflexivity.
Qed.

Lemma total_counts_node c r s a kids :
  total_counts (Node c r s a kids)
  = c + Zsum_with (fun kc => total_counts kc.2) kids.
Proof. reflexivity. Qed.

(** ** shape *)

Lemma shape_unfold (self : TaxTree) :
  shape self =
  (do '(a, kids) <~ shape_loop shape (children self) (counts self);
   if counts self =? 0 then
     if a =? 0 then
       Return (Node (counts self) (taxlevel self) (score self) a kids)
     else
       do s <~ shape_score kids a;
       Return (Node (counts self) (taxlevel self) s a kids)
   else
     Return (Node (counts self) (taxlevel self) (score self) a kids)).
Proof. destruct self; reflexivity. Qed.

(** With a nonzero divisor no quotient of [shape_score] raises. *)
Lemma shape_score_nonzero kids a :
  a ≠ 0 ->
  shape_score kids a
  = Return (py_sum ((fun kc => score_div (score_mul (score kc.2) (acc kc.2)) a)
                      <$> kids)).
Proof.
  intros Ha. unfold shape_score.
  assert (Hmap : omap (fun kc : TaxId * TaxTree =>
                         py_div (score_mul (score kc.2) (acc kc.2)) a) kids
                 = Return ((fun kc => score_div (score_mul (score kc.2) (acc kc.2)) a)
                             <$> kids)).
  { induction kids as [|kc kids IH]; simpl; [reflexivity|].
    unfold py_div at 1. destruct (Z.eqb_spec a 0) as [->|_]; [contradiction|].
    simpl. rewrite IH. reflexivity. }
  rewrite Hmap. reflexivity.
Qed.

(** The loop of [shape], given what shaping each entry yields: the
    surviving entries have a nonzero [acc], each comes from an entry of
    the same key, and the running [acc] grows by their sum. *)
Lemma shape_loop_spec (Q : TaxTree -> TaxTree -> Prop) l :
  Forall (fun kc => exists c', shape kc.2 = Return c' /\ Q kc.2 c') l ->
  forall a, exists kids',
    shape_loop shape l a = Return (a + sum_acc kids', kids')
    /\ Forall (fun kc' => acc kc'.2 ≠ 0
                          /\ exists c, (kc'.1, c) ∈ l /\ Q c kc'.2) kids'.
Proof.
  induction 1 as [|[tid child] l (c' & Hc' & HQ) _ IH]; intros a.
  - exists []. split; [|constructor].
    simpl. unfold sum_acc; simpl. rewrite Z.add_0_r. reflexivity.
  - simpl in Hc'. simpl. rewrite Hc'. simpl.
    destruct (Z.eqb_spec (acc c') 0) as [Hz|Hnz].
    + destruct (IH a) as (kids' & Hloop & Hall).
      exists kids'. split; [exact Hloop|].
      eapply Forall_impl; [exact Hall|].
      intros kc' (Hacc & c & Hin & Hq). split; [exact Hacc|].
      exists c. split; [right; exact Hin|exact Hq].
    + destruct (IH (a + acc c')) as (kids' & Hloop & Hall).
      exists ((tid, c') :: kids'). rewrite Hloop. simpl. split.
      * unfold sum_acc; simpl. f_equal. f_equal. unfold sum_acc. lia.
      * constructor.
        -- simpl. split; [exact Hnz|]. exists child. split; [left|exact HQ].
        -- eapply Forall_impl; [exact Hall|].
           intros kc' (Hacc & c & Hin & Hq). split; [exact Hacc|].
           exists c. split; [right; exact Hin|exact Hq].
Qed.

Lemma shape_node_spec (Q : TaxTree -> TaxTree -> Prop) (self : TaxTree) :
  Forall (fun kc => exists c', shape kc.2 = Return c' /\ Q kc.2 c') (children self) ->
  exists kids',
    shape self = Return (Node (counts self) (taxlevel self) (shaped_score self kids')
                              (counts self + sum_acc kids') kids')
    /\ Forall (fun kc' => acc kc'.2 ≠ 0
                          /\ exists c, (kc'.1, c) ∈ children self /\ Q c kc'.2) kids'.
Proof.
  intros Hkids.
  destruct (shape_loop_spec Q _ Hkids (counts self)) as (kids' & Hloop & Hall).
  exists kids'. split; [|exact Hall].
  rewrite shape_unfold, Hloop. simpl. unfold shaped_score.
  destruct (Z.eqb_spec (counts self) 0) as [Hc|Hc]; simpl; [|reflexivity].
  rewrite Hc, Z.add_0_l.
  destruct (Z.eqb_spec (sum_acc kids') 0) as [Ha|Ha]; simpl; [reflexivity|].
  rewrite shape_score_nonzero by exact Ha. reflexivity.
Qed.

(** Shaping entries that are already shaped and have a nonzero [acc]
    keeps them all. *)
Lemma shape_loop_fixed l :
  Forall (fun kc => shape kc.2 = Return kc.2 /\ acc kc.2 ≠ 0) l ->
  forall a, shape_loop shape l a = Return (a + sum_acc l, l).
Proof.
  induction 1 as [|[tid child] l (Hc & Hnz) _ IH]; intros a; simpl.
  - unfold sum_acc; simpl. rewrite Z.add_0_r. reflexivity.
  - simpl in Hc, Hnz. rewrite Hc. simpl.
    destruct (Z.eqb_spec (acc child) 0) as [Hz|_]; [contradiction|].
    rewrite IH. simpl. unfold sum_acc; simpl. f_equal. f_equal. unfold sum_acc. lia.
Qed.

(** [shape] returns for every tree. *)
Lemma shape_returns (t : TaxTree) : exists t', shape t = Return t'.
Proof.
  induction t as [c r s a kids IH] using TaxTree_induction.
  destruct (shape_node_spec (fun _ _ => True) (Node c r s a kids)) as (kids' & Hs & _).
  - simpl. eapply Forall_impl; [exact IH|].
    intros kc (c' & Hc'). exists c'. split; [exact Hc'|exact I].
  - eexists. exact Hs.
Qed.

Lemma live_at_node_at (t : TaxTree) p n : live_at t p n -> node_at t p n.
Proof.
  induction 1 as [t|t tid child p n Hin _ _ IH]; [constructor|].
  econstructor; eassumption.
Qed.

(** The loop of [shape], given that shaping an entry yields for [acc]
    the sum of the counts of its subtree: the entries that are left are
    those of the subtrees with reads, in their order, and the running
    [acc] grows by the counts of all the subtrees, the popped ones
    adding nothing. *)
Lemma shape_loop_total (R : TaxTree -> TaxTree -> Prop) l :
  Forall (fun kc => exists c', shape kc.2 = Return c'
                               /\ acc c' = total_counts kc.2 /\ R kc.2 c') l ->
  forall a, exists kids',
    shape_loop shape l a = Return (a + sum_acc kids', kids')
    /\ sum_acc kids' = Zsum_with (fun kc => total_counts kc.2) l
    /\ Forall (fun kc' => exists c, (kc'.1, c) ∈ l /\ total_counts c ≠ 0
                                    /\ R c kc'.2) kids'
    /\ forall k c, (k, c) ∈ l -> total_counts c ≠ 0 ->
         exists c', (k, c') ∈ kids' /\ R c c'.
Proof.
  induction 1 as [|[tid child] l (c' & Hc' & Hacc & HR) _ IH]; intros a.
  - exists []. unfold sum_acc. cbn. rewrite Z.add_0_r.
    split; [reflexivity|]. split; [reflexivity|]. split; [constructor|].
    intros k c Hin. inversion Hin.
  - cbn [snd] in Hc', Hacc, HR. cbn [shape_loop]. rewrite Hc'. cbn [obind].
    cbn [Zsum_with foldr snd].
    fold (Zsum_with (fun kc : TaxId * TaxTree => total_counts kc.2) l).
    destruct (Z.eqb_spec (acc c') 0) as [Hz|Hnz].
    + destruct (IH a) as (kids' & Hloop & Hsum & Hsound & Hcomplete).
      exists kids'. split; [exact Hloop|]. split; [lia|]. split.
      * eapply Forall_impl; [exact Hsound|].
        intros kc' (c & Hin & Hc & Hq). exists c. split; [right; exact Hin|auto].
      * intros k c Hin Htot. apply elem_of_cons in Hin as [Heq|Hin]; [|auto].
        inversion Heq; subst. lia.
    + destruct (IH (a + acc c')) as (kids' & Hloop & Hsum & Hsound & Hcomplete).
      exists ((tid, c') :: kids'). rewrite Hloop.
      unfold sum_acc in *. cbn [Zsum_with foldr snd].
      fold (Zsum_with (fun kc : TaxId * TaxTree => acc kc.2) kids') in *.
      cbn [obind].
      split; [f_equal; f_equal; lia|]. split; [lia|]. split.
      * constructor.
        -- cbn [fst snd]. exists child. split; [left|]. split; [lia|exact HR].
        -- eapply Forall_impl; [exact Hsound|].
           intros kc' (c & Hin & Hc & Hq). exists c. split; [right; exact Hin|auto].
      * intros k c Hin Htot. apply elem_of_cons in Hin as [Heq|Hin].
        -- inversion Heq; subst. exists c'. split; [left|exact HR].
        -- destruct (Hcomplete k c Hin Htot) as (c0 & Hin0 & HR0).
           exists c0. split; [right; exact Hin0|exact HR0].
Qed.

(** [shape] on the whole tree: the nodes of the result are the nodes of
    the tree that are reached through subtrees with reads, each at its
    place and with what [shaped_from] tells. *)
Lemma shape_total (t : TaxTree) :
  exists t',
    shape t = Return t'
    /\ shaped_from t t'
    /\ (forall p n', node_at t' p n' -> exists n, live_at t p n /\ shaped_from n n')
    /\ (forall p n, live_at t p n -> exists n', node_at t' p n' /\ shaped_from n n').
Proof.
  induction t as [c r s a kids IH] using TaxTree_induction.
  destruct (shape_loop_total
              (fun c0 c' =>
                 (forall p n', node_at c' p n' ->
                    exists n, live_at c0 p n /\ shaped_from n n')
                 /\ (forall p n, live_at c0 p n ->
                       exists n', node_at c' p n' /\ shaped_from n n'))
              kids) with (a := c) as (kids' & Hloop & Hsum & Hsound & Hcomplete).
  { eapply Forall_impl; [exact IH|].
    intros kc (c' & Hrun & Hfrom & Hs & Hc). exists c'.
    split; [exact Hrun|]. split; [apply Hfrom|]. split; assumption. }
  set (t0 := Node c r s a kids) in *.
  assert (Hrun : shape t0
                 = Return (Node c r (shaped_score t0 kids') (c + sum_acc kids') kids')).
  { rewrite shape_unfold. cbn [t0 counts children taxlevel score]. rewrite Hloop.
    cbn [obind]. unfold shaped_score, t0. cbn [counts score].
    destruct (Z.eqb_spec c 0) as [Hc|Hc]; simpl; [|reflexivity].
    rewrite Hc, Z.add_0_l.
    destruct (Z.eqb_spec (sum_acc kids') 0) as [Ha|Ha]; simpl; [reflexivity|].
    rewrite shape_score_nonzero by exact Ha. reflexivity. }
  assert (Hfrom : shaped_from t0 (Node c r (shaped_score t0 kids') (c + sum_acc kids') kids')).
  { unfold shaped_from. cbn [counts taxlevel acc score children].
    rewrite Hsum. unfold t0. rewrite total_counts_node. auto. }
  eexists. split; [exact Hrun|]. split; [exact Hfrom|]. split.
  - intros p n' Hn. inversion Hn as [|? tid child q ? Hin Hq]; subst.
    + exists t0. split; [constructor|exact Hfrom].
    + cbn [children] in Hin. rewrite Forall_forall in Hsound.
      destruct (Hsound _ Hin) as (c0 & Hin0 & Htot & Hs & _). cbn [fst snd] in *.
      destruct (Hs q n' Hq) as (n & Hlive & Hn').
      exists n. split; [|exact Hn']. econstructor; eassumption.
  - intros p n Hlive. inversion Hlive as [|? tid child q ? Hin Htot Hq]; subst.
    + eexists. split; [constructor|exact Hfrom].
    + cbn [children t0] in Hin.
      destruct (Hcomplete tid child Hin Htot) as (c' & Hin' & _ & Hc).
      destruct (Hc q n Hq) as (n' & Hn' & Hfrom').
      exists n'. split; [|exact Hfrom']. econstructor; [exact Hin'|exact Hn'].
Qed.

(** C1. After [shape], the accumulated count of every node is its own
    counts plus the sum of the accumulated counts of the entries it still
    has, and it is the sum of the counts of all the nodes of its subtree;
    in particular the [acc] of the root is the sum of [counts] over all
    the nodes that exist after [shape].  That sum is the sum of the
    counts of the tree as it was: the nodes after [shape] are the nodes
    of the tree reached through subtrees with reads, each at its place
    with its counts, and for [acc] the sum of the counts that its
    subtree had; what is popped had counts adding up to zero. *)
Theorem shape_conservation (t : TaxTree) :
  exists t',
    shape t = Return t'
    /\ (forall p n, node_at t' p n ->
          acc n = counts n + sum_acc (children n) /\ acc n = total_counts n)
    /\ acc t' = total_counts t'
    /\ acc t' = total_counts t
    /\ (forall p n, node_at t' p n ->
          exists n0, live_at t p n0
                     /\ counts n = counts n0 /\ acc n = total_counts n0)
    /\ (forall p n0, live_at t p n0 ->
          exists n, node_at t' p n
                    /\ counts n = counts n0 /\ acc n = total_counts n0).
Proof.
  assert (Hgen : exists t', shape t = Return t'
            /\ forall p n, node_at t' p n ->
                 acc n = counts n + sum_acc (children n) /\ acc n = total_counts n).
  { induction t as [c r s a kids IH] using TaxTree_induction.
    destruct (shape_node_spec
                (fun _ c' => forall p n, node_at c' p n ->
                   acc n = counts n + sum_acc (children n) /\ acc n = total_counts n)
                (Node c r s a kids)) as (kids' & Hs & Hall).
    { simpl. exact IH. }
    eexists. split; [exact Hs|].
    intros p n Hn. inversion Hn as [|? tid child q ? Hin Hq]; subst.
    - rewrite total_counts_node. cbn [acc counts children].
      split; [reflexivity|]. f_equal. unfold sum_acc.
      apply Zsum_with_ext. eapply Forall_impl; [exact Hall|].
      intros kc' (_ & c0 & _ & Hq). apply (Hq [] kc'.2). constructor.
    - cbn [children] in Hin. rewrite Forall_forall in Hall.
      destruct (Hall _ Hin) as (_ & c0 & _ & HQ).
      exact (HQ q n Hq). }
  destruct Hgen as (t' & Hs & Hall).
  destruct (shape_total t) as (t2 & Hs2 & Htop & Hsound & Hcomplete).
  assert (t2 = t') as -> by congruence.
  exists t'. split; [exact Hs|]. split; [exact Hall|].
  split; [apply (Hall [] t'); constructor|].
  split; [apply Htop|]. split.
  - intros p n Hn. destruct (Hsound p n Hn) as (n0 & Hlive & Hc & _ & Ha & _).
    exists n0. auto.
  - intros p n0 Hlive.
    destruct (Hcomplete p n0 Hlive) as (n & Hn & Hc & _ & Ha & _).
    exists n. auto.
Qed.

(** C4. Shaping a shaped tree returns it unchanged: the same entries,
    counts, accumulated counts and scores at every node. *)
Theorem shape_idempotent (t : TaxTree) :
  exists t', shape t = Return t' /\ shape t' = Return t'.
Proof.
  induction t as [c r s a kids IH] using TaxTree_induction.
  destruct (shape_node_spec (fun _ c' => shape c' = Return c') (Node c r s a kids))
    as (kids' & Hs & Hall).
  { simpl. exact IH. }
  eexists. split; [exact Hs|].
  assert (Hfix : Forall (fun kc => shape kc.2 = Return kc.2 /\ acc kc.2 ≠ 0) kids').
  { eapply Forall_impl; [exact Hall|].
    intros kc' (Hnz & c0 & _ & Hq). split; assumption. }
  rewrite shape_unfold. cbn [acc counts children taxlevel score].
  rewrite (shape_loop_fixed _ Hfix). cbn [obind].
  unfold shaped_score; cbn [acc counts children taxlevel score].
  destruct (Z.eqb_spec c 0) as [Hc|Hc]; simpl; [|reflexivity].
  subst c. rewrite Z.add_0_l.
  destruct (Z.eqb_spec (sum_acc kids') 0) as [Ha|Ha]; simpl; [reflexivity|].
  rewrite shape_score_nonzero by exact Ha. reflexivity.
Qed.

(** C5. After [shape], a node with zero [counts] and nonzero [acc] has
    for score the [acc]-weighted average of the scores of its entries,
    and a node with nonzero [counts] has the counts and the score that
    the node at the same place had before.  The nodes after [shape] are
    the nodes of the tree reached through subtrees with reads: each of
    these is there, at its place, with its counts and with the sum of
    the counts of its subtree for [acc]; it keeps its score if it has
    counts, and gets the average if it has none and its subtree has
    some. *)
Theorem shape_scores (t : TaxTree) :
  exists t',
    shape t = Return t'
    /\ (forall p n', node_at t' p n' ->
         (counts n' = 0 -> acc n' ≠ 0 ->
            acc n' = sum_acc (children n')
            /\ score n' = acc_weighted_average (children n'))
         /\ (counts n' ≠ 0 ->
               exists n, node_at t p n /\ counts n = counts n' /\ score n' = score n))
    /\ (forall p n', node_at t' p n' ->
          exists n, live_at t p n
                    /\ counts n' = counts n /\ acc n' = total_counts n)
    /\ (forall p n, live_at t p n ->
          exists n', node_at t' p n'
            /\ counts n' = counts n /\ acc n' = total_counts n
            /\ (counts n ≠ 0 -> score n' = score n)
            /\ (counts n = 0 -> total_counts n ≠ 0 ->
                  acc n' = sum_acc (children n')
                  /\ score n' = acc_weighted_average (children n'))).
Proof.
  assert (Hgen : exists t',
            shape t = Return t'
            /\ forall p n', node_at t' p n' ->
                 (counts n' = 0 -> acc n' ≠ 0 ->
                    acc n' = sum_acc (children n')
                    /\ score n' = acc_weighted_average (children n'))
                 /\ (counts n' ≠ 0 ->
                       exists n, node_at t p n /\ counts n = counts n'
                                 /\ score n' = score n)).
  {
    induction t as [c r s a kids IH] using TaxTree_induction.
    destruct (shape_node_spec
                (fun c0 c' => forall p n', node_at c' p n' ->
                   (counts n' = 0 -> acc n' ≠ 0 ->
                      acc n' = sum_acc (children n')
                      /\ score n' = acc_weighted_average (children n'))
                   /\ (counts n' ≠ 0 ->
                         exists n, node_at c0 p n /\ counts n = counts n'
                                   /\ score n' = score n))
                (Node c r s a kids)) as (kids' & Hs & Hall).
    { simpl. exact IH. }
    eexists. split; [exact Hs|].
    intros p n' Hn. inversion Hn as [|? tid child q ? Hin Hq]; subst;
      cbn [acc counts children taxlevel score] in *.
    - unfold shaped_score; cbn [acc counts children taxlevel score]. split.
      + intros -> Hnz. rewrite Z.add_0_l in Hnz |- *. split; [reflexivity|].
        simpl. destruct (Z.eqb_spec (sum_acc kids') 0); [contradiction|reflexivity].
      + intros Hc. exists (Node c r s a kids). split; [constructor|].
        split; [reflexivity|]. simpl.
        destruct (Z.eqb_spec c 0); [contradiction|reflexivity].
    - rewrite Forall_forall in Hall.
      destruct (Hall _ Hin) as (_ & c0 & Hin0 & HQ). cbn [fst snd] in *.
      destruct (HQ q n' Hq) as [Hzero Hkeep]. split; [exact Hzero|].
      intros Hc. destruct (Hkeep Hc) as (n & Hn0 & Hcn & Hsn).
      exists n. split; [|split; assumption].
      eapply node_at_child; eassumption. }
  destruct Hgen as (t' & Hs & Hall).
  destruct (shape_total t) as (t2 & Hs2 & _ & Hsound & Hcomplete).
  assert (t2 = t') as -> by congruence.
  exists t'. split; [exact Hs|]. split; [exact Hall|]. split.
  - intros p n' Hn. destruct (Hsound p n' Hn) as (n & Hlive & Hc & _ & Ha & _).
    exists n. auto.
  - intros p n Hlive.
    destruct (Hcomplete p n Hlive) as (n' & Hn' & Hc & _ & Ha & Hsum & Hscore).
    exists n'. split; [exact Hn'|]. split; [exact Hc|]. split; [exact Ha|].
    unfold shaped_score in Hscore. split.
    + intros Hnz. rewrite Hscore.
      destruct (Z.eqb_spec (counts n) 0); [contradiction|reflexivity].
    + intros Hz Htot. rewrite Hc, Hz, Z.add_0_l in Hsum.
      split; [exact Hsum|]. rewrite Hscore, Hz. cbn [Z.eqb andb].
      destruct (Z.eqb_spec (sum_acc (children n')) 0) as [Hzero|_]; [|reflexivity].
      exfalso. apply Htot. rewrite <- Ha, Hsum. exact Hzero.
Qed.

(** ** prune *)

Lemma prune_unfold min_taxa min_rank collapse (self : TaxTree) :
  prune min_taxa min_rank collapse self =
  (do '(st, kids) <~
     prune_loop (prune min_taxa min_rank collapse) min_taxa min_rank collapse
       (taxlevel self) (children self)
       (PruneState (counts self) (score self) (acc self));
   Return (match kids with [] => false | _ :: _ => true end,
           Node (ps_counts st) (taxlevel self) (ps_score st) (ps_acc st) kids)).
Proof. destruct self; reflexivity. Qed.

(** The quotient of [prune_leaf] has a nonzero divisor: with [collapse]
    the state is unchanged when the collapsed counts are zero and holds
    the collapsed counts otherwise. *)
Lemma prune_leaf_collapse st child :
  exists st',
    prune_leaf true st child = Return st'
    /\ (ps_counts st + counts child = 0 -> st' = st)
    /\ (ps_counts st + counts child ≠ 0 ->
          ps_counts st' = ps_counts st + counts child).
Proof.
  unfold prune_leaf, py_div.
  destruct (Z.eqb_spec (ps_counts st + counts child) 0) as [Hz|Hnz].
  - exists st. split; [reflexivity|]. split; [reflexivity|contradiction].
  - eexists. split; [reflexivity|]. split; [contradiction|reflexivity].
Qed.

Lemma prune_leaf_returns collapse st child :
  exists st', prune_leaf collapse st child = Return st'.
Proof.
  destruct collapse.
  - destruct (prune_leaf_collapse st child) as (st' & Hst & _). eauto.
  - unfold prune_leaf. destruct (ps_acc st >? counts child); eauto.
Qed.

Lemma prune_loop_returns min_taxa min_rank collapse level l :
  Forall (fun kc => exists r, prune min_taxa min_rank collapse kc.2 = Return r) l ->
  forall st, exists r,
    prune_loop (prune min_taxa min_rank collapse) min_taxa min_rank collapse
      level l st = Return r.
Proof.
  induction 1 as [|[tid child] l ([b child'] & Hc) _ IH]; intros st; simpl.
  - eauto.
  - cbn [snd] in Hc.
    assert (Hsub : exists b' c', match children child with
                    | [] => Return (false, child)
                    | _ :: _ => prune min_taxa min_rank collapse child
                    end = Return (b', c')).
    { destruct (children child); eauto. }
    destruct Hsub as (b' & c' & ->). cbn [obind].
    destruct b'.
    + destruct (IH st) as ([st' rest'] & ->). simpl. eauto.
    + destruct (prune_test min_taxa min_rank level c').
      * destruct (prune_leaf_returns collapse st c') as (st1 & ->). cbn [obind].
        apply IH.
      * destruct (IH st) as ([st' rest'] & ->). simpl. eauto.
Qed.

(** [prune] returns for every tree and every setting. *)
Lemma prune_returns min_taxa min_rank collapse (t : TaxTree) :
  exists r, prune min_taxa min_rank collapse t = Return r.
Proof.
  induction t as [c r s a kids IH] using TaxTree_induction.
  rewrite prune_unfold. cbn [children counts score acc taxlevel].
  destruct (prune_loop_returns min_taxa min_rank collapse r kids IH
              (PruneState c s a)) as ([st kids'] & ->).
  simpl. eauto.
Qed.

Lemma nonneg_counts_unfold (t : TaxTree) :
  nonneg_counts t = true <->
  0 <= counts t /\ forallb (fun kc => nonneg_counts kc.2) (children t) = true.
Proof.
  destruct t as [c r s a kids]. cbn [nonneg_counts counts children].
  rewrite andb_true_iff, Z.leb_le. reflexivity.
Qed.

Lemma total_counts_unfold (t : TaxTree) :
  total_counts t = counts t + Zsum_with (fun kc => total_counts kc.2) (children t).
Proof. destruct t; reflexivity. Qed.

(** The loop of [prune] with [collapse] moves counts from pruned leaves
    to [self] and loses none, as long as no count is negative. *)
Lemma prune_loop_conserves min_taxa min_rank level l :
  Forall (fun kc => nonneg_counts kc.2 = true ->
            exists b t',
              prune min_taxa min_rank true kc.2 = Return (b, t')
              /\ (b = false -> children t' = [])
              /\ total_counts t' = total_counts kc.2
              /\ nonneg_counts t' = true) l ->
  forallb (fun kc => nonneg_counts kc.2) l = true ->
  forall st, 0 <= ps_counts st ->
  exists st' kids',
    prune_loop (prune min_taxa min_rank true) min_taxa min_rank true level l st
    = Return (st', kids')
    /\ ps_counts st' + Zsum_with (fun kc => total_counts kc.2) kids'
       = ps_counts st + Zsum_with (fun kc => total_counts kc.2) l
    /\ 0 <= ps_counts st'
    /\ forallb (fun kc => nonneg_counts kc.2) kids' = true.
Proof.
  induction 1 as [|[tid child] l Hchild _ IH]; intros Hnn st Hst.
  - exists st, []. simpl. auto.
  - cbn [forallb snd] in Hnn, Hchild. apply andb_true_iff in Hnn as [Hnc Hnl].
    specialize (IH Hnl).
    assert (Hsub : exists b' c',
              match children child with
              | [] => Return (false, child)
              | _ :: _ => prune min_taxa min_rank true child
              end = Return (b', c')
              /\ (b' = false -> children c' = [])
              /\ total_counts c' = total_counts child
              /\ nonneg_counts c' = true).
    { destruct (children child) eqn:Hkids.
      - exists false, child. auto.
      - exact (Hchild Hnc). }
    destruct Hsub as (b' & c' & Hrun & Hleaf & Htot & Hnc').
    cbn [prune_loop]. rewrite Hrun. cbn [obind].
    assert (Hkeep : forall st0, 0 <= ps_counts st0 ->
              ps_counts st0 = ps_counts st ->
              exists st' kids',
                (do '(st', rest') <~
                   prune_loop (prune min_taxa min_rank true) min_taxa min_rank true
                     level l st0;
                 Return (st', (tid, c') :: rest')) = Return (st', kids')
                /\ ps_counts st' + Zsum_with (fun kc => total_counts kc.2) kids'
                   = ps_counts st
                     + Zsum_with (fun kc => total_counts kc.2) ((tid, child) :: l)
                /\ 0 <= ps_counts st'
                /\ forallb (fun kc => nonneg_counts kc.2) kids' = true).
    { intros st0 Hst0 Heq.
      destruct (IH st0 Hst0) as (st' & rest' & -> & Hsum & Hpos & Hnn').
      exists st', ((tid, c') :: rest'). cbn [obind]. split; [reflexivity|].
      cbn [Zsum_with foldr forallb snd]. fold (Zsum_with (fun kc : TaxId * TaxTree => total_counts kc.2) rest').
      fold (Zsum_with (fun kc : TaxId * TaxTree => total_counts kc.2) l).
      rewrite Hnc', Hnn'. split; [lia|]. split; [exact Hpos|reflexivity]. }
    destruct b'; [apply Hkeep; [exact Hst|reflexivity]|].
    destruct (prune_test min_taxa min_rank level c');
      [|apply Hkeep; [exact Hst|reflexivity]].
    specialize (Hleaf eq_refl).
    assert (Hcount : total_counts c' = counts c').
    { rewrite total_counts_unfold, Hleaf. simpl. lia. }
    apply nonneg_counts_unfold in Hnc' as [Hc'pos _].
    destruct (prune_leaf_collapse st c') as (st1 & -> & Hzero & Hsum). cbn [obind].
    assert (Hst1 : 0 <= ps_counts st1
                   /\ ps_counts st1 = ps_counts st + counts c').
    { destruct (Z.eq_dec (ps_counts st + counts c') 0) as [Hz|Hnz].
      - rewrite (Hzero Hz). lia.
      - rewrite (Hsum Hnz). lia. }
    destruct Hst1 as [Hst1 Hst1eq].
    destruct (IH st1 Hst1) as (st' & kids' & -> & Hsum' & Hpos & Hnn').
    exists st', kids'. split; [reflexivity|].
    cbn [Zsum_with foldr snd].
    fold (Zsum_with (fun kc : TaxId * TaxTree => total_counts kc.2) l).
    split; [lia|]. split; assumption.
Qed.

(** C2. Pruning with [collapse] a tree whose counts are non-negative
    returns a tree with the same total of [counts], whatever [min_taxa]
    and [min_rank] are. *)
Theorem prune_collapse_conservation min_taxa min_rank (t : TaxTree) :
  nonneg_counts t = true ->
  exists b t',
    prune min_taxa min_rank true t = Return (b, t')
    /\ total_counts t' = total_counts t.
Proof.
  intros Hnn.
  assert (Hgen : exists b t',
            prune min_taxa min_rank true t = Return (b, t')
            /\ (b = false -> children t' = [])
            /\ total_counts t' = total_counts t
            /\ nonneg_counts t' = true).
  { revert Hnn. induction t as [c r s a kids IH] using TaxTree_induction.
    intros Hnn. apply nonneg_counts_unfold in Hnn as [Hc Hkids].
    cbn [counts children] in Hc, Hkids.
    rewrite prune_unfold. cbn [children counts score acc taxlevel].
    destruct (prune_loop_conserves min_taxa min_rank r kids IH Hkids
                (PruneState c s a) Hc) as (st' & kids' & -> & Hsum & Hpos & Hnn').
    cbn [obind]. eexists _, _. split; [reflexivity|].
    split; [destruct kids'; [reflexivity|discriminate]|].
    rewrite !total_counts_node. cbn [ps_counts] in Hsum. split; [exact Hsum|].
    apply nonneg_counts_unfold. cbn [counts children]. split; assumption. }
  destruct Hgen as (b & t' & Hrun & _ & Htot & _). eauto.
Qed.

(** C10. No score computation divides by zero.  A zero divisor raises
    [ZeroDivisionError], and yet [shape] and [prune] return for every
    tree: the quotients of [shape] are taken with a nonzero [acc], the
    quotient of [prune] with nonzero collapsed counts, and when the
    counts of [self] and of a pruned leaf add up to zero the leaf is
    removed while the counts and the score of [self] stay as they are. *)
Theorem score_divisions_guarded :
  (forall x : Score, py_div x 0 = Raise ZeroDivisionError)
  /\ (forall t : TaxTree, exists t', shape t = Return t')
  /\ (forall min_taxa min_rank collapse (t : TaxTree),
        exists r, prune min_taxa min_rank collapse t = Return r)
  /\ (forall kids a, a ≠ 0 -> exists s, shape_score kids a = Return s)
  /\ (forall st child,
        ps_counts st + counts child ≠ 0 ->
        exists s, prune_leaf true st child
                  = Return (PruneState (ps_counts st + counts child) s (ps_acc st)))
  /\ (forall st child,
        ps_counts st + counts child = 0 -> prune_leaf true st child = Return st)
  /\ (forall min_taxa min_rank level tid child rest st,
        children child = [] ->
        prune_test min_taxa min_rank level child = true ->
        ps_counts st + counts child = 0 ->
        prune_loop (prune min_taxa min_rank true) min_taxa min_rank true level
          ((tid, child) :: rest) st
        = prune_loop (prune min_taxa min_rank true) min_taxa min_rank true level
            rest st).
Proof.
  split; [reflexivity|].
  split; [exact shape_returns|].
  split; [exact prune_returns|].
  split.
  { intros kids a Ha. rewrite shape_score_nonzero by exact Ha. eauto. }
  split.
  { intros st child Hnz. unfold prune_leaf, py_div.
    destruct (Z.eqb_spec (ps_counts st + counts child) 0); [contradiction|].
    eexists. reflexivity. }
  split.
  { intros st child Hz. unfold prune_leaf. rewrite Hz. reflexivity. }
  intros min_taxa min_rank level tid child rest st Hleaf Htest Hz.
  cbn [prune_loop]. rewrite Hleaf. cbn [obind]. rewrite Htest.
  unfold prune_leaf. rewrite Hz. reflexivity.
Qed.

(** ** Dictionaries *)

Lemma dict_set_elem {K V : Type} `{EqDecision K} (k k0 : K) (v v0 : V) d :
  (k, v) ∈ dict_set k0 v0 d -> (k, v) = (k0, v0) \/ (k, v) ∈ d.
Proof.
  induction d as [|[k' w] d IH]; simpl.
  - intros Hin. apply list_elem_of_singleton in Hin. left. exact Hin.
  - destruct (decide (k' = k0)) as [->|Hne]; intros Hin;
      apply elem_of_cons in Hin as [Heq|Hin].
    + left. exact Heq.
    + right. right. exact Hin.
    + right. rewrite Heq. left.
    + destruct (IH Hin) as [Heq|Hin']; [left; exact Heq|right; right; exact Hin'].
Qed.

Lemma dict_set_elem_new {K V : Type} `{EqDecision K} (k0 : K) (v0 : V) d :
  (k0, v0) ∈ dict_set k0 v0 d.
Proof.
  induction d as [|[k' w] d IH]; simpl.
  - left.
  - destruct (decide (k' = k0)) as [->|Hne]; [left|right; exact IH].
Qed.

Lemma dict_set_elem_other {K V : Type} `{EqDecision K} (k k0 : K) (v v0 : V) d :
  k ≠ k0 -> (k, v) ∈ d -> (k, v) ∈ dict_set k0 v0 d.
Proof.
  intros Hne. induction d as [|[k' w] d IH]; simpl; intros Hin.
  - inversion Hin.
  - apply elem_of_cons in Hin as [Heq|Hin].
    + inversion Heq; subst. destruct (decide (k' = k0)); [contradiction|left].
    + destruct (decide (k' = k0)); right; [exact Hin|exact (IH Hin)].
Qed.

(** ** grow *)

Lemma default_abundances_idem abundances :
  default_abundances (Some (default_abundances abundances))
  = default_abundances abundances.
Proof.
  assert (Hne : ({[ ROOT := 1 ]} : gmap TaxId Z) ≠ ∅)
    by apply map_non_empty_singleton.
  unfold default_abundances at 1.
  destruct (decide (default_abundances abundances = ∅)) as [Hempty|_];
    [|reflexivity].
  exfalso. unfold default_abundances in Hempty.
  destruct abundances as [m|]; [|contradiction].
  destruct (decide (m = ∅)); contradiction.
Qed.

Lemma grow_unfold fuel taxonomy abundances scores taxid path (self : TaxTree) :
  grow (S fuel) taxonomy abundances scores taxid path self =
  if decide (taxid ∈ path) then Return self
  else
    do node' <~
      match tx_children taxonomy !! taxid with
      | None => Return (new_TaxTree (default 0 (default_abundances abundances !! taxid))
                          (get_rank taxonomy taxid)
                          (default NO_SCORE (default_scores scores !! taxid)))
      | Some kids =>
          grow_loop (fun child node =>
                       grow fuel taxonomy (Some (default_abundances abundances))
                         (Some (default_scores scores)) child (path ++ [taxid]) node)
            kids
            (new_TaxTree (default 0 (default_abundances abundances !! taxid))
               (get_rank taxonomy taxid)
               (default NO_SCORE (default_scores scores !! taxid)))
      end;
    Return (Node (counts self) (taxlevel self) (score self) (acc self)
                 (dict_set taxid node' (children self))).
Proof. reflexivity. Qed.

(** A path that repeats no taxid and runs through taxids that have
    children is no longer than the children table. *)
Lemma path_length_bound (taxonomy : Taxonomy) (path : list TaxId) :
  NoDup path ->
  (forall x, x ∈ path -> is_Some (tx_children taxonomy !! x)) ->
  (length path <= size (tx_children taxonomy))%nat.
Proof.
  intros Hnd Hdom.
  rewrite <- (size_dom (D := gset TaxId)).
  rewrite <- (size_list_to_set (C := gset TaxId) path) by exact Hnd.
  apply subseteq_size. intros x Hx.
  apply elem_of_list_to_set in Hx. apply elem_of_dom. auto.
Qed.

Lemma grow_loop_returns {T : Type} (f : TaxId -> T -> outcome T) l :
  (forall child node, exists node', f child node = Return node') ->
  forall node, exists node', grow_loop f l node = Return node'.
Proof.
  intros Hf. induction l as [|child rest IH]; intros node; simpl; [eauto|].
  destruct (Hf child node) as (node1 & ->). simpl. apply IH.
Qed.

(** [grow] returns whenever the fuel exceeds what is left of the
    children table once the taxids of the path are taken out. *)
Lemma grow_returns fuel :
  forall taxonomy abundances scores taxid path (self : TaxTree),
    NoDup path ->
    (forall x, x ∈ path -> is_Some (tx_children taxonomy !! x)) ->
    (size (tx_children taxonomy) < fuel + length path)%nat ->
    exists t', grow fuel taxonomy abundances scores taxid path self = Return t'.
Proof.
  induction fuel as [|fuel IH]; intros taxonomy abundances scores taxid path self
    Hnd Hdom Hfuel.
  - pose proof (path_length_bound taxonomy path Hnd Hdom). lia.
  - rewrite grow_unfold.
    destruct (decide (taxid ∈ path)) as [Hin|Hnotin]; [eauto|].
    destruct (tx_children taxonomy !! taxid) as [kids|] eqn:Hkids;
      [|simpl; eauto].
    match goal with
    | |- context [grow_loop ?f kids ?node0] =>
        assert (Hloop : exists node', grow_loop f kids node0 = Return node')
    end.
    2: { destruct Hloop as (node' & ->). simpl. eauto. }
    apply grow_loop_returns.
    intros child node. apply IH.
    + apply NoDup_app. split; [exact Hnd|]. split; [|apply NoDup_singleton].
      intros x Hx Hx'. apply list_elem_of_singleton in Hx'. subst. contradiction.
    + intros x Hx. apply elem_of_app in Hx as [Hx|Hx]; [auto|].
      apply list_elem_of_singleton in Hx. subst. rewrite Hkids. eauto.
    + rewrite length_app. simpl. lia.
Qed.

Lemma last_cons_default {A : Type} (x d : A) (l : list A) :
  List.last (x :: l) d = List.last l x.
Proof.
  revert x d. induction l as [|y l IH]; intros x d; [reflexivity|].
  change (List.last (x :: y :: l) d) with (List.last (y :: l) d).
  rewrite (IH y d), (IH y x). reflexivity.
Qed.

(** What [grow] does to [self]: nothing if [taxid] is on the path, and
    otherwise it assigns to [self[taxid]] a node that is [grown]. *)
Lemma grow_spec fuel :
  forall taxonomy abundances scores taxid path (self t' : TaxTree),
    NoDup path ->
    grow fuel taxonomy abundances scores taxid path self = Return t' ->
    (taxid ∈ path /\ t' = self)
    \/ ((taxid ∉ path)
        /\ exists node',
             t' = Node (counts self) (taxlevel self) (score self) (acc self)
                       (dict_set taxid node' (children self))
             /\ grown taxonomy (default_abundances abundances)
                      (default_scores scores) path taxid node').
Proof.
  induction fuel as [|fuel IH]; intros taxonomy abundances scores taxid path self t'
    Hnd Hrun; [discriminate|].
  rewrite grow_unfold in Hrun.
  destruct (decide (taxid ∈ path)) as [Hin|Hnotin].
  { left. split; [exact Hin|]. congruence. }
  right. split; [exact Hnotin|].
  assert (Hnd' : NoDup (path ++ [taxid])).
  { apply NoDup_app. split; [exact Hnd|]. split; [|apply NoDup_singleton].
    intros x Hx Hx'. apply list_elem_of_singleton in Hx'. subst. contradiction. }
  set (ab := default_abundances abundances) in *.
  set (sc := default_scores scores) in *.
  set (node0 := new_TaxTree (default 0 (ab !! taxid)) (get_rank taxonomy taxid)
                  (default NO_SCORE (sc !! taxid))) in *.
  destruct (tx_children taxonomy !! taxid) as [kids|] eqn:Hkids.
  - (* the taxid has children *)
    set (f := fun child node =>
                grow fuel taxonomy (Some ab) (Some sc) child (path ++ [taxid]) node)
      in *.
    pose (Inv := fun node : TaxTree =>
      counts node = counts node0 /\ score node = score node0
      /\ taxlevel node = taxlevel node0 /\ acc node = acc node0
      /\ forall k c, (k, c) ∈ children node ->
           k ∈ kids /\ grown taxonomy ab sc (path ++ [taxid]) k c).
    assert (Hloop : forall l, (forall x, x ∈ l -> x ∈ kids) ->
              forall node node', Inv node ->
                grow_loop f l node = Return node' -> Inv node').
    { induction l as [|child rest IHl]; intros Hsub node node' Hinv Hl; simpl in Hl.
      - congruence.
      - destruct (f child node) as [node1| |] eqn:Hf; try discriminate.
        simpl in Hl. apply (IHl (fun x Hx => Hsub x (list_elem_of_further x child rest Hx))
                              node1 node'); [|exact Hl].
        unfold f in Hf. apply IH in Hf; [|exact Hnd'].
        destruct Hf as [[_ ->]|(_ & sub & -> & Hsubtree)]; [exact Hinv|].
        destruct Hinv as (Hc & Hs & Hr & Ha & Hkids').
        unfold Inv. cbn [counts score taxlevel acc children].
        repeat (split; [assumption|]).
        intros k c Hin. apply dict_set_elem in Hin as [Heq|Hin]; [|auto].
        inversion Heq; subst. split; [apply Hsub; left|].
        unfold ab, sc in Hsubtree |- *.
        rewrite default_abundances_idem in Hsubtree. exact Hsubtree. }
    destruct (grow_loop f kids node0) as [node'| |] eqn:Hrun'; try discriminate.
    simpl in Hrun. exists node'. split; [congruence|].
    assert (Hinv0 : Inv node0).
    { unfold Inv. repeat (split; [reflexivity|]). intros k c Hin. inversion Hin. }
    destruct (Hloop kids (fun x Hx => Hx) node0 node' Hinv0 Hrun')
      as (Hc & Hs & Hr & Ha & Hkids').
    intros q n Hq. inversion Hq as [|? k c q' ? Hin Hq']; subst.
    + cbn [List.last]. rewrite Hc, Hs, Hr, Ha. unfold node0. cbn.
      repeat split; try reflexivity; [exact Hnd'|constructor].
    + destruct (Hkids' k c Hin) as [Hk Hgrown].
      destruct (Hgrown q' n Hq') as (Hndq & Hchain & Hcn & Hsn & Hrn & Han).
      rewrite last_cons_default.
      rewrite <- app_assoc in Hndq. simpl in Hndq.
      repeat split; try assumption.
      econstructor; eassumption.
  - (* the taxid has no children *)
    simpl in Hrun. exists node0. split; [congruence|].
    intros q n Hq. inversion Hq as [|? k c q' ? Hin Hq']; subst.
    + cbn. repeat split; try reflexivity; [exact Hnd'|constructor].
    + inversion Hin.
Qed.

(** C3. For every taxonomy, whatever its children table holds
    (self-references and back-edges included), [grow] returns as soon as
    the fuel exceeds the size of the children table, and no taxid occurs
    twice on a path from the root to a node of the tree it returns. *)
Theorem grow_cycle_safe taxonomy abundances scores taxid fuel :
  (size (tx_children taxonomy) < fuel)%nat ->
  exists t,
    grow fuel taxonomy abundances scores taxid [] empty_TaxTree = Return t
    /\ forall p n, node_at t p n -> NoDup p.
Proof.
  intros Hfuel.
  destruct (grow_returns fuel taxonomy abundances scores taxid [] empty_TaxTree)
    as (t & Hrun).
  { constructor. }
  { intros x Hx. inversion Hx. }
  { simpl. lia. }
  exists t. split; [exact Hrun|].
  apply grow_spec in Hrun; [|constructor].
  destruct Hrun as [[Hin _]|(_ & node' & -> & Hgrown)]; [inversion Hin|].
  intros p n Hp. inversion Hp as [|? k c q ? Hin Hq]; subst; [constructor|].
  cbn in Hin. apply list_elem_of_singleton in Hin. inversion Hin; subst.
  destruct (Hgrown q n Hq) as (Hnd & _). exact Hnd.
Qed.

(** A tree without counts is shaped into a node without entries. *)
Lemma shape_no_counts (t : TaxTree) :
  (forall q n, node_at t q n -> counts n = 0) ->
  shape t = Return (Node 0 (taxlevel t) (score t) 0 []).
Proof.
  induction t as [c r s a kids IH] using TaxTree_induction. intros Hzero.
  assert (Hc : c = 0) by (apply (Hzero [] (Node c r s a kids)); constructor).
  subst c.
  assert (Hloop : forall l, (forall x, x ∈ l -> x ∈ kids) ->
            shape_loop shape l 0 = Return (0, [])).
  { induction l as [|[tid child] l IHl]; intros Hsub; [reflexivity|].
    cbn [shape_loop].
    assert (Hin : (tid, child) ∈ kids) by (apply Hsub; left).
    rewrite Forall_forall in IH. pose proof (IH _ Hin) as Hchild.
    cbn [snd] in Hchild. rewrite Hchild.
    - cbn. apply IHl. intros x Hx. apply Hsub. right. exact Hx.
    - intros q n Hq. apply (Hzero (tid :: q) n).
      econstructor; [exact Hin|exact Hq]. }
  rewrite shape_unfold. cbn [children counts taxlevel score].
  rewrite (Hloop kids (fun x Hx => Hx)). reflexivity.
Qed.

Lemma last_elem_of {A : Type} (x d : A) (l : list A) : List.last (x :: l) d ∈ x :: l.
Proof.
  revert x. induction l as [|y l IH]; intros x; [left|].
  change (List.last (x :: y :: l) d) with (List.last (y :: l) d).
  right. apply IH.
Qed.

(** C9, as the code has it.  With the abundances absent or empty, [grow]
    builds what it builds for the counter [{ROOT: 1}]: a node for every
    taxid it reaches.  It is [shape] that leaves one node of it, the
    root with counts 1 and accumulated count 1. *)
Theorem grow_missing_abundances taxonomy abundances scores fuel :
  abundances = None \/ abundances = Some ∅ ->
  (size (tx_children taxonomy) < fuel)%nat ->
  grow fuel taxonomy abundances scores ROOT [] empty_TaxTree
  = grow fuel taxonomy (Some {[ ROOT := 1 ]}) scores ROOT [] empty_TaxTree
  /\ exists t t',
       grow fuel taxonomy abundances scores ROOT [] empty_TaxTree = Return t
       /\ shape t = Return t'
       /\ children t'
          = [(ROOT, Node 1 (get_rank taxonomy ROOT)
                      (default NO_SCORE (default_scores scores !! ROOT)) 1 [])]
       /\ count_nodes t' = 1%nat.
Proof.
  intros Hmissing Hfuel.
  assert (Hne : ({[ ROOT := 1 ]} : gmap TaxId Z) ≠ ∅)
    by apply map_non_empty_singleton.
  assert (Hdefault : default_abundances abundances = {[ ROOT := 1 ]}).
  { destruct Hmissing as [->| ->]; [reflexivity|].
    unfold default_abundances. destruct (decide (∅ = ∅)); [reflexivity|contradiction]. }
  assert (Hsame : default_abundances (Some {[ ROOT := 1 ]}) = {[ ROOT := 1 ]}).
  { unfold default_abundances.
    destruct (decide (({[ ROOT := 1 ]} : gmap TaxId Z) = ∅)); [contradiction|reflexivity]. }
  split.
  { destruct fuel as [|fuel]; [reflexivity|].
    rewrite !grow_unfold, Hdefault, Hsame. reflexivity. }
  destruct (grow_returns fuel taxonomy abundances scores ROOT [] empty_TaxTree)
    as (t & Hrun).
  { constructor. }
  { intros x Hx. inversion Hx. }
  { simpl. lia. }
  exists t. pose proof Hrun as Hspec.
  apply grow_spec in Hspec; [|constructor].
  destruct Hspec as [[Hin _]|(_ & node' & -> & Hgrown)]; [inversion Hin|].
  rewrite Hdefault in Hgrown.
  assert (Hroot : counts node' = 1 /\ score node' = default NO_SCORE (default_scores scores !! ROOT)
                  /\ taxlevel node' = get_rank taxonomy ROOT).
  { destruct (Hgrown [] node') as (_ & _ & Hc & Hs & Hr & _); [constructor|].
    cbn [List.last] in Hc, Hs, Hr. rewrite lookup_singleton_eq in Hc. auto. }
  destruct Hroot as (Hc & Hs & Hr).
  assert (Hkids : forall k c, (k, c) ∈ children node' ->
            shape c = Return (Node 0 (taxlevel c) (score c) 0 [])).
  { intros k c Hin. apply shape_no_counts. intros q n Hq.
    destruct (Hgrown (k :: q) n) as (Hnd & _ & Hcn & _).
    { econstructor; eassumption. }
    rewrite Hcn. cbn [app] in Hnd. apply NoDup_cons in Hnd as [Hnotin _].
    rewrite lookup_singleton_ne; [reflexivity|].
    intros Heq. apply Hnotin. rewrite Heq at 1. apply last_elem_of. }
  assert (Hloop : forall l, (forall x, x ∈ l -> x ∈ children node') ->
            shape_loop shape l 1 = Return (1, [])).
  { induction l as [|[tid child] l IHl]; intros Hsub; [reflexivity|].
    cbn [shape_loop]. rewrite (Hkids tid child) by (apply Hsub; left).
    cbn. apply IHl. intros x Hx. apply Hsub. right. exact Hx. }
  assert (Hshape : shape node'
            = Return (Node 1 (get_rank taxonomy ROOT)
                        (default NO_SCORE (default_scores scores !! ROOT)) 1 [])).
  { rewrite shape_unfold, Hc, (Hloop _ (fun x Hx => Hx)), Hs, Hr. reflexivity. }
  eexists. split; [exact Hrun|].
  rewrite shape_unfold. cbn [children counts empty_TaxTree new_TaxTree dict_set shape_loop].
  rewrite Hshape. cbn. split; [reflexivity|]. split; reflexivity.
Qed.

(** ** get_taxa *)

Lemma get_taxa_unfold (self : TaxTree) out mindepth maxdepth include exclude
    just_level _in_branch :
  get_taxa self out mindepth maxdepth include exclude just_level _in_branch =
  if maxdepth =? 1 then out
  else
    get_taxa_loop
      (fun child out in_branch =>
         get_taxa child out (mindepth - 1) (maxdepth - 1) include exclude
           just_level in_branch)
      (mindepth - 1) include exclude just_level _in_branch (children self) out.
Proof. destruct self; reflexivity. Qed.

(** One call of [get_taxa] on a node whose entries are given: the
    depths are computed and the loop is run. *)
Ltac get_taxa_step :=
  rewrite get_taxa_unfold;
  repeat match goal with
    | |- context [Z.sub (Zpos ?x) (Zpos ?y)] =>
        let v := eval vm_compute in (Z.sub (Zpos x) (Zpos y)) in
        change (Z.sub (Zpos x) (Zpos y)) with v
    | |- context [Z.eqb ?x (Zpos ?y)] =>
        let v := eval vm_compute in (Z.eqb x (Zpos y)) in
        change (Z.eqb x (Zpos y)) with v
    | |- context [Z.leb ?x Z0] =>
        let v := eval vm_compute in (Z.leb x Z0) in
        change (Z.leb x Z0) with v
    end;
  cbn iota; cbn [get_taxa_loop children andb].

(** C7, as the code has it.  On the tree root→A→B→C, [get_taxa] with
    [mindepth=2] and [maxdepth=2] records nothing at all, whatever the
    other arguments are: the root is above [mindepth] and the descent
    stops below it, [maxdepth] being 1 there.  The root is at depth 1
    and [maxdepth] is the first depth that is not visited: B alone is
    recorded with [mindepth=3] and [maxdepth=4]. *)
Theorem get_taxa_depth_bounds (root a b c : TaxId) (nr na nb nc : TaxTree)
    (out : taxa_outputs) :
  (forall include exclude just_level in_branch,
     get_taxa (chain4 root a b c nr na nb nc) out 2 2 include exclude
       just_level in_branch = out)
  /\ get_taxa (chain4 root a b c nr na nb nc) out 3 4 ∅ ∅ None false
     = record_taxon b (with_children nb [(c, with_children nc [])]) out.
Proof.
  split.
  - intros include exclude just_level in_branch.
    unfold chain4, with_children. repeat get_taxa_step. reflexivity.
  - unfold chain4, with_children. repeat get_taxa_step.
    unfold in_branch_of. rewrite !(bool_decide_eq_true_2 (∅ = ∅)) by reflexivity.
    rewrite !bool_decide_eq_false_2 by set_solver.
    reflexivity.
Qed.

(** ** trace and get_lineage *)

Lemma get_lineage_unfold (self : TaxTree) parents taxids :
  get_lineage self parents taxids
  = ((fold_left (get_lineage_step self parents) taxids
        ([LogGettingLineage], ∅)).1 ++ [LogOK],
     (fold_left (get_lineage_step self parents) taxids
        ([LogGettingLineage], ∅)).2).
Proof.
  unfold get_lineage.
  destruct (fold_left _ _ _) as [output traced]. reflexivity.
Qed.

(** A step of [get_lineage] for a taxid that is not the root and is
    missing in [parents]: a warning, and no change of the result. *)
Lemma get_lineage_step_unknown (self : TaxTree) parents st tid :
  tid ≠ ROOT -> parents !! tid = None ->
  get_lineage_step self parents st tid = (st.1 ++ [LogDiscardedUnknown tid], st.2).
Proof.
  intros Hroot Hnone. destruct st as [output traced]. unfold get_lineage_step.
  destruct (decide (tid = ROOT)); [contradiction|].
  destruct (decide (is_Some (parents !! tid))) as [[x Hx]|_]; [congruence|].
  reflexivity.
Qed.

(** A step for another taxid leaves the entry of [tid] alone. *)
Lemma get_lineage_step_other (self : TaxTree) parents st tid tid' :
  tid' ≠ tid ->
  (get_lineage_step self parents st tid').2 !! tid = st.2 !! tid.
Proof.
  intros Hne. destruct st as [output traced]. unfold get_lineage_step.
  destruct (decide (tid' = ROOT)) as [->|_].
  { cbn. apply lookup_insert_ne. exact Hne. }
  destruct (decide (is_Some (parents !! tid'))); [|reflexivity].
  destruct (trace self tid' []) as [found nodes].
  destruct found; [|reflexivity].
  cbn. apply lookup_insert_ne. exact Hne.
Qed.

(** The result dictionary of a step does not depend on the log. *)
Lemma get_lineage_step_result (self : TaxTree) parents st st' tid :
  st.2 = st'.2 ->
  (get_lineage_step self parents st tid).2
  = (get_lineage_step self parents st' tid).2.
Proof.
  destruct st as [output traced], st' as [output' traced']. cbn. intros ->.
  unfold get_lineage_step.
  destruct (decide (tid = ROOT)); [reflexivity|].
  destruct (decide (is_Some (parents !! tid))); [|reflexivity].
  destruct (trace self tid []) as [found nodes]. destruct found; reflexivity.
Qed.

Lemma get_lineage_step_log (self : TaxTree) parents st tid chunk :
  chunk ∈ st.1 -> chunk ∈ (get_lineage_step self parents st tid).1.
Proof.
  destruct st as [output traced]. cbn. intros Hin. unfold get_lineage_step.
  destruct (decide (tid = ROOT)); [exact Hin|].
  destruct (decide (is_Some (parents !! tid))).
  - destruct (trace self tid []) as [found nodes]. destruct found; [exact Hin|].
    cbn. apply elem_of_app. left. exact Hin.
  - cbn. apply elem_of_app. left. exact Hin.
Qed.

(** Folding the steps of [get_lineage] over taxids among which [tid],
    unknown to [parents], occurs: the entry of [tid] is untouched, the
    warning is in the log, and the result is that of the other taxids. *)
Lemma get_lineage_fold_unknown (self : TaxTree) parents tid taxids :
  tid ≠ ROOT -> parents !! tid = None ->
  forall st st', st.2 = st'.2 ->
    (fold_left (get_lineage_step self parents) taxids st).2
    = (fold_left (get_lineage_step self parents)
         (filter (fun x => x ≠ tid) taxids) st').2
    /\ (fold_left (get_lineage_step self parents) taxids st).2 !! tid = st.2 !! tid
    /\ (tid ∈ taxids ->
          LogDiscardedUnknown tid
          ∈ (fold_left (get_lineage_step self parents) taxids st).1).
Proof.
  intros Hroot Hnone.
  assert (Hkeep : forall l st chunk, chunk ∈ st.1 ->
            chunk ∈ (fold_left (get_lineage_step self parents) l st).1).
  { induction l as [|x l IHl]; intros st chunk Hin; [exact Hin|].
    cbn [fold_left]. apply IHl. apply get_lineage_step_log. exact Hin. }
  induction taxids as [|x taxids IH]; intros st st' Heq.
  - cbn. split; [exact Heq|]. split; [reflexivity|]. intros Hin. inversion Hin.
  - cbn [fold_left]. rewrite filter_cons.
    destruct (decide (x ≠ tid)) as [Hne|Heq'].
    + cbn [fold_left].
      destruct (IH (get_lineage_step self parents st x)
                   (get_lineage_step self parents st' x)) as (Hres & Hentry & Hlog).
      { apply get_lineage_step_result. exact Heq. }
      split; [exact Hres|]. split.
      * rewrite Hentry. apply get_lineage_step_other. exact Hne.
      * intros Hin. apply elem_of_cons in Hin as [Hx|Hin]; [congruence|auto].
    + assert (x = tid) as -> by (destruct (decide (x = tid)); [assumption|contradiction]).
      rewrite get_lineage_step_unknown by assumption.
      destruct (IH (st.1 ++ [LogDiscardedUnknown tid], st.2) st') as (Hres & Hentry & _).
      { exact Heq. }
      split; [exact Hres|]. split; [exact Hentry|].
      intros _. apply Hkeep. cbn. apply elem_of_app. right. left.
Qed.

(** C8, as the code has it.  For the tree root→A→B, the lineage of B is
    [root, A, B].  A taxid other than the root that is missing in
    [parents] gets no entry and a warning in the log, and the result is
    the one obtained for the other taxids.  (The root is answered
    before [parents] is looked at.) *)
Theorem get_lineage_correct :
  (forall a b (nr na nb : TaxTree) parents,
     b ≠ ROOT -> a ≠ b -> is_Some (parents !! b) ->
     get_lineage (chain3 ROOT a b nr na nb) parents [b]
     = ([LogGettingLineage; LogOK], {[ b := [ROOT; a; b] ]}))
  /\ (forall (self : TaxTree) parents taxids tid,
        tid ≠ ROOT -> parents !! tid = None ->
        (get_lineage self parents taxids).2 !! tid = None
        /\ (tid ∈ taxids ->
              LogDiscardedUnknown tid ∈ (get_lineage self parents taxids).1)
        /\ (get_lineage self parents taxids).2
           = (get_lineage self parents (filter (fun x => x ≠ tid) taxids)).2).
Proof.
  split.
  - intros a b nr na nb parents Hroot Hab Hparent.
    unfold get_lineage. cbn [fold_left]. unfold get_lineage_step.
    destruct (decide (b = ROOT)); [contradiction|].
    destruct (decide (is_Some (parents !! b))); [|contradiction].
    unfold chain3, with_children. cbn [trace children app].
    unfold dict_mem. cbn [fmap list_fmap fst].
    rewrite (bool_decide_eq_false_2 (b ∈ [a])).
    2: { intros Hin. apply list_elem_of_singleton in Hin. congruence. }
    cbn [andb].
    rewrite (bool_decide_eq_true_2 (b ∈ [b])) by left.
    rewrite (bool_decide_eq_true_2 (b ≠ ROOT)) by assumption.
    cbn. reflexivity.
  - intros self parents taxids tid Hroot Hnone.
    rewrite !get_lineage_unfold. cbn [fst snd].
    destruct (get_lineage_fold_unknown self parents tid taxids Hroot Hnone
                ([LogGettingLineage], ∅) ([LogGettingLineage], ∅) eq_refl)
      as (Hres & Hentry & Hlog).
    split; [rewrite Hentry; apply lookup_empty|].
    split; [|exact Hres].
    intros Hin. apply elem_of_app. left. auto.
Qed.

(** *** get_taxa without bounds *)

Lemma preorder_unfold (t : TaxTree) :
  preorder t = flat_map (fun kc => kc :: preorder kc.2) (children t).
Proof. destruct t; reflexivity. Qed.

Lemma record_all_app l l' out :
  record_all (l ++ l') out = record_all l' (record_all l out).
Proof. unfold record_all. apply fold_left_app. Qed.

(** With no lower bound ([mindepth] at most 1), no upper bound
    ([maxdepth] at most 0), nothing to include or exclude and no level,
    [get_taxa] records every entry below the node, in pre-order. *)
Lemma get_taxa_unbounded (t : TaxTree) :
  forall out mindepth maxdepth in_branch,
    mindepth <= 1 -> maxdepth <= 0 ->
    get_taxa t out mindepth maxdepth ∅ ∅ None in_branch
    = record_all (preorder t) out.
Proof.
  induction t as [c r s a kids IH] using TaxTree_induction.
  intros out mindepth maxdepth in_branch Hmin Hmax.
  rewrite get_taxa_unfold, preorder_unfold. cbn [children].
  destruct (Z.eqb_spec maxdepth 1) as [Heq|_]; [lia|].
  revert out. induction IH as [|[tid child] l Hchild _ IHl]; intros out.
  - reflexivity.
  - cbn [get_taxa_loop flat_map]. cbn [snd] in Hchild.
    replace (mindepth - 1 <=? 0) with true by (symmetry; apply Z.leb_le; lia).
    unfold in_branch_of at 1 2.
    rewrite (bool_decide_eq_true_2 (∅ = ∅)) by reflexivity.
    rewrite (bool_decide_eq_false_2 (tid ∈ ∅)) by set_solver.
    rewrite orb_true_r. cbn [andb orb negb].
    rewrite IHl. cbn [snd].
    rewrite (record_all_app ((tid, child) :: preorder child)). f_equal.
    change (record_all ((tid, child) :: preorder child) out)
      with (record_all (preorder child) (record_taxon tid child out)).
    destruct (children child) eqn:Hkids.
    + rewrite (preorder_unfold child), Hkids. reflexivity.
    + rewrite Hchild by lia. reflexivity.
Qed.

Lemma preorder_node_at (t : TaxTree) x n :
  (x, n) ∈ preorder t <-> exists p, node_at t (p ++ [x]) n.
Proof.
  split.
  - revert x n. induction t as [c r s a kids IH] using TaxTree_induction.
    intros x n Hin. rewrite preorder_unfold in Hin. cbn [children] in Hin.
    apply list_elem_of_In, in_flat_map in Hin as ([k child] & Hkc & Hin).
    apply list_elem_of_In in Hkc. cbn [snd] in Hin.
    destruct Hin as [Heq|Hin].
    + inversion Heq; subst. exists []. cbn.
      econstructor; [exact Hkc|constructor].
    + rewrite Forall_forall in IH.
      apply list_elem_of_In in Hin.
      destruct (IH _ Hkc x n Hin) as (p & Hp).
      exists (k :: p). cbn. econstructor; [exact Hkc|exact Hp].
  - intros (p & Hp). remember (p ++ [x]) as q eqn:Hq.
    revert p Hq. induction Hp as [t|t tid child q n Hin Hq' IH]; intros p Hq.
    + destruct p; discriminate.
    + rewrite preorder_unfold. apply list_elem_of_In, in_flat_map.
      exists (tid, child). split; [apply list_elem_of_In; exact Hin|].
      cbn [snd]. destruct p as [|y p]; cbn in Hq; inversion Hq; subst.
      * inversion Hq'; subst. left. reflexivity.
      * right. apply list_elem_of_In. apply (IH p). reflexivity.
Qed.

Lemma record_all_accs l out :
  out_accs (record_all l out)
  = fold_left (fun m kc => <[kc.1 := acc kc.2]> m) l <$> out_accs out.
Proof.
  revert out. induction l as [|kc l IH]; intros out.
  - cbn. destruct (out_accs out); reflexivity.
  - cbn [record_all fold_left]. fold (record_all l (record_taxon kc.1 kc.2 out)).
    rewrite IH. cbn [record_taxon out_accs].
    destruct (out_accs out); reflexivity.
Qed.

Lemma record_all_abundance l out :
  out_abundance (record_all l out)
  = fold_left (fun m kc => <[kc.1 := counts kc.2]> m) l <$> out_abundance out.
Proof.
  revert out. induction l as [|kc l IH]; intros out.
  - cbn. destruct (out_abundance out); reflexivity.
  - cbn [record_all fold_left]. fold (record_all l (record_taxon kc.1 kc.2 out)).
    rewrite IH. cbn [record_taxon out_abundance].
    destruct (out_abundance out); reflexivity.
Qed.

(** A dictionary filled entry by entry holds, for a key, a value
    assigned for that key or the value it held before. *)
Lemma fold_insert_lookup {V : Type} (f : TaxTree -> V) l :
  forall (m : gmap TaxId V) x v,
    fold_left (fun m kc => <[kc.1 := f kc.2]> m) l m !! x = Some v ->
    (exists n, (x, n) ∈ l /\ v = f n) \/ m !! x = Some v.
Proof.
  induction l as [|[k n] l IH]; intros m x v Hlook; [right; exact Hlook|].
  cbn [fold_left fst snd] in Hlook. apply IH in Hlook as [(n' & Hin & Hv)|Hlook].
  - left. exists n'. split; [right; exact Hin|exact Hv].
  - destruct (decide (k = x)) as [->|Hne].
    + rewrite lookup_insert_eq in Hlook. left. exists n.
      split; [left|congruence].
    + rewrite lookup_insert_ne in Hlook by exact Hne. right. exact Hlook.
Qed.

Lemma fold_insert_is_Some {V : Type} (f : TaxTree -> V) l :
  forall (m : gmap TaxId V) x,
    (exists n, (x, n) ∈ l) \/ is_Some (m !! x) ->
    is_Some (fold_left (fun m kc => <[kc.1 := f kc.2]> m) l m !! x).
Proof.
  induction l as [|[k n] l IH]; intros m x Hx.
  - destruct Hx as [(n & Hin)|Hx]; [inversion Hin|exact Hx].
  - cbn [fold_left fst snd]. apply IH.
    destruct Hx as [(n' & Hin)|Hx].
    + apply elem_of_cons in Hin as [Heq|Hin]; [|left; eauto].
      inversion Heq; subst. right. rewrite lookup_insert_eq. eauto.
    + right. destruct (decide (k = x)) as [->|Hne].
      * rewrite lookup_insert_eq. eauto.
      * rewrite lookup_insert_ne by exact Hne. exact Hx.
Qed.

Lemma node_at_cons_inv (t : TaxTree) k q n :
  node_at t (k :: q) n -> exists child, (k, child) ∈ children t /\ node_at child q n.
Proof. intros Hn. inversion Hn; subst. eauto. Qed.

Lemma node_at_split (t : TaxTree) p q n :
  node_at t (p ++ q) n -> exists m, node_at t p m /\ node_at m q n.
Proof.
  revert t. induction p as [|k p IH]; intros t Hn.
  - exists t. split; [constructor|exact Hn].
  - cbn in Hn. inversion Hn as [|? tid child q' ? Hin Hq]; subst.
    destruct (IH child Hq) as (m & Hp & Hm).
    exists m. split; [econstructor; eassumption|exact Hm].
Qed.

(** The nodes of a shaped tree: all but the top one have a nonzero
    [acc], and each is at a place where the tree had a node before. *)
Lemma shape_nodes (t : TaxTree) :
  exists t',
    shape t = Return t'
    /\ forall p n, node_at t' p n ->
         (p ≠ [] -> acc n ≠ 0) /\ exists n0, node_at t p n0.
Proof.
  induction t as [c r s a kids IH] using TaxTree_induction.
  destruct (shape_node_spec
              (fun c0 c' => forall p n, node_at c' p n ->
                 (p ≠ [] -> acc n ≠ 0) /\ exists n0, node_at c0 p n0)
              (Node c r s a kids)) as (kids' & Hs & Hall).
  { exact IH. }
  eexists. split; [exact Hs|].
  intros p n Hn. inversion Hn as [|? tid child q ? Hin Hq]; subst.
  - split; [congruence|]. eexists. constructor.
  - cbn [children] in Hin. rewrite Forall_forall in Hall.
    destruct (Hall _ Hin) as (Hnz & c0 & Hin0 & HQ). cbn [fst snd] in *.
    destruct (HQ q n Hq) as [Hacc (n0 & Hn0)]. split.
    + intros _. destruct q as [|k q].
      * inversion Hq; subst. exact Hnz.
      * apply Hacc. discriminate.
    + exists n0. econstructor; eassumption.
Qed.

(** The tables read off a grown and shaped tree are [shaped_table]s. *)
Lemma sample_tables_shaped fuel taxonomy abundances scores :
  (size (tx_children taxonomy) < fuel)%nat ->
  exists tb,
    sample_tables fuel taxonomy abundances scores = Return tb
    /\ shaped_table taxonomy tb.
Proof.
  intros Hfuel.
  destruct (grow_returns fuel taxonomy abundances scores ROOT [] empty_TaxTree)
    as (t & Hrun).
  { constructor. }
  { intros x Hx. inversion Hx. }
  { simpl. lia. }
  pose proof Hrun as Hspec. apply grow_spec in Hspec; [|constructor].
  destruct Hspec as [[Hin _]|(_ & node' & Ht & Hgrown)]; [inversion Hin|].
  destruct (shape_nodes t) as (t' & Hshape & Hnodes).
  unfold sample_tables. rewrite Hrun. cbn [obind]. rewrite Hshape. cbn [obind].
  eexists. split; [reflexivity|].
  rewrite get_taxa_unbounded by lia.
  rewrite record_all_accs, record_all_abundance. cbn [no_taxa out_accs out_abundance
    fmap option_fmap option_map default st_accs st_abundance].
  set (A := fold_left (fun m kc => <[kc.1 := acc kc.2]> m) (preorder t') ∅).
  set (B := fold_left (fun m kc => <[kc.1 := counts kc.2]> m) (preorder t') ∅).
  assert (Hval : forall x v, A !! x = Some v ->
            v ≠ 0 /\ exists p n, node_at t' (p ++ [x]) n).
  { intros x v Hlook. apply fold_insert_lookup in Hlook as [(n & Hin & ->)|Hlook].
    - apply preorder_node_at in Hin as (p & Hp). split; [|eauto].
      apply (Hnodes _ _ Hp). destruct p; discriminate.
    - rewrite lookup_empty in Hlook. discriminate. }
  assert (Hmem : forall p x n, node_at t' (p ++ [x]) n ->
            exists v, A !! x = Some v /\ v ≠ 0).
  { intros p x n Hp.
    destruct (fold_insert_is_Some (fun n => acc n) (preorder t') ∅ x) as (v & Hv).
    { left. exists n. apply preorder_node_at. eauto. }
    exists v. split; [exact Hv|]. apply (Hval x v Hv). }
  split.
  - intros x Hx. cbn [st_accs st_abundance id] in Hx |- *.
    destruct (A !! x) as [v|] eqn:Hlook; [|exfalso; apply Hx; reflexivity].
    destruct (Hval x v Hlook) as (_ & p & n & Hp).
    destruct (Hnodes _ _ Hp) as (_ & n0 & Hn0).
    rewrite Ht in Hn0.
    destruct (p ++ [x]) as [|tid q] eqn:Hpath; [destruct p; discriminate|].
    apply node_at_cons_inv in Hn0 as (child & Hin & Hq).
    cbn in Hin. apply list_elem_of_singleton in Hin. inversion Hin; subst tid child.
    destruct (Hgrown q n0 Hq) as (Hnd & Hchain & _).
    exists q. split; [exact Hchain|]. split; [exact Hnd|]. split.
    + rewrite <- (last_cons_default ROOT ROOT q), <- Hpath. apply last_last.
    + intros y Hy.
      apply list_elem_of_split in Hy as (l1 & l2 & Hsplit).
      rewrite Hsplit in Hp.
      change (l1 ++ y :: l2) with (l1 ++ [y] ++ l2) in Hp.
      rewrite app_assoc in Hp.
      apply node_at_split in Hp as (m & Hm & _).
      destruct (Hmem _ _ _ Hm) as (v' & -> & Hv'). exact Hv'.
  - intros x Hx. cbn [st_accs st_abundance id] in Hx |- *.
    destruct (B !! x) as [v|] eqn:Hlook; [|reflexivity].
    exfalso.
    apply fold_insert_lookup in Hlook as [(n & Hin & _)|Hlook].
    + apply preorder_node_at in Hin as (p & Hp).
      destruct (Hmem _ _ _ Hp) as (v' & Hv' & Hnz).
      rewrite Hv' in Hx. contradiction.
    + rewrite lookup_empty in Hlook. discriminate.
Qed.

(** ** MultiTree.grow *)

Lemma dict_get_items {V : Type} (f : Sample -> V) (samples : list Sample) sample :
  sample ∈ samples ->
  dict_get sample ((fun s => (s, f s)) <$> samples) = Some (f sample).
Proof.
  induction samples as [|s0 samples IH]; intros Hin; [inversion Hin|].
  cbn. destruct (decide (s0 = sample)) as [->|Hne]; [reflexivity|].
  apply elem_of_cons in Hin as [Heq|Hin]; [congruence|auto].
Qed.

Lemma by_samples_items {V : Type} (f : Sample -> V) (samples : list Sample) :
  by_samples samples ((fun s => (s, f s)) <$> samples) = Return (f <$> samples).
Proof.
  unfold by_samples.
  assert (Hgen : forall l, (forall s, s ∈ l -> s ∈ samples) ->
            omap (fun sample =>
                    match dict_get sample ((fun s => (s, f s)) <$> samples) with
                    | Some v => Return v
                    | None => Raise KeyError
                    end) l = Return (f <$> l)).
  { induction l as [|s l IH]; intros Hsub; [reflexivity|].
    cbn [omap]. rewrite dict_get_items by (apply Hsub; left).
    cbn [obind]. rewrite IH; [reflexivity|].
    intros s' Hs'. apply Hsub. right. exact Hs'. }
  apply Hgen. auto.
Qed.

Lemma per_sample_get_returns {V : Type} (samples : list Sample)
    (d : gmap Sample (gmap TaxId V)) taxid dflt :
  (forall s, s ∈ samples -> is_Some (d !! s)) ->
  per_sample_get samples d taxid dflt
  = Return ((fun s => (s, table_value d dflt taxid s)) <$> samples).
Proof.
  unfold per_sample_get. induction samples as [|s samples IH]; intros Hkeys;
    [reflexivity|].
  cbn [omap fmap list_fmap]. unfold table_value at 1.
  destruct (Hkeys s) as (m & ->); [left|]. cbn [obind].
  rewrite IH; [reflexivity|].
  intros s' Hs'. apply Hkeys. right. exact Hs'.
Qed.

Lemma any_acc_items (f : Sample -> Z) (samples : list Sample) :
  any_acc ((fun s => (s, f s)) <$> samples) = true
  <-> exists sample, sample ∈ samples /\ f sample ≠ 0.
Proof.
  unfold any_acc. rewrite existsb_exists. split.
  - intros ([s v] & Hin & Hnz). apply list_elem_of_In, list_elem_of_fmap in Hin
      as (s' & Heq & Hs'). inversion Heq; subst.
    exists s'. split; [exact Hs'|].
    cbn in Hnz. apply negb_true_iff, Z.eqb_neq in Hnz. exact Hnz.
  - intros (s & Hs & Hnz). exists (s, f s). split.
    + apply list_elem_of_In, list_elem_of_fmap. eauto.
    + cbn. apply negb_true_iff, Z.eqb_neq. exact Hnz.
Qed.

Lemma default_per_sample_idem {V : Type} (samples : list Sample) (v : V) d :
  default_per_sample samples v (Some (default_per_sample samples v d))
  = default_per_sample samples v d.
Proof.
  unfold default_per_sample at 1.
  destruct (decide (default_per_sample samples v d = ∅)) as [Hempty|_];
    [|reflexivity].
  rewrite Hempty. unfold default_per_sample in Hempty.
  destruct d as [m|]; [|exact Hempty].
  destruct (decide (m = ∅)); [exact Hempty|contradiction].
Qed.

(** One call of [MultiTree.grow] when every sample has its tables: no
    look-up raises. *)
Lemma MultiTree_grow_step fuel taxonomy abundances accs scores taxid path
    (self : MultiTree) :
  let samples := m_samples self in
  let ab := default_per_sample samples {[ ROOT := 1 ]} abundances in
  let ac := default_per_sample samples {[ ROOT := 1 ]} accs in
  let sc := default_per_sample samples ∅ scores in
  (forall s, s ∈ samples ->
     is_Some (ab !! s) /\ is_Some (ac !! s) /\ is_Some (sc !! s)) ->
  MultiTree_grow (S fuel) taxonomy abundances accs scores taxid path self =
  if decide (taxid ∈ path) then Return self
  else if any_acc ((fun s => (s, table_value ac 0 taxid s)) <$> samples) then
    do node' <~
      match tx_children taxonomy !! taxid with
      | None => Return (fresh_MultiTree taxonomy samples ab ac sc taxid)
      | Some kids =>
          grow_loop (fun child node =>
                       MultiTree_grow fuel taxonomy (Some ab) (Some ac) (Some sc)
                         child (path ++ [taxid]) node)
            kids (fresh_MultiTree taxonomy samples ab ac sc taxid)
      end;
    Return (MNode (m_samples self) (m_taxlevel self) (m_counts self)
                  (m_accs self) (m_score self)
                  (dict_set taxid node' (m_children self)))
  else Return self.
Proof.
  intros samples ab ac sc Hkeys. cbn [MultiTree_grow].
  fold samples. fold ab. fold ac. fold sc.
  destruct (decide (taxid ∈ path)); [reflexivity|].
  rewrite !per_sample_get_returns by (intros s Hs; apply (Hkeys s Hs)).
  cbn [obind].
  destruct (any_acc _); [|reflexivity].
  unfold new_MultiTree. rewrite !by_samples_items. reflexivity.
Qed.

(** What [MultiTree.grow] does to [self] when every sample has its
    tables: nothing if [taxid] is on the path or is not occupied, and
    otherwise it assigns to [self[taxid]] a node that is [mgrown]. *)
Lemma MultiTree_grow_spec taxonomy samples ab ac sc :
  (forall s, s ∈ samples ->
     is_Some (ab !! s) /\ is_Some (ac !! s) /\ is_Some (sc !! s)) ->
  forall fuel abundances accs scores taxid path (self : MultiTree),
    m_samples self = samples ->
    default_per_sample samples {[ ROOT := 1 ]} abundances = ab ->
    default_per_sample samples {[ ROOT := 1 ]} accs = ac ->
    default_per_sample samples ∅ scores = sc ->
    NoDup path ->
    (forall x, x ∈ path -> is_Some (tx_children taxonomy !! x)) ->
    (size (tx_children taxonomy) < fuel + length path)%nat ->
    exists t',
      MultiTree_grow fuel taxonomy abundances accs scores taxid path self = Return t'
      /\ (((taxid ∈ path \/ ~ occupied samples ac taxid) /\ t' = self)
          \/ ((taxid ∉ path) /\ occupied samples ac taxid
              /\ exists node',
                   t' = MNode (m_samples self) (m_taxlevel self) (m_counts self)
                              (m_accs self) (m_score self)
                              (dict_set taxid node' (m_children self))
                   /\ mgrown taxonomy samples ab ac sc path taxid node')).
Proof.
  intros Hkeys.
  induction fuel as [|fuel IH];
    intros abundances accs scores taxid path self Hsamples Hab Hac Hsc Hnd Hdom Hfuel.
  { pose proof (path_length_bound taxonomy path Hnd Hdom). lia. }
  pose proof (MultiTree_grow_step fuel taxonomy abundances accs scores taxid path self)
    as Hstep.
  cbv zeta in Hstep. rewrite Hsamples, Hab, Hac, Hsc in Hstep.
  rewrite (Hstep Hkeys). clear Hstep.
  destruct (decide (taxid ∈ path)) as [Hin|Hnotin].
  { exists self. split; [reflexivity|]. left. auto. }
  pose proof (any_acc_items (table_value ac 0 taxid) samples) as Hany.
  fold (occupied samples ac taxid) in Hany.
  destruct (any_acc _).
  2: { exists self. split; [reflexivity|]. left. split; [|reflexivity].
       right. intros Hocc. apply Hany in Hocc. discriminate. }
  assert (Hocc : occupied samples ac taxid) by (apply Hany; reflexivity).
  clear Hany.
  set (path' := path ++ [taxid]).
  assert (Hnd' : NoDup path').
  { apply NoDup_app. split; [exact Hnd|]. split; [|apply NoDup_singleton].
    intros x Hx Hx'. apply list_elem_of_singleton in Hx'. subst. contradiction. }
  set (node0 := fresh_MultiTree taxonomy samples ab ac sc taxid).
  (* the node, once its branches are grown *)
  assert (Hnode : forall node', 
            m_samples node' = samples ->
            m_counts node' = m_counts node0 -> m_accs node' = m_accs node0 ->
            m_score node' = m_score node0 ->
            (forall k c, (k, c) ∈ m_children node' ->
               mgrown taxonomy samples ab ac sc path' k c) ->
            (forall k q, tax_chain taxonomy taxid (k :: q) -> (k ∉ path') ->
               occupied samples ac k -> exists c, (k, c) ∈ m_children node') ->
            mgrown taxonomy samples ab ac sc path taxid node').
  { intros node' Hs Hc Ha Hsco Hgood Hentries. split.
    - intros q n Hq. inversion Hq as [|? k c q' ? Hin Hq']; subst.
      + cbn [List.last]. rewrite Hc, Ha, Hsco. auto.
      + rewrite last_cons_default.
        destruct (Hgood k c Hin) as [Hsound _]. apply (Hsound q' n Hq').
    - intros q Hchain Hndq Hoccq. destruct q as [|k q'].
      + exists node'. constructor.
      + apply Forall_cons in Hoccq as [Hocck Hoccq'].
        assert (Hndq' : NoDup (path' ++ k :: q')).
        { unfold path'. rewrite <- app_assoc. exact Hndq. }
        assert (Hk : k ∉ path').
        { apply NoDup_app in Hndq' as (_ & Hdisj & _).
          intros Hk. apply (Hdisj k Hk). left. }
        destruct (Hentries k q' Hchain Hk Hocck) as (c & Hin).
        destruct (Hgood k c Hin) as [_ Hcomplete].
        inversion Hchain as [|? kids ? ? Hkids Hkin Hchain']; subst.
        destruct (Hcomplete q' Hchain' Hndq' Hoccq') as (n & Hn).
        exists n. econstructor; eassumption. }
  destruct (tx_children taxonomy !! taxid) as [kids|] eqn:Hkids.
  - (* the taxid has children *)
    set (f := fun child node =>
                MultiTree_grow fuel taxonomy (Some ab) (Some ac) (Some sc) child
                  path' node).
    assert (Hloop : forall l node,
              m_samples node = samples ->
              (forall k c, (k, c) ∈ m_children node ->
                 mgrown taxonomy samples ab ac sc path' k c) ->
              exists node',
                grow_loop f l node = Return node'
                /\ m_samples node' = samples
                /\ m_counts node' = m_counts node /\ m_accs node' = m_accs node
                /\ m_score node' = m_score node
                /\ (forall k c, (k, c) ∈ m_children node' ->
                      mgrown taxonomy samples ab ac sc path' k c)
                /\ (forall k, k ∈ l \/ (exists c, (k, c) ∈ m_children node) ->
                      (k ∉ path') -> occupied samples ac k ->
                      exists c, (k, c) ∈ m_children node')).
    { induction l as [|child rest IHl]; intros node Hs Hgood.
      - exists node. cbn. repeat (split; [auto|]).
        intros k [Hin|Hentry] _ _; [inversion Hin|exact Hentry].
      - cbn [grow_loop].
        destruct (IH (Some ab) (Some ac) (Some sc) child path' node) as (node1 & Hf & Hcase).
        { exact Hs. }
        { rewrite <- Hab. apply default_per_sample_idem. }
        { rewrite <- Hac. apply default_per_sample_idem. }
        { rewrite <- Hsc. apply default_per_sample_idem. }
        { exact Hnd'. }
        { intros x Hx. apply elem_of_app in Hx as [Hx|Hx]; [auto|].
          apply list_elem_of_singleton in Hx. subst. rewrite Hkids. eauto. }
        { unfold path'. rewrite length_app. simpl. lia. }
        unfold f at 1. rewrite Hf. cbn [obind].
        destruct Hcase as [[Hskip ->]|(Hfresh & Hoccc & sub & -> & Hsub)].
        + destruct (IHl node Hs Hgood)
            as (node' & Hrun & Hs' & Hc' & Ha' & Hsc' & Hgood' & Hentries').
          exists node'. repeat (split; [assumption|]).
          intros k [Hin|Hentry] Hk Hocck.
          * apply elem_of_cons in Hin as [->|Hin]; [|apply Hentries'; auto].
            destruct Hskip; contradiction.
          * apply Hentries'; auto.
        + match goal with
          | |- context [grow_loop f rest ?n1] =>
              destruct (IHl n1) as
                (node' & Hrun & Hs' & Hc' & Ha' & Hsc' & Hgood' & Hentries')
          end.
          { exact Hs. }
          { cbn [m_children]. intros k c Hin.
            apply dict_set_elem in Hin as [Heq|Hin]; [|auto].
            inversion Heq; subst. exact Hsub. }
          exists node'. cbn [m_samples m_counts m_accs m_score] in *.
          repeat (split; [assumption|]).
          intros k Hk Hkp Hocck. apply Hentries'; [|assumption|assumption].
          cbn [m_children].
          destruct (decide (k = child)) as [->|Hne].
          * right. exists sub. apply dict_set_elem_new.
          * destruct Hk as [Hin|(c & Hentry)].
            -- apply elem_of_cons in Hin as [->|Hin]; [contradiction|].
               left. exact Hin.
            -- right. exists c. apply dict_set_elem_other; assumption. }
    destruct (Hloop kids node0) as
      (node' & Hrun & Hs' & Hc' & Ha' & Hsc' & Hgood' & Hentries').
    { reflexivity. }
    { intros k c Hin. inversion Hin. }
    fold path'. fold f. rewrite Hrun. cbn [obind].
    eexists. split; [reflexivity|]. right.
    split; [exact Hnotin|]. split; [exact Hocc|].
    exists node'. split; [rewrite Hsamples; reflexivity|].
    apply Hnode; try assumption.
    intros k q Hchain Hk Hocck. apply Hentries'; [|assumption|assumption].
    left. inversion Hchain as [|? kids' ? ? Hkids' Hkin _]; subst.
    rewrite Hkids in Hkids'. inversion Hkids'; subst. exact Hkin.
  - (* the taxid has no children *)
    cbn [obind]. eexists. split; [reflexivity|]. right.
    split; [exact Hnotin|]. split; [exact Hocc|].
    exists node0. split; [rewrite Hsamples; reflexivity|].
    apply Hnode; try reflexivity.
    + intros k c Hin. inversion Hin.
    + intros k q Hchain _ _. inversion Hchain as [|? kids' ? ? Hkids' _ _]; subst.
      rewrite Hkids in Hkids'. discriminate.
Qed.

Lemma per_sample_lookup {V : Type} (samples : list Sample) (f : Sample -> V) s :
  s ∈ samples -> per_sample samples f !! s = Some (f s).
Proof.
  unfold per_sample. induction samples as [|s0 samples IH]; intros Hin;
    [inversion Hin|].
  cbn [fmap list_fmap list_to_map foldr uncurry].
  destruct (decide (s0 = s)) as [->|Hne].
  - apply lookup_insert_eq.
  - rewrite lookup_insert_ne by exact Hne.
    apply elem_of_cons in Hin as [Heq|Hin]; [congruence|auto].
Qed.

Lemma per_sample_default {V : Type} (samples : list Sample) (f : Sample -> V)
    (v : V) :
  default_per_sample samples v (Some (per_sample samples f)) = per_sample samples f.
Proof.
  unfold default_per_sample.
  destruct (decide (per_sample samples f = ∅)) as [Hempty|_]; [|reflexivity].
  destruct samples as [|s samples]; [reflexivity|].
  pose proof (per_sample_lookup (s :: samples) f s) as Hlook.
  rewrite Hempty, lookup_empty in Hlook. discriminate Hlook. left.
Qed.

Lemma table_value_per_sample {V : Type} (samples : list Sample)
    (f : Sample -> gmap TaxId V) dflt x s :
  s ∈ samples ->
  table_value (per_sample samples f) dflt x s = default dflt (f s !! x).
Proof.
  intros Hin. unfold table_value. rewrite per_sample_lookup by exact Hin.
  reflexivity.
Qed.

Lemma mnode_at_cons_inv (t : MultiTree) k q n :
  mnode_at t (k :: q) n ->
  exists child, (k, child) ∈ m_children t /\ mnode_at child q n.
Proof. intros Hn. inversion Hn; subst. eauto. Qed.

(** The multi-sample tree grown from the tables of shaped trees: it has
    a node for a taxid exactly when a sample has a nonzero accumulated
    count for it, and a sample without accumulated count for the taxid
    has 0 in its slots of [counts] and [accs]. *)
Lemma MultiTree_grow_shaped_tables taxonomy samples (tables : Sample -> sample_table)
    fuel :
  (size (tx_children taxonomy) < fuel)%nat ->
  (forall s, s ∈ samples -> shaped_table taxonomy (tables s)) ->
  exists t,
    MultiTree_grow fuel taxonomy
      (Some (per_sample samples (fun s => st_abundance (tables s))))
      (Some (per_sample samples (fun s => st_accs (tables s))))
      (Some (per_sample samples (fun s => st_scores (tables s))))
      ROOT [] (empty_MultiTree samples) = Return t
    /\ (forall x,
          (exists p n, mnode_at t (p ++ [x]) n)
          <-> exists s, s ∈ samples /\ default 0 (st_accs (tables s) !! x) ≠ 0)
    /\ (forall x p n i s,
          mnode_at t (p ++ [x]) n -> samples !! i = Some s ->
          default 0 (st_accs (tables s) !! x) = 0 ->
          m_counts n !! i = Some 0 /\ m_accs n !! i = Some 0).
Proof.
  intros Hfuel Hshaped.
  set (ab := per_sample samples (fun s => st_abundance (tables s))).
  set (ac := per_sample samples (fun s => st_accs (tables s))).
  set (sc := per_sample samples (fun s => st_scores (tables s))).
  assert (Hocc : forall x, occupied samples ac x
            <-> exists s, s ∈ samples /\ default 0 (st_accs (tables s) !! x) ≠ 0).
  { intros x. unfold occupied. split; intros (s & Hs & Hnz); exists s;
      (split; [exact Hs|]).
    - unfold ac in Hnz. rewrite table_value_per_sample in Hnz by exact Hs. exact Hnz.
    - unfold ac. rewrite table_value_per_sample by exact Hs. exact Hnz. }
  destruct (MultiTree_grow_spec taxonomy samples ab ac sc) with
    (fuel := fuel) (abundances := Some ab) (accs := Some ac) (scores := Some sc)
    (taxid := ROOT) (path := @nil TaxId) (self := empty_MultiTree samples)
    as (t & Hrun & Hcase).
  { intros s Hs. unfold ab, ac, sc. rewrite !per_sample_lookup by exact Hs. eauto. }
  { reflexivity. }
  { apply per_sample_default. }
  { apply per_sample_default. }
  { apply per_sample_default. }
  { constructor. }
  { intros x Hx. inversion Hx. }
  { simpl. lia. }
  exists t. split; [exact Hrun|].
  assert (Hnodes : forall x p n, mnode_at t (p ++ [x]) n ->
            occupied samples ac x
            /\ m_counts n = table_value ab 0 x <$> samples
            /\ m_accs n = table_value ac 0 x <$> samples).
  { intros x p n Hn.
    destruct (p ++ [x]) as [|k q] eqn:Hpath; [destruct p; discriminate|].
    assert (Hlast : List.last q k = x).
    { rewrite <- (last_cons_default k k q), <- Hpath. apply last_last. }
    apply mnode_at_cons_inv in Hn as (child & Hin & Hq).
    destruct Hcase as [[_ ->]|(_ & _ & node' & -> & Hsound & _)].
    - inversion Hin.
    - cbn in Hin. apply list_elem_of_singleton in Hin. inversion Hin; subst k child.
      destruct (Hsound q n Hq) as (Ho & _ & Hc & Ha & _).
      rewrite Hlast in Ho, Hc, Ha. auto. }
  split.
  - intros x. rewrite <- Hocc. split.
    + intros (p & n & Hn). apply (Hnodes x p n Hn).
    + intros Hx. pose proof Hx as Hx'. apply Hocc in Hx' as (s & Hs & Hnz).
      destruct (Hshaped s Hs) as [Hchains _].
      destruct (Hchains x Hnz) as (q & Hchain & Hnd & Hlast & Hall).
      assert (Hoccq : forall y, y ∈ ROOT :: q -> occupied samples ac y).
      { intros y Hy. apply Hocc. exists s. split; [exact Hs|auto]. }
      destruct Hcase as [[[Hin|Hno] _]|(_ & _ & node' & -> & _ & Hcomplete)].
      * inversion Hin.
      * exfalso. apply Hno, Hoccq. left.
      * destruct (Hcomplete q Hchain Hnd) as (n & Hn).
        { apply Forall_forall. intros y Hy. apply Hoccq. right. exact Hy. }
        exists (removelast (ROOT :: q)), n.
        assert (Hpath : removelast (ROOT :: q) ++ [x] = ROOT :: q).
        { rewrite <- Hlast, <- (last_cons_default ROOT ROOT q).
          symmetry. apply app_removelast_last. discriminate. }
        rewrite Hpath. econstructor; [|exact Hn].
        cbn. left.
  - intros x p n i s Hn Hi Hzero.
    destruct (Hnodes x p n Hn) as (_ & -> & ->).
    assert (Hs : s ∈ samples) by (eapply list_elem_of_lookup_2; exact Hi).
    rewrite !list_lookup_fmap, Hi. cbn.
    unfold ab, ac. rewrite !table_value_per_sample by exact Hs.
    destruct (Hshaped s Hs) as [_ Hcounts].
    rewrite Hzero, (Hcounts x Hzero). auto.
Qed.

(** C6. Let every sample have its tree grown over the taxonomy and
    shaped, and its tables read off that tree.  The multi-sample tree
    that [MultiTree.grow] builds from these tables has a node for a
    taxid if and only if some sample has a nonzero accumulated count for
    it; and at such a node, a sample whose accumulated count for the
    taxid is zero has 0 in its slot of [counts] (and of [accs]): the node
    is there all the same. *)
Theorem multi_grow_union taxonomy (samples : list Sample)
    (abundances : Sample -> option (gmap TaxId Z))
    (scores : Sample -> option (gmap TaxId Score)) fuel :
  (size (tx_children taxonomy) < fuel)%nat ->
  exists (tables : Sample -> sample_table) t,
    (forall s, sample_tables fuel taxonomy (abundances s) (scores s)
               = Return (tables s))
    /\ MultiTree_grow fuel taxonomy
         (Some (per_sample samples (fun s => st_abundance (tables s))))
         (Some (per_sample samples (fun s => st_accs (tables s))))
         (Some (per_sample samples (fun s => st_scores (tables s))))
         ROOT [] (empty_MultiTree samples) = Return t
    /\ (forall x,
          (exists p n, mnode_at t (p ++ [x]) n)
          <-> exists s, s ∈ samples /\ default 0 (st_accs (tables s) !! x) ≠ 0)
    /\ (forall x p n i s,
          mnode_at t (p ++ [x]) n -> samples !! i = Some s ->
          default 0 (st_accs (tables s) !! x) = 0 ->
          m_counts n !! i = Some 0 /\ m_accs n !! i = Some 0).
Proof.
  intros Hfuel.
  set (tables := fun s =>
         match sample_tables fuel taxonomy (abundances s) (scores s) with
         | Return tb => tb
         | _ => SampleTable ∅ ∅ ∅
         end).
  assert (Htables : forall s,
            sample_tables fuel taxonomy (abundances s) (scores s) = Return (tables s)
            /\ shaped_table taxonomy (tables s)).
  { intros s. unfold tables.
    destruct (sample_tables_shaped fuel taxonomy (abundances s) (scores s) Hfuel)
      as (tb & -> & Hshaped). auto. }
  destruct (MultiTree_grow_shaped_tables taxonomy samples tables fuel Hfuel)
    as (t & Hrun & Hiff & Hslots).
  { intros s _. apply Htables. }
  exists tables, t. split; [intros s; apply Htables|]. auto.
Qed.

(** ** get_taxa, in general *)

Lemma preorder_located_unfold (t : TaxTree) :
  preorder_located t
  = flat_map (fun kc => ([], kc.1, kc.2) :: (loc_push kc.1 <$> preorder_located kc.2))
      (children t).
Proof. destruct t; reflexivity. Qed.

Lemma taxa_selected_push mindepth maxdepth include exclude just_level b tid e :
  maxdepth ≠ 1 ->
  taxa_selected mindepth maxdepth include exclude just_level b (loc_push tid e)
  = taxa_selected (mindepth - 1) (maxdepth - 1) include exclude just_level
      (in_branch_of b include exclude tid) e.
Proof.
  intros Hmax. unfold taxa_selected, loc_push, loc_depth, loc_above, loc_key, loc_node.
  cbn [fst snd length app]. unfold branch_along. cbn [fold_left].
  f_equal. f_equal. f_equal.
  - apply eq_true_iff_eq. rewrite !Z.leb_le. lia.
  - apply eq_true_iff_eq. rewrite !orb_true_iff, !Z.leb_le, !Z.ltb_lt. lia.
Qed.

Lemma filter_all_false {A : Type} (f : A -> bool) (l : list A) :
  (forall x, f x = false) -> List.filter f l = [].
Proof.
  intros Hf. induction l as [|x l IH]; [reflexivity|].
  cbn. rewrite Hf. exact IH.
Qed.

Lemma filter_fmap_push {A B : Type} (f : B -> bool) (g : A -> B) (l : list A) :
  List.filter f (g <$> l) = g <$> List.filter (fun x => f (g x)) l.
Proof.
  induction l as [|x l IH]; [reflexivity|].
  cbn. destruct (f (g x)); cbn; rewrite IH; reflexivity.
Qed.

(** [get_taxa] reports the selected entries, in pre-order. *)
Lemma get_taxa_selected (t : TaxTree) :
  forall out mindepth maxdepth include exclude just_level b,
    get_taxa t out mindepth maxdepth include exclude just_level b
    = record_all
        (loc_entry <$> List.filter
           (taxa_selected mindepth maxdepth include exclude just_level b)
           (preorder_located t))
        out.
Proof.
  induction t as [c r s a kids IH] using TaxTree_induction.
  intros out mindepth maxdepth include exclude just_level b.
  rewrite get_taxa_unfold, preorder_located_unfold. cbn [children].
  destruct (Z.eqb_spec maxdepth 1) as [Heq|Hmax].
  { rewrite filter_all_false; [reflexivity|].
    intros e. unfold taxa_selected, loc_depth. subst maxdepth.
    replace (1 <=? 0) with false by reflexivity.
    replace (Z.of_nat (S (length (loc_above e))) <? 1) with false
      by (symmetry; apply Z.ltb_ge; lia).
    cbn. rewrite andb_false_r. reflexivity. }
  revert out. induction IH as [|[tid child] l Hchild _ IHl]; intros out.
  - reflexivity.
  - cbn [get_taxa_loop flat_map fst snd]. cbn [snd] in Hchild.
    rewrite IHl.
    rewrite List.filter_app, fmap_app, record_all_app.
    f_equal. cbn [List.filter].
    rewrite filter_fmap_push.
    rewrite (List.filter_ext _ _
               (fun e => taxa_selected_push mindepth maxdepth include exclude
                           just_level b tid e Hmax)).
    assert (Hhead : taxa_selected mindepth maxdepth include exclude just_level b
                      ([], tid, child)
                    = (mindepth - 1 <=? 0) && in_branch_of b include exclude tid
                      && match just_level with
                         | None => true
                         | Some level => rank_is (taxlevel child) level
                         end).
    { unfold taxa_selected, loc_depth, loc_above, loc_key, loc_node, branch_along.
      cbn [fst snd length app fold_left]. f_equal. f_equal.
      replace ((maxdepth <=? 0) || (Z.of_nat 1 <? maxdepth)) with true.
      - rewrite andb_true_r. apply eq_true_iff_eq. rewrite !Z.leb_le. lia.
      - symmetry. apply orb_true_iff. rewrite Z.leb_le, Z.ltb_lt. lia. }
    rewrite Hhead.
    set (sel' := taxa_selected (mindepth - 1) (maxdepth - 1) include exclude
                   just_level (in_branch_of b include exclude tid)).
    assert (Hsub : forall out1,
              match children child with
              | [] => out1
              | _ :: _ =>
                  get_taxa child out1 (mindepth - 1) (maxdepth - 1) include
                    exclude just_level (in_branch_of b include exclude tid)
              end
              = record_all (loc_entry <$> List.filter sel' (preorder_located child))
                  out1).
    { intros out1. destruct (children child) eqn:Hkids.
      - rewrite (preorder_located_unfold child), Hkids. reflexivity.
      - apply Hchild. }
    rewrite Hsub.
    destruct (_ && _ && _).
    + rewrite fmap_cons, <- list_fmap_compose. reflexivity.
    + rewrite <- list_fmap_compose. reflexivity.
Qed.

Lemma preorder_located_entries (t : TaxTree) :
  loc_entry <$> preorder_located t = preorder t.
Proof.
  induction t as [c r s a kids IH] using TaxTree_induction.
  rewrite preorder_located_unfold, preorder_unfold. cbn [children].
  induction IH as [|[tid child] l Hchild _ IHl]; [reflexivity|].
  cbn [flat_map fst snd]. cbn [snd] in Hchild.
  rewrite fmap_app, fmap_cons, IHl, <- list_fmap_compose.
  change (loc_entry ∘ loc_push tid) with loc_entry.
  rewrite Hchild. reflexivity.
Qed.

Lemma filter_entries (f : TaxId * TaxTree -> bool) (t : TaxTree) :
  loc_entry <$> List.filter (fun e => f (loc_entry e)) (preorder_located t)
  = List.filter f (preorder t).
Proof.
  rewrite <- preorder_located_entries, filter_fmap_push. reflexivity.
Qed.

(** With nothing to include, the flag is that of the last key alone. *)
Lemma branch_along_no_include exclude b path k :
  branch_along ∅ exclude b (path ++ [k]) = negb (bool_decide (k ∈ exclude)).
Proof.
  unfold branch_along. rewrite fold_left_app. cbn [fold_left].
  unfold in_branch_of. rewrite (bool_decide_eq_true_2 (∅ = ∅)) by reflexivity.
  rewrite orb_true_r. reflexivity.
Qed.

(** With something to include, the flag holds when it held at the start
    and no key is excluded, or when the path is under [include]. *)
Lemma branch_along_include include exclude path :
  include ≠ ∅ ->
  forall b,
    branch_along include exclude b path
    = (b && forallb (fun x => negb (bool_decide (x ∈ exclude))) path)
      || under_include include exclude path.
Proof.
  intros Hne. induction path as [|k rest IH]; intros b.
  - cbn. rewrite andb_true_r, orb_false_r. reflexivity.
  - unfold branch_along in *. cbn [fold_left under_include forallb].
    rewrite IH. unfold in_branch_of.
    rewrite (bool_decide_eq_false_2 (include = ∅)) by exact Hne.
    destruct b, (bool_decide (k ∈ include)), (bool_decide (k ∈ exclude)),
      (forallb _ rest), (under_include include exclude rest); reflexivity.
Qed.

(** A selected entry has a key that is not excluded. *)
Lemma taxa_selected_not_excluded mindepth maxdepth include exclude just_level b e :
  taxa_selected mindepth maxdepth include exclude just_level b e = true ->
  loc_key e ∉ exclude.
Proof.
  unfold taxa_selected. rewrite !andb_true_iff. intros [[[_ _] Hbranch] _].
  unfold branch_along in Hbranch. rewrite fold_left_app in Hbranch.
  cbn [fold_left] in Hbranch. unfold in_branch_of in Hbranch.
  apply andb_true_iff in Hbranch as [_ Hexcl].
  apply negb_true_iff, bool_decide_eq_false in Hexcl. exact Hexcl.
Qed.

Lemma record_taxon_other tid k node out :
  k ≠ tid -> taxa_at tid (record_taxon k node out) = taxa_at tid out.
Proof.
  intros Hne. unfold taxa_at, record_taxon. cbn [out_abundance out_accs out_scores out_ranks].
  destruct out as [ab ac sc rk]. cbn.
  assert (Hopt : forall (V : Type) (v : V) (m : option (gmap TaxId V)),
            (.!! tid) <$> (insert k v <$> m) = (.!! tid) <$> m).
  { intros V v [m|]; cbn; [|reflexivity]. rewrite lookup_insert_ne by exact Hne.
    reflexivity. }
  rewrite !Hopt. destruct (score_ne (score node) NO_SCORE); rewrite ?Hopt; reflexivity.
Qed.

Lemma record_all_other tid l out :
  Forall (fun kc => kc.1 ≠ tid) l -> taxa_at tid (record_all l out) = taxa_at tid out.
Proof.
  intros Hall. revert out. induction Hall as [|kc l Hkc _ IH]; intros out;
    [reflexivity|].
  cbn [record_all fold_left]. fold (record_all l (record_taxon kc.1 kc.2 out)).
  rewrite IH. apply record_taxon_other. exact Hkc.
Qed.

(** X1. With nothing to include or exclude and no level asked for,
    [get_taxa] reports, in pre-order, exactly the entries whose depth
    (1 for the entries of the node it is called on) is at least
    [mindepth] and, when [maxdepth] is positive, below [maxdepth]. *)
Theorem get_taxa_depth_window (t : TaxTree) out mindepth maxdepth b :
  get_taxa t out mindepth maxdepth ∅ ∅ None b
  = record_all
      (loc_entry <$> List.filter
         (fun e => (mindepth <=? loc_depth e)
                   && ((maxdepth <=? 0) || (loc_depth e <? maxdepth)))
         (preorder_located t))
      out.
Proof.
  rewrite get_taxa_selected. f_equal. f_equal.
  apply List.filter_ext. intros e. unfold taxa_selected.
  rewrite branch_along_no_include.
  rewrite (bool_decide_eq_false_2 (loc_key e ∈ ∅)) by set_solver.
  cbn [negb]. rewrite !andb_true_r. reflexivity.
Qed.

(** X2. Exclusion always wins: whatever the other arguments are,
    [get_taxa] leaves the four dictionaries as they were for a taxid
    that is in [exclude]. *)
Theorem get_taxa_never_excluded (t : TaxTree) out mindepth maxdepth include exclude
    just_level b tid :
  tid ∈ exclude ->
  taxa_at tid (get_taxa t out mindepth maxdepth include exclude just_level b)
  = taxa_at tid out.
Proof.
  intros Hexcl. rewrite get_taxa_selected. apply record_all_other.
  apply Forall_fmap, Forall_forall. intros e He.
  apply list_elem_of_In, List.filter_In in He as [_ Hsel].
  apply taxa_selected_not_excluded in Hsel.
  cbn. intros Heq. apply Hsel. unfold loc_key in *. cbn in Heq. congruence.
Qed.

(** X3. When [include] is empty, [exclude] removes the listed taxids
    only: without depth bounds and level, [get_taxa] reports every entry
    whose own key is not excluded, the entries below an excluded one
    among them. *)
Theorem get_taxa_exclude_is_per_node (t : TaxTree) out mindepth maxdepth exclude b :
  mindepth <= 1 -> maxdepth <= 0 ->
  get_taxa t out mindepth maxdepth ∅ exclude None b
  = record_all
      (List.filter (fun kc => negb (bool_decide (kc.1 ∈ exclude))) (preorder t))
      out.
Proof.
  intros Hmin Hmax. rewrite get_taxa_selected.
  rewrite <- (filter_entries (fun kc => negb (bool_decide (kc.1 ∈ exclude)))).
  f_equal. f_equal. apply List.filter_ext. intros e. unfold taxa_selected.
  rewrite branch_along_no_include.
  replace (mindepth <=? loc_depth e) with true
    by (symmetry; apply Z.leb_le; unfold loc_depth; lia).
  replace (maxdepth <=? 0) with true by (symmetry; apply Z.leb_le; lia).
  cbn. rewrite andb_true_r. reflexivity.
Qed.

(** X4. When [include] is not empty, [get_taxa] called outside a branch
    and without depth bounds and level reports exactly the entries under
    [include]: those with an included key at or above them on the way
    from the node, no key from that one on being excluded.  So an
    excluded entry below an included one is cut off with everything
    below it, unless a key further down is included again. *)
Theorem get_taxa_include_branches (t : TaxTree) out mindepth maxdepth include exclude :
  include ≠ ∅ -> mindepth <= 1 -> maxdepth <= 0 ->
  get_taxa t out mindepth maxdepth include exclude None false
  = record_all
      (loc_entry <$> List.filter
         (fun e => under_include include exclude (loc_above e ++ [loc_key e]))
         (preorder_located t))
      out.
Proof.
  intros Hne Hmin Hmax. rewrite get_taxa_selected.
  f_equal. f_equal. apply List.filter_ext. intros e. unfold taxa_selected.
  rewrite (branch_along_include include exclude _ Hne).
  replace (mindepth <=? loc_depth e) with true
    by (symmetry; apply Z.leb_le; unfold loc_depth; lia).
  replace (maxdepth <=? 0) with true by (symmetry; apply Z.leb_le; lia).
  cbn. rewrite andb_true_r. reflexivity.
Qed.

(** ** shape, further *)

Lemma nonneg_total_counts (t : TaxTree) :
  nonneg_counts t = true -> 0 <= total_counts t.
Proof.
  induction t as [c r s a kids IH] using TaxTree_induction. intros Hnn.
  apply nonneg_counts_unfold in Hnn as [Hc Hkids]. cbn [counts children] in Hc, Hkids.
  rewrite total_counts_node.
  assert (0 <= Zsum_with (fun kc : TaxId * TaxTree => total_counts kc.2) kids); [|lia].
  induction IH as [|kc l Hkc _ IHl]; [cbn; lia|].
  cbn [forallb] in Hkids. apply andb_true_iff in Hkids as [Hk Hl].
  cbn [Zsum_with foldr]. fold (Zsum_with (fun kc : TaxId * TaxTree => total_counts kc.2) l).
  specialize (Hkc Hk). specialize (IHl Hl). lia.
Qed.

(** In a tree without negative counts the nodes reached through
    subtrees with reads are the nodes with reads in their own subtree:
    the subtrees above them hold at least as many. *)
Lemma live_at_nonneg (t : TaxTree) p n :
  nonneg_counts t = true -> node_at t p n -> total_counts n ≠ 0 -> live_at t p n.
Proof.
  intros Hnn Hn Htot.
  assert (Hgen : nonneg_counts n = true /\ total_counts n <= total_counts t
                 /\ live_at t p n); [|apply Hgen].
  revert Hnn. induction Hn as [t|t tid child q n Hin Hq IH]; intros Hnn.
  - split; [exact Hnn|]. split; [lia|constructor].
  - apply nonneg_counts_unfold in Hnn as [Hc Hkids].
    assert (Hnnc : nonneg_counts child = true).
    { rewrite forallb_forall in Hkids.
      apply (Hkids (tid, child)). apply list_elem_of_In. exact Hin. }
    destruct (IH Htot Hnnc) as (Hnnn & Hle & Hlive).
    pose proof (nonneg_total_counts n Hnnn) as Hpos.
    assert (Hsum : total_counts child
                   <= Zsum_with (fun kc : TaxId * TaxTree => total_counts kc.2)
                        (children t)).
    { clear - Hin Hkids. induction (children t) as [|kc l IHl]; [inversion Hin|].
      cbn [forallb] in Hkids. apply andb_true_iff in Hkids as [Hk Hl].
      cbn [Zsum_with foldr].
      fold (Zsum_with (fun kc : TaxId * TaxTree => total_counts kc.2) l).
      assert (0 <= Zsum_with (fun kc : TaxId * TaxTree => total_counts kc.2) l).
      { clear - Hl. induction l as [|kc' l IHl]; [cbn; lia|].
        cbn [forallb] in Hl. apply andb_true_iff in Hl as [Hk Hl].
        cbn [Zsum_with foldr].
        fold (Zsum_with (fun kc : TaxId * TaxTree => total_counts kc.2) l).
        pose proof (nonneg_total_counts _ Hk). specialize (IHl Hl). lia. }
      pose proof (nonneg_total_counts _ Hk).
      apply elem_of_cons in Hin as [<-|Hin]; [cbn; lia|].
      specialize (IHl Hin Hl). lia. }
    split; [exact Hnnn|]. split.
    + rewrite (total_counts_unfold t). lia.
    + econstructor; [exact Hin|lia|exact Hlive].
Qed.

(** The loop of [shape] on entries without negative counts: the running
    [acc] grows by the counts of all the entries, the dropped ones
    having none, and an entry with counts stays. *)
Lemma shape_loop_keeps_reads (R : TaxTree -> TaxTree -> Prop) l :
  Forall (fun kc => nonneg_counts kc.2 = true ->
            exists c', shape kc.2 = Return c'
                       /\ acc c' = total_counts kc.2 /\ R kc.2 c') l ->
  forallb (fun kc => nonneg_counts kc.2) l = true ->
  forall a, exists kids',
    shape_loop shape l a
    = Return (a + Zsum_with (fun kc => total_counts kc.2) l, kids')
    /\ forall k c, (k, c) ∈ l -> total_counts c ≠ 0 ->
         exists c', (k, c') ∈ kids' /\ R c c'.
Proof.
  induction 1 as [|[tid child] l Hchild _ IH]; intros Hnn a.
  - exists []. cbn. rewrite Z.add_0_r. split; [reflexivity|].
    intros k c Hin. inversion Hin.
  - cbn [forallb snd] in Hnn, Hchild. apply andb_true_iff in Hnn as [Hnc Hnl].
    destruct (Hchild Hnc) as (c' & Hrun & Hacc & HR).
    cbn [shape_loop Zsum_with foldr snd].
    fold (Zsum_with (fun kc : TaxId * TaxTree => total_counts kc.2) l).
    rewrite Hrun. cbn [obind].
    destruct (Z.eqb_spec (acc c') 0) as [Hz|Hnz].
    + destruct (IH Hnl a) as (kids' & Hloop & Hkeep).
      exists kids'. rewrite Hloop. split; [f_equal; f_equal; lia|].
      intros k c Hin Htot. apply elem_of_cons in Hin as [Heq|Hin]; [|auto].
      inversion Heq; subst. lia.
    + destruct (IH Hnl (a + acc c')) as (kids' & Hloop & Hkeep).
      exists ((tid, c') :: kids'). rewrite Hloop. cbn [obind].
      split; [f_equal; f_equal; lia|].
      intros k c Hin Htot. apply elem_of_cons in Hin as [Heq|Hin].
      * inversion Heq; subst. exists c'. split; [left|exact HR].
      * destruct (Hkeep k c Hin Htot) as (c0 & Hin0 & HR0).
        exists c0. split; [right; exact Hin0|exact HR0].
Qed.

(** X5. On a tree without negative counts, [shape] loses no read: the
    [acc] of the root is the sum of the counts of the whole tree as it
    was, and every node with reads in its subtree is still there, with
    its counts and with that sum for [acc]. *)
Theorem shape_keeps_reads (t : TaxTree) :
  nonneg_counts t = true ->
  exists t',
    shape t = Return t'
    /\ acc t' = total_counts t
    /\ forall p n0, node_at t p n0 -> total_counts n0 ≠ 0 ->
         exists n, node_at t' p n /\ counts n = counts n0
                   /\ acc n = total_counts n0.
Proof.
  assert (Hgen : nonneg_counts t = true ->
            exists t', shape t = Return t' /\ acc t' = total_counts t
              /\ counts t' = counts t
              /\ forall p n0, node_at t p n0 -> total_counts n0 ≠ 0 ->
                   exists n, node_at t' p n /\ counts n = counts n0
                             /\ acc n = total_counts n0).
  { induction t as [c r s a kids IH] using TaxTree_induction. intros Hnn.
    apply nonneg_counts_unfold in Hnn as [Hc Hkids]. cbn [counts children] in Hc, Hkids.
    destruct (shape_loop_keeps_reads
                (fun c0 c' => counts c' = counts c0
                   /\ forall p n0, node_at c0 p n0 -> total_counts n0 ≠ 0 ->
                        exists n, node_at c' p n /\ counts n = counts n0
                                  /\ acc n = total_counts n0)
                kids) with (a := c) as (kids' & Hloop & Hkeep).
    { eapply Forall_impl; [exact IH|]. intros kc Hkc Hnn.
      destruct (Hkc Hnn) as (c' & Hrun & Hacc & Hcnt & Hnodes). eauto. }
    { exact Hkids. }
    rewrite shape_unfold. cbn [counts children taxlevel score]. rewrite Hloop.
    cbn [obind]. rewrite <- total_counts_node with (r := r) (s := s) (a := a).
    set (t0 := Node c r s a kids) in *.
    assert (Hnodes : forall s', forall p n0, node_at t0 p n0 -> total_counts n0 ≠ 0 ->
              exists n, node_at (Node c r s' (total_counts t0) kids') p n
                        /\ counts n = counts n0 /\ acc n = total_counts n0).
    { intros s' p n0 Hn0 Htot. inversion Hn0 as [|? tid child q ? Hin Hq]; subst.
      - eexists. split; [constructor|]. split; reflexivity.
      - cbn [children t0] in Hin.
        assert (Hchild : total_counts child ≠ 0).
        { intros Hz. apply Htot.
          assert (Hnnc : nonneg_counts child = true).
          { rewrite forallb_forall in Hkids.
            apply (Hkids (tid, child)). apply list_elem_of_In. exact Hin. }
          clear - Hq Hz Hnnc.
          induction Hq as [t|t k c' q n Hin _ IHq]; [exact Hz|].
          apply nonneg_counts_unfold in Hnnc as [Hc Hkids].
          assert (Hnnc' : nonneg_counts c' = true).
          { rewrite forallb_forall in Hkids.
            apply (Hkids (k, c')). apply list_elem_of_In. exact Hin. }
          apply IHq; [|exact Hnnc'].
          pose proof (nonneg_total_counts c' Hnnc') as Hpos.
          rewrite total_counts_unfold in Hz.
          assert (Hle : total_counts c'
                        <= Zsum_with (fun kc : TaxId * TaxTree => total_counts kc.2)
                             (children t)).
          { clear - Hin Hkids. induction (children t) as [|kc l IHl];
              [inversion Hin|].
            cbn [forallb] in Hkids. apply andb_true_iff in Hkids as [Hk Hl].
            cbn [Zsum_with foldr].
            fold (Zsum_with (fun kc : TaxId * TaxTree => total_counts kc.2) l).
            assert (0 <= Zsum_with (fun kc : TaxId * TaxTree => total_counts kc.2) l).
            { clear - Hl. induction l as [|kc' l IHl]; [cbn; lia|].
              cbn [forallb] in Hl. apply andb_true_iff in Hl as [Hk Hl].
              cbn [Zsum_with foldr].
              fold (Zsum_with (fun kc : TaxId * TaxTree => total_counts kc.2) l).
              pose proof (nonneg_total_counts _ Hk). specialize (IHl Hl). lia. }
            pose proof (nonneg_total_counts _ Hk).
            apply elem_of_cons in Hin as [<-|Hin]; [cbn; lia|].
            specialize (IHl Hin Hl). lia. }
          lia. }
        destruct (Hkeep tid child Hin Hchild) as (c' & Hin' & _ & Hsub).
        destruct (Hsub q n0 Hq Htot) as (n & Hn & Hcn & Han).
        exists n. split; [econstructor; eassumption|]. auto. }
    destruct (Z.eqb_spec c 0) as [Hc0|Hc0]; [|eexists; repeat split; eauto].
    destruct (Z.eqb_spec (total_counts t0) 0) as [Hz|Hnz];
      [eexists; repeat split; eauto|].
    rewrite shape_score_nonzero by exact Hnz. cbn [obind].
    eexists; repeat split; eauto. }
  intros Hnn. destruct (Hgen Hnn) as (t' & Hrun & Hacc & _ & Hnodes). eauto.
Qed.

(** X6. [shape] leaves no empty node and invents none: every node of
    the shaped tree below the top one has a nonzero [acc], and it is at
    a place where the tree had a node with the same counts and rank. *)
Theorem shape_leaves_no_empty_node (t : TaxTree) :
  exists t',
    shape t = Return t'
    /\ forall p n, node_at t' p n ->
         (p ≠ [] -> acc n ≠ 0)
         /\ exists n0, node_at t p n0 /\ counts n = counts n0
                        /\ taxlevel n = taxlevel n0.
Proof.
  induction t as [c r s a kids IH] using TaxTree_induction.
  destruct (shape_node_spec
              (fun c0 c' => forall p n, node_at c' p n ->
                 (p ≠ [] -> acc n ≠ 0)
                 /\ exists n0, node_at c0 p n0 /\ counts n = counts n0
                                /\ taxlevel n = taxlevel n0)
              (Node c r s a kids)) as (kids' & Hs & Hall).
  { exact IH. }
  eexists. split; [exact Hs|].
  intros p n Hn. inversion Hn as [|? tid child q ? Hin Hq]; subst.
  - split; [congruence|]. eexists. split; [constructor|]. split; reflexivity.
  - cbn [children] in Hin. rewrite Forall_forall in Hall.
    destruct (Hall _ Hin) as (Hnz & c0 & Hin0 & HQ). cbn [fst snd] in *.
    destruct (HQ q n Hq) as [Hacc (n0 & Hn0 & Hcn & Hrn)]. split.
    + intros _. destruct q as [|k q].
      * inversion Hq; subst. exact Hnz.
      * apply Hacc. discriminate.
    + exists n0. split; [econstructor; eassumption|]. auto.
Qed.

(** ** prune, further *)

Lemma pruned_unfold min_taxa min_rank (t : TaxTree) :
  pruned min_taxa min_rank t
  = forallb (fun kc =>
               match children kc.2 with
               | [] => negb (prune_test min_taxa min_rank (taxlevel t) kc.2)
               | _ :: _ => pruned min_taxa min_rank kc.2
               end) (children t).
Proof. destruct t; reflexivity. Qed.

(** [prune] leaves a pruned tree as it is. *)
Lemma prune_of_pruned min_taxa min_rank collapse (t : TaxTree) :
  pruned min_taxa min_rank t = true ->
  prune min_taxa min_rank collapse t = Return (has_entries t, t).
Proof.
  induction t as [c r s a kids IH] using TaxTree_induction. intros Hpr.
  rewrite pruned_unfold in Hpr. cbn [children taxlevel] in Hpr.
  rewrite prune_unfold. cbn [children counts score acc taxlevel].
  assert (Hloop : forall st,
            prune_loop (prune min_taxa min_rank collapse) min_taxa min_rank collapse
              r kids st = Return (st, kids)).
  { induction IH as [|[tid child] l Hchild _ IHl]; intros st; [reflexivity|].
    cbn [forallb snd] in Hpr, Hchild. apply andb_true_iff in Hpr as [Hk Hl].
    cbn [prune_loop]. destruct (children child) as [|kc kcs] eqn:Hkids.
    - cbn [obind]. apply negb_true_iff in Hk. rewrite Hk, (IHl Hl). reflexivity.
    - rewrite (Hchild Hk). unfold has_entries. rewrite Hkids. cbn [obind].
      rewrite (IHl Hl). reflexivity. }
  rewrite Hloop. reflexivity.
Qed.

(** What [prune] returns is pruned, and the flag tells whether it has
    entries. *)
Lemma prune_gives_pruned min_taxa min_rank collapse (t : TaxTree) :
  exists t',
    prune min_taxa min_rank collapse t = Return (has_entries t', t')
    /\ taxlevel t' = taxlevel t
    /\ pruned min_taxa min_rank t' = true.
Proof.
  induction t as [c r s a kids IH] using TaxTree_induction.
  rewrite prune_unfold. cbn [children counts score acc taxlevel].
  assert (Hloop : forall st, exists st' kids',
            prune_loop (prune min_taxa min_rank collapse) min_taxa min_rank collapse
              r kids st = Return (st', kids')
            /\ forallb (fun kc =>
                          match children kc.2 with
                          | [] => negb (prune_test min_taxa min_rank r kc.2)
                          | _ :: _ => pruned min_taxa min_rank kc.2
                          end) kids' = true).
  { induction IH as [|[tid child] l Hchild _ IHl]; intros st.
    - exists st, []. split; reflexivity.
    - cbn [snd] in Hchild. cbn [prune_loop].
      assert (Hsub : exists child',
                match children child with
                | [] => Return (false, child)
                | _ :: _ => prune min_taxa min_rank collapse child
                end = Return (has_entries child', child')
                /\ pruned min_taxa min_rank child' = true).
      { destruct (children child) eqn:Hkids.
        - exists child. unfold has_entries. rewrite Hkids. split; [reflexivity|].
          rewrite pruned_unfold, Hkids. reflexivity.
        - destruct Hchild as (child' & Hrun & _ & Hpr). eauto. }
      destruct Hsub as (child' & -> & Hpr). cbn [obind].
      unfold has_entries at 1.
      destruct (children child') as [|kc kcs] eqn:Hkids'.
      + destruct (prune_test min_taxa min_rank r child') eqn:Htest.
        * destruct (prune_leaf_returns collapse st child') as (st1 & ->).
          cbn [obind]. apply IHl.
        * destruct (IHl st) as (st' & kids' & -> & Hall).
          exists st', ((tid, child') :: kids'). cbn [obind]. split; [reflexivity|].
          cbn [forallb snd]. rewrite Hkids', Htest, Hall. reflexivity.
      + destruct (IHl st) as (st' & kids' & -> & Hall).
        exists st', ((tid, child') :: kids'). cbn [obind]. split; [reflexivity|].
        cbn [forallb snd]. rewrite Hkids', Hpr, Hall. reflexivity. }
  destruct (Hloop (PruneState c s a)) as (st' & kids' & -> & Hall).
  cbn [obind]. exists (Node (ps_counts st') r (ps_score st') (ps_acc st') kids').
  split; [reflexivity|].
  split; [reflexivity|]. rewrite pruned_unfold. exact Hall.
Qed.

(** X7. Pruning a pruned tree changes nothing: [prune] applied to its
    own result returns it again, with the same flag. *)
Theorem prune_idempotent min_taxa min_rank collapse (t : TaxTree) :
  exists b t',
    prune min_taxa min_rank collapse t = Return (b, t')
    /\ prune min_taxa min_rank collapse t' = Return (b, t').
Proof.
  destruct (prune_gives_pruned min_taxa min_rank collapse t) as (t' & Hrun & _ & Hpr).
  exists (has_entries t'), t'. split; [exact Hrun|].
  apply prune_of_pruned. exact Hpr.
Qed.

Lemma pruned_leaves min_taxa min_rank (t : TaxTree) :
  pruned min_taxa min_rank t = true ->
  forall p m k n, node_at t p m -> (k, n) ∈ children m -> children n = [] ->
    prune_test min_taxa min_rank (taxlevel m) n = false.
Proof.
  intros Hpr p m k n Hm. revert Hpr.
  induction Hm as [t|t tid child q m Hin _ IH]; intros Hpr Hkn Hleaf.
  - rewrite pruned_unfold, forallb_forall in Hpr.
    specialize (Hpr (k, n)). cbn [snd] in Hpr. rewrite Hleaf in Hpr.
    apply negb_true_iff, Hpr, list_elem_of_In. exact Hkn.
  - apply IH; [|exact Hkn|exact Hleaf].
    rewrite pruned_unfold, forallb_forall in Hpr.
    specialize (Hpr (tid, child)). cbn [snd] in Hpr.
    destruct (children child) eqn:Hkids.
    + rewrite pruned_unfold, Hkids. reflexivity.
    + apply Hpr, list_elem_of_In. exact Hin.
Qed.

(** X8. After [prune] every leaf below the top node has at least
    [min_taxa] counts, and more generally fails the test that prunes a
    leaf under its parent. *)
Theorem prune_leaves_pass min_taxa min_rank collapse (t : TaxTree) :
  exists b t',
    prune min_taxa min_rank collapse t = Return (b, t')
    /\ forall p m k n, node_at t' p m -> (k, n) ∈ children m -> children n = [] ->
         min_taxa <= counts n
         /\ prune_test min_taxa min_rank (taxlevel m) n = false.
Proof.
  destruct (prune_gives_pruned min_taxa min_rank collapse t) as (t' & Hrun & _ & Hpr).
  exists (has_entries t'), t'. split; [exact Hrun|].
  intros p m k n Hm Hkn Hleaf.
  pose proof (pruned_leaves min_taxa min_rank t' Hpr p m k n Hm Hkn Hleaf) as Htest.
  split; [|exact Htest].
  unfold prune_test in Htest. apply orb_false_iff in Htest as [Hcounts _].
  apply Z.ltb_ge in Hcounts. exact Hcounts.
Qed.

(** X9. Without [min_rank], [prune] returns unchanged a tree in which
    every entry, at any depth, has at least [min_taxa] counts. *)
Theorem prune_nothing_to_prune min_taxa collapse (t : TaxTree) :
  (forall p n, node_at t p n -> p ≠ [] -> min_taxa <= counts n) ->
  prune min_taxa None collapse t = Return (has_entries t, t).
Proof.
  intros Hall. apply prune_of_pruned.
  induction t as [c r s a kids IH] using TaxTree_induction.
  rewrite pruned_unfold. cbn [children taxlevel].
  apply forallb_forall. intros [tid child] Hin. apply list_elem_of_In in Hin.
  cbn [snd]. destruct (children child) eqn:Hkids.
  - unfold prune_test. rewrite orb_false_r. apply negb_true_iff, Z.ltb_ge.
    apply (Hall [tid] child); [|discriminate].
    econstructor; [exact Hin|constructor].
  - rewrite Forall_forall in IH. apply (IH _ Hin).
    intros q n Hn Hq. apply (Hall (tid :: q) n); [|discriminate].
    econstructor; [exact Hin|exact Hn].
Qed.

Lemma prune_changes_refl collapse c s a : prune_changes collapse c s a c s a.
Proof. unfold prune_changes. destruct collapse; repeat split; lia. Qed.

Lemma prune_changes_trans collapse c0 s0 a0 c1 s1 a1 c2 s2 a2 :
  prune_changes collapse c0 s0 a0 c1 s1 a1 ->
  prune_changes collapse c1 s1 a1 c2 s2 a2 ->
  prune_changes collapse c0 s0 a0 c2 s2 a2.
Proof.
  unfold prune_changes. destruct collapse.
  - intros [Hc Ha] [Hc' Ha']. split; [lia|congruence].
  - intros (Hc & Hs & Ha) (Hc' & Hs' & Ha'). repeat split; try congruence; lia.
Qed.

Lemma prune_leaf_changes collapse st child :
  0 <= ps_counts st -> 0 <= counts child ->
  exists st',
    prune_leaf collapse st child = Return st'
    /\ 0 <= ps_counts st'
    /\ prune_changes collapse (ps_counts st) (ps_score st) (ps_acc st)
         (ps_counts st') (ps_score st') (ps_acc st').
Proof.
  intros Hst Hchild. unfold prune_leaf, prune_changes, py_div. destruct collapse.
  - destruct (Z.eqb_spec (ps_counts st + counts child) 0).
    + exists st. repeat split; try reflexivity; lia.
    + eexists. split; [reflexivity|]. cbn. repeat split; lia.
  - destruct (Z.gtb_spec (ps_acc st) (counts child)).
    + eexists. split; [reflexivity|]. cbn. repeat split; lia.
    + eexists. split; [reflexivity|]. cbn. repeat split; lia.
Qed.

(** The nodes of a pruned tree: each is at a place where the tree had a
    node of the same rank, changed as [prune_changes] allows. *)
Lemma prune_nodes min_taxa min_rank collapse (t : TaxTree) :
  nonneg_counts t = true ->
  exists b t',
    prune min_taxa min_rank collapse t = Return (b, t')
    /\ nonneg_counts t' = true
    /\ forall p n', node_at t' p n' ->
         exists n0, node_at t p n0 /\ taxlevel n' = taxlevel n0
           /\ prune_changes collapse (counts n0) (score n0) (acc n0)
                (counts n') (score n') (acc n').
Proof.
  induction t as [c r s a kids IH] using TaxTree_induction. intros Hnn.
  apply nonneg_counts_unfold in Hnn as [Hc Hkids]. cbn [counts children] in Hc, Hkids.
  rewrite prune_unfold. cbn [children counts score acc taxlevel].
  set (Rel := fun c0 c' : TaxTree =>
         forall p n', node_at c' p n' ->
           exists n0, node_at c0 p n0 /\ taxlevel n' = taxlevel n0
             /\ prune_changes collapse (counts n0) (score n0) (acc n0)
                  (counts n') (score n') (acc n')).
  assert (Hrefl : forall c0, Rel c0 c0).
  { intros c0 p n' Hn. exists n'. split; [exact Hn|]. split; [reflexivity|].
    apply prune_changes_refl. }
  assert (Hloop : forall st, 0 <= ps_counts st ->
            exists st' kids',
              prune_loop (prune min_taxa min_rank collapse) min_taxa min_rank
                collapse r kids st = Return (st', kids')
              /\ 0 <= ps_counts st'
              /\ prune_changes collapse (ps_counts st) (ps_score st) (ps_acc st)
                   (ps_counts st') (ps_score st') (ps_acc st')
              /\ forallb (fun kc => nonneg_counts kc.2) kids' = true
              /\ forall k c', (k, c') ∈ kids' ->
                   exists c0, (k, c0) ∈ kids /\ Rel c0 c').
  { induction IH as [|[tid child] l Hchild _ IHl]; intros st Hst.
    - exists st, []. split; [reflexivity|]. split; [exact Hst|].
      split; [apply prune_changes_refl|]. split; [reflexivity|].
      intros k c' Hin. inversion Hin.
    - cbn [forallb snd] in Hkids, Hchild. apply andb_true_iff in Hkids as [Hnc Hnl].
      specialize (IHl Hnl). cbn [prune_loop].
      assert (Hsub : exists b' child',
                match children child with
                | [] => Return (false, child)
                | _ :: _ => prune min_taxa min_rank collapse child
                end = Return (b', child')
                /\ nonneg_counts child' = true /\ Rel child child').
      { destruct (children child) eqn:Hkids'.
        - exists false, child. auto.
        - destruct (Hchild Hnc) as (b' & child' & Hrun & Hnn' & Hrel). eauto. }
      destruct Hsub as (b' & child' & -> & Hnn' & Hrel). cbn [obind].
      assert (Hkeep : exists st' kids',
                (do '(st', rest') <~
                   prune_loop (prune min_taxa min_rank collapse) min_taxa min_rank
                     collapse r l st;
                 Return (st', (tid, child') :: rest')) = Return (st', kids')
                /\ 0 <= ps_counts st'
                /\ prune_changes collapse (ps_counts st) (ps_score st) (ps_acc st)
                     (ps_counts st') (ps_score st') (ps_acc st')
                /\ forallb (fun kc => nonneg_counts kc.2) kids' = true
                /\ forall k c', (k, c') ∈ kids' ->
                     exists c0, (k, c0) ∈ (tid, child) :: l /\ Rel c0 c').
      { destruct (IHl st Hst) as (st' & rest' & -> & Hpos & Hch & Hnnr & Hrest).
        exists st', ((tid, child') :: rest'). cbn [obind].
        split; [reflexivity|]. split; [exact Hpos|]. split; [exact Hch|].
        split; [cbn [forallb snd]; rewrite Hnn', Hnnr; reflexivity|].
        intros k c' Hin. apply elem_of_cons in Hin as [Heq|Hin].
        - inversion Heq; subst. exists child. split; [left|exact Hrel].
        - destruct (Hrest k c' Hin) as (c0 & Hin0 & Hrel0).
          exists c0. split; [right; exact Hin0|exact Hrel0]. }
      destruct b'; [exact Hkeep|].
      destruct (prune_test min_taxa min_rank r child'); [|exact Hkeep].
      apply nonneg_counts_unfold in Hnn' as [Hc' _].
      destruct (prune_leaf_changes collapse st child' Hst Hc')
        as (st1 & -> & Hst1 & Hch1). cbn [obind].
      destruct (IHl st1 Hst1) as (st' & kids' & -> & Hpos & Hch & Hnnr & Hrest).
      exists st', kids'. split; [reflexivity|]. split; [exact Hpos|].
      split; [eapply prune_changes_trans; eassumption|]. split; [exact Hnnr|].
      intros k c' Hin. destruct (Hrest k c' Hin) as (c0 & Hin0 & Hrel0).
      exists c0. split; [right; exact Hin0|exact Hrel0]. }
  destruct (Hloop (PruneState c s a) Hc) as (st' & kids' & -> & Hpos & Hch & Hnnr & Hrest).
  cbn [obind]. eexists _, _. split; [reflexivity|].
  split; [apply nonneg_counts_unfold; cbn [counts children]; auto|].
  intros p n' Hn. inversion Hn as [|? tid child' q ? Hin Hq]; subst.
  - eexists. split; [constructor|]. split; [reflexivity|]. exact Hch.
  - cbn [children] in Hin. destruct (Hrest tid child' Hin) as (c0 & Hin0 & Hrel0).
    destruct (Hrel0 q n' Hq) as (n0 & Hn0 & Hrk & Hchg).
    exists n0. split; [econstructor; eassumption|]. auto.
Qed.

(** X10. Without [collapse], [prune] only deletes: on a tree without
    negative counts, every node it keeps is at a place where the tree
    had a node with the same rank, counts and score, and its [acc], if
    it was not negative, has not grown and is not negative. *)
Theorem prune_without_collapse min_taxa min_rank (t : TaxTree) :
  nonneg_counts t = true ->
  exists b t',
    prune min_taxa min_rank false t = Return (b, t')
    /\ forall p n', node_at t' p n' ->
         exists n0, node_at t p n0
           /\ taxlevel n' = taxlevel n0 /\ counts n' = counts n0
           /\ score n' = score n0
           /\ (0 <= acc n0 -> 0 <= acc n' <= acc n0).
Proof.
  intros Hnn.
  destruct (prune_nodes min_taxa min_rank false t Hnn) as (b & t' & Hrun & _ & Hnodes).
  exists b, t'. split; [exact Hrun|].
  intros p n' Hn. destruct (Hnodes p n' Hn) as (n0 & Hn0 & Hrk & Hc & Hs & Ha).
  exists n0. auto.
Qed.

(** X11. With [collapse], [prune] moves counts upwards only: on a tree
    without negative counts, every node it keeps is at a place where
    the tree had a node with the same rank and [acc] and with no more
    counts than it has now. *)
Theorem prune_collapse_moves_up min_taxa min_rank (t : TaxTree) :
  nonneg_counts t = true ->
  exists b t',
    prune min_taxa min_rank true t = Return (b, t')
    /\ forall p n', node_at t' p n' ->
         exists n0, node_at t p n0
           /\ taxlevel n' = taxlevel n0 /\ counts n0 <= counts n'
           /\ acc n' = acc n0.
Proof.
  intros Hnn.
  destruct (prune_nodes min_taxa min_rank true t Hnn) as (b & t' & Hrun & _ & Hnodes).
  exists b, t'. split; [exact Hrun|].
  intros p n' Hn. destruct (Hnodes p n' Hn) as (n0 & Hn0 & Hrk & Hc & Ha).
  exists n0. auto.
Qed.

(** ** grow, further *)

(** The node that [grow] assigns to [self[taxid]] has a node at the end
    of every chain of the taxonomy that repeats no taxid. *)
Lemma grow_complete fuel :
  forall taxonomy abundances scores taxid path (self t' : TaxTree),
    NoDup path ->
    (forall x, x ∈ path -> is_Some (tx_children taxonomy !! x)) ->
    (size (tx_children taxonomy) < fuel + length path)%nat ->
    (taxid ∉ path) ->
    grow fuel taxonomy abundances scores taxid path self = Return t' ->
    exists node',
      t' = Node (counts self) (taxlevel self) (score self) (acc self)
                (dict_set taxid node' (children self))
      /\ forall q, tax_chain taxonomy taxid q -> NoDup (path ++ taxid :: q) ->
           exists n, node_at node' q n.
Proof.
  induction fuel as [|fuel IH]; intros taxonomy abundances scores taxid path self t'
    Hnd Hdom Hfuel Hnotin Hrun; [discriminate|].
  rewrite grow_unfold in Hrun.
  destruct (decide (taxid ∈ path)) as [Hin|_]; [contradiction|].
  set (path' := path ++ [taxid]) in *.
  assert (Hnd' : NoDup path').
  { apply NoDup_app. split; [exact Hnd|]. split; [|apply NoDup_singleton].
    intros x Hx Hx'. apply list_elem_of_singleton in Hx'. subst. contradiction. }
  destruct (tx_children taxonomy !! taxid) as [kids|] eqn:Hkids.
  - set (ab := default_abundances abundances) in *.
    set (sc := default_scores scores) in *.
    set (f := fun child node =>
                grow fuel taxonomy (Some ab) (Some sc) child path' node) in *.
    pose (Entry := fun (node : TaxTree) (k : TaxId) =>
      exists c, (k, c) ∈ children node
        /\ forall q, tax_chain taxonomy k q -> NoDup (path' ++ k :: q) ->
             exists n, node_at c q n).
    assert (Hloop : forall l node node',
              grow_loop f l node = Return node' ->
              forall k, k ∈ l \/ Entry node k -> (k ∉ path') -> Entry node' k).
    { induction l as [|child rest IHl]; intros node node' Hl k Hk Hkp.
      - cbn in Hl. inversion Hl; subst.
        destruct Hk as [Hin|Hentry]; [inversion Hin|exact Hentry].
      - cbn [grow_loop] in Hl.
        destruct (f child node) as [node1| |] eqn:Hf; try discriminate.
        cbn [obind] in Hl. apply (IHl node1 node' Hl k); [|exact Hkp].
        unfold f in Hf.
        destruct (decide (child ∈ path')) as [Hcin|Hcnotin].
        + apply grow_spec in Hf; [|exact Hnd'].
          destruct Hf as [[_ ->]|[Hno _]]; [|contradiction].
          destruct Hk as [Hin|Hentry]; [|right; exact Hentry].
          apply elem_of_cons in Hin as [->|Hin]; [contradiction|left; exact Hin].
        + apply IH in Hf; [|exact Hnd'| | |exact Hcnotin].
          * destruct Hf as (sub & -> & Hsub).
            destruct (decide (k = child)) as [->|Hne].
            -- right. exists sub. split; [apply dict_set_elem_new|exact Hsub].
            -- destruct Hk as [Hin|(c & Hin & Hc)].
               ++ apply elem_of_cons in Hin as [->|Hin]; [contradiction|left; exact Hin].
               ++ right. exists c. split; [|exact Hc].
                  cbn [children]. apply dict_set_elem_other; assumption.
          * intros x Hx. apply elem_of_app in Hx as [Hx|Hx]; [auto|].
            apply list_elem_of_singleton in Hx. subst. rewrite Hkids. eauto.
          * unfold path'. rewrite length_app. simpl. lia. }
    match type of Hrun with
    | context [grow_loop f kids ?n0] =>
        destruct (grow_loop f kids n0) as [node'| |] eqn:Hrun'; try discriminate;
        pose proof (Hloop kids n0 node' Hrun') as Hentries
    end.
    cbn [obind] in Hrun. exists node'. split; [congruence|].
    intros q Hchain Hndq. destruct q as [|k q'].
    + exists node'. constructor.
    + inversion Hchain as [|? kids' ? ? Hkids' Hkin Hchain']; subst.
      rewrite Hkids in Hkids'. inversion Hkids'; subst kids'.
      assert (Hndq' : NoDup (path' ++ k :: q')).
      { unfold path'. rewrite <- app_assoc. exact Hndq. }
      assert (Hk : k ∉ path').
      { apply NoDup_app in Hndq' as (_ & Hdisj & _).
        intros Hk. apply (Hdisj k Hk). left. }
      destruct (Hentries k (or_introl Hkin) Hk) as (c & Hin & Hc).
      destruct (Hc q' Hchain' Hndq') as (n & Hn).
      exists n. econstructor; eassumption.
  - cbn [obind] in Hrun. injection Hrun as <-. eexists. split; [reflexivity|].
    intros q Hchain _. destruct q as [|k q'].
    + eexists. constructor.
    + inversion Hchain as [|? kids' ? ? Hkids' _ _]; subst.
      rewrite Hkids in Hkids'. discriminate.
Qed.

(** X12. The tree that [grow] builds mirrors the taxonomy: below the
    entry of the starting taxid there is a node at the end of every
    chain of the taxonomy that repeats no taxid, and nowhere else; and
    each node has the counts and the score of its taxid (0 and
    [NO_SCORE] by default), its rank, and no accumulated count. *)
Theorem grow_mirrors_taxonomy taxonomy abundances scores taxid fuel :
  (size (tx_children taxonomy) < fuel)%nat ->
  exists t node,
    grow fuel taxonomy abundances scores taxid [] empty_TaxTree = Return t
    /\ children t = [(taxid, node)]
    /\ (forall q n, node_at node q n ->
          NoDup (taxid :: q) /\ tax_chain taxonomy taxid q
          /\ counts n = default 0 (default_abundances abundances !! List.last q taxid)
          /\ score n = default NO_SCORE (default_scores scores !! List.last q taxid)
          /\ taxlevel n = get_rank taxonomy (List.last q taxid)
          /\ acc n = 0)
    /\ (forall q, tax_chain taxonomy taxid q -> NoDup (taxid :: q) ->
          exists n, node_at node q n).
Proof.
  intros Hfuel.
  destruct (grow_returns fuel taxonomy abundances scores taxid [] empty_TaxTree)
    as (t & Hrun).
  { constructor. }
  { intros x Hx. inversion Hx. }
  { simpl. lia. }
  pose proof Hrun as Hspec. apply grow_spec in Hspec; [|constructor].
  destruct Hspec as [[Hin _]|(_ & node & Ht & Hgrown)]; [inversion Hin|].
  pose proof Hrun as Hcomp. apply grow_complete in Hcomp.
  2: { constructor. }
  2: { intros x Hx. inversion Hx. }
  2: { simpl. lia. }
  2: { intros Hin. inversion Hin. }
  destruct Hcomp as (node2 & Ht2 & Hcomplete).
  assert (node2 = node) as -> by (rewrite Ht in Ht2; cbn in Ht2; congruence).
  exists t, node. split; [exact Hrun|]. split; [rewrite Ht; reflexivity|].
  split; [exact Hgrown|exact Hcomplete].
Qed.

(** ** trace and get_lineage, further *)

Lemma trace_unfold (self : TaxTree) target nodes :
  trace self target nodes
  = trace_loop (fun child nodes1 => trace child target nodes1) target
      (children self) nodes.
Proof. destruct self; reflexivity. Qed.

(** What [trace] returns: on success the list it was given followed by
    the keys of a path of the tree that ends at the target, two keys at
    least; on failure the list it was given. *)
Lemma trace_result (self : TaxTree) target :
  forall nodes,
    (exists p n, p ≠ [] /\ node_at self (p ++ [target]) n /\ target ≠ ROOT
                 /\ trace self target nodes = (true, nodes ++ p ++ [target]))
    \/ trace self target nodes = (false, nodes).
Proof.
  induction self as [c r s a kids IH] using TaxTree_induction. intros nodes.
  rewrite trace_unfold. cbn [children].
  assert (Hloop : forall l, (forall kc, kc ∈ l -> kc ∈ kids) ->
            Forall (fun kc => forall nodes,
                      (exists p n, p ≠ [] /\ node_at kc.2 (p ++ [target]) n
                                   /\ target ≠ ROOT
                                   /\ trace kc.2 target nodes
                                      = (true, nodes ++ p ++ [target]))
                      \/ trace kc.2 target nodes = (false, nodes)) l ->
            forall nodes,
              (exists tid child p n, (tid, child) ∈ kids
                 /\ node_at child (p ++ [target]) n /\ target ≠ ROOT
                 /\ trace_loop (fun child nodes1 => trace child target nodes1)
                      target l nodes = (true, nodes ++ (tid :: p) ++ [target]))
              \/ trace_loop (fun child nodes1 => trace child target nodes1)
                    target l nodes = (false, nodes)).
  { induction l as [|[tid child] l IHl]; intros Hsub Hall nodes0; [right; reflexivity|].
    apply Forall_cons in Hall as [Hchild Hall]. cbn [snd] in Hchild.
    assert (Hrest : forall kc, kc ∈ l -> kc ∈ kids)
      by (intros kc Hkc; apply Hsub; right; exact Hkc).
    cbn [trace_loop]. destruct (children child) as [|kc0 kcs] eqn:Hkids.
    { apply IHl; assumption. }
    rewrite <- Hkids.
    destruct (dict_mem target (children child) && bool_decide (target ≠ ROOT))
      eqn:Hhit.
    - left. apply andb_true_iff in Hhit as [Hmem Hroot].
      apply bool_decide_eq_true in Hmem, Hroot.
      apply list_elem_of_fmap in Hmem as ([k n] & Hk & Hin). cbn in Hk. subst k.
      exists tid, child, [], n. split; [apply Hsub; left|].
      split; [econstructor; [exact Hin|constructor]|]. split; [exact Hroot|].
      cbn. rewrite <- app_assoc. reflexivity.
    - destruct (Hchild (nodes0 ++ [tid])) as [(p & n & Hp & Hn & Hroot & ->)| ->].
      + left. exists tid, child, p, n. split; [apply Hsub; left|].
        split; [exact Hn|]. split; [exact Hroot|].
        rewrite <- app_assoc. reflexivity.
      + rewrite removelast_last. apply IHl; assumption. }
  destruct (Hloop kids (fun kc Hkc => Hkc) IH nodes)
    as [(tid & child & p & n & Hin & Hn & Hroot & Hrun)|Hrun].
  - left. exists (tid :: p), n. split; [discriminate|].
    split; [econstructor; eassumption|]. split; [exact Hroot|exact Hrun].
  - right. exact Hrun.
Qed.

(** X13. [trace] reports a genuine path: on success the list holds,
    after what it held, the keys of a path of the tree from the node to
    the target, with at least one key before the target, and the target
    is not the root taxid; on failure the list is as it was given. *)
Theorem trace_sound (self : TaxTree) target nodes :
  (forall nodes', trace self target nodes = (true, nodes') ->
     target ≠ ROOT
     /\ exists p n, p ≠ [] /\ nodes' = nodes ++ p ++ [target]
                     /\ node_at self (p ++ [target]) n)
  /\ (forall nodes', trace self target nodes = (false, nodes') -> nodes' = nodes).
Proof.
  destruct (trace_result self target nodes)
    as [(p & n & Hp & Hn & Hroot & Hrun)|Hrun]; rewrite Hrun; split.
  - intros nodes' Heq. inversion Heq; subst. split; [exact Hroot|].
    exists p, n. auto.
  - intros nodes' Heq. discriminate.
  - intros nodes' Heq. discriminate.
  - intros nodes' Heq. congruence.
Qed.

(** [trace] succeeds when the target is below the entries of the node
    and is not the root taxid. *)
Lemma trace_finds_below (self : TaxTree) target :
  target ≠ ROOT -> below_entries self target ->
  forall nodes, (trace self target nodes).1 = true.
Proof.
  intros Hroot. induction self as [c r s a kids IH] using TaxTree_induction.
  intros (p & n & Hp & Hn) nodes.
  destruct p as [|tid p]; [contradiction|]. cbn in Hn.
  apply node_at_cons_inv in Hn as (child & Hin & Hn). cbn [children] in Hin.
  rewrite trace_unfold. cbn [children]. clear Hp.
  revert nodes. induction IH as [|[tid' child'] l Hchild _ IHl]; intros nodes;
    [inversion Hin|].
  cbn [snd] in Hchild. cbn [trace_loop].
  assert (Hhead : below_entries child' target \/
                  (exists n', (target, n') ∈ children child') ->
                  (match children child' with
                   | [] => trace_loop (fun child nodes1 => trace child target nodes1)
                             target l nodes
                   | _ :: _ =>
                       if dict_mem target (children child') && bool_decide (target ≠ ROOT)
                       then (true, (nodes ++ [tid']) ++ [target])
                       else
                         let '(found, nodes2) := trace child' target (nodes ++ [tid']) in
                         if found then (true, nodes2)
                         else trace_loop (fun child nodes1 => trace child target nodes1)
                                target l (removelast nodes2)
                   end).1 = true).
  { intros Hvia.
    assert (Hne : children child' ≠ []).
    { destruct Hvia as [(p' & n' & Hp' & Hn')|(n' & Hin')].
      - destruct p' as [|k p']; [contradiction|]. cbn in Hn'.
        apply node_at_cons_inv in Hn' as (c0 & Hin0 & _).
        intros Heq. rewrite Heq in Hin0. inversion Hin0.
      - intros Heq. rewrite Heq in Hin'. inversion Hin'. }
    destruct (children child') as [|kc0 kcs] eqn:Hkids; [contradiction|].
    rewrite <- Hkids in *.
    destruct (dict_mem target (children child') && bool_decide (target ≠ ROOT))
      eqn:Hhit; [reflexivity|].
    destruct Hvia as [Hbelow|(n' & Hin')].
    - specialize (Hchild Hbelow (nodes ++ [tid'])).
      destruct (trace child' target (nodes ++ [tid'])) as [found nodes2].
      cbn in Hchild. subst found. reflexivity.
    - exfalso. apply andb_false_iff in Hhit as [Hmem|Hr].
      + apply bool_decide_eq_false in Hmem. apply Hmem.
        apply list_elem_of_fmap. exists (target, n'). split; [reflexivity|exact Hin'].
      + apply bool_decide_eq_false in Hr. contradiction. }
  apply elem_of_cons in Hin as [Heq|Hin].
  - inversion Heq; subst tid' child'. apply Hhead.
    destruct p as [|k p].
    + right. cbn in Hn. apply node_at_cons_inv in Hn as (n' & Hin' & Hn').
      inversion Hn'; subst. eauto.
    + left. exists (k :: p), n. split; [discriminate|exact Hn].
  - (* the target is below a later entry *)
    destruct (children child') as [|kc0 kcs] eqn:Hkids; [apply IHl; exact Hin|].
    rewrite <- Hkids.
    destruct (dict_mem target (children child') && bool_decide (target ≠ ROOT));
      [reflexivity|].
    destruct (trace_result child' target (nodes ++ [tid']))
      as [(p' & n' & _ & _ & _ & ->)| ->]; [reflexivity|].
    rewrite removelast_last. apply IHl. exact Hin.
Qed.

(** X14. [trace] succeeds exactly for a target that is not the root
    taxid and is the key of an entry at depth 2 or more below the node:
    an entry of the node itself is never found, nor is the root taxid. *)
Theorem trace_finds (self : TaxTree) target nodes :
  (trace self target nodes).1 = true
  <-> target ≠ ROOT /\ below_entries self target.
Proof.
  split.
  - intros Hfound.
    destruct (trace_result self target nodes)
      as [(p & n & Hp & Hn & Hroot & Hrun)|Hrun]; rewrite Hrun in Hfound.
    + split; [exact Hroot|]. exists p, n. auto.
    + discriminate.
  - intros [Hroot Hbelow]. apply trace_finds_below; assumption.
Qed.

Lemma get_lineage_step_entry (self : TaxTree) parents st tid' tid :
  (get_lineage_step self parents st tid').2 !! tid
  = if decide (tid' = tid)
    then match lineage_of self parents tid with
         | Some l => Some l
         | None => st.2 !! tid
         end
    else st.2 !! tid.
Proof.
  destruct (decide (tid' = tid)) as [->|Hne];
    [|apply get_lineage_step_other; exact Hne].
  destruct st as [output traced]. unfold get_lineage_step, lineage_of.
  destruct (decide (tid = ROOT)) as [->|_]; [apply lookup_insert_eq|].
  destruct (decide (is_Some (parents !! tid))); [|reflexivity].
  destruct (trace self tid []) as [found nodes].
  destruct found; [apply lookup_insert_eq|reflexivity].
Qed.

(** The entry of a taxid in the result of [get_lineage] depends on
    nothing but the taxid and on whether it was requested. *)
Lemma get_lineage_entry (self : TaxTree) parents taxids tid :
  (get_lineage self parents taxids).2 !! tid
  = if decide (tid ∈ taxids) then lineage_of self parents tid else None.
Proof.
  rewrite get_lineage_unfold. cbn [snd].
  assert (Hfold : forall l st,
            (fold_left (get_lineage_step self parents) l st).2 !! tid
            = if decide (tid ∈ l)
              then match lineage_of self parents tid with
                   | Some lin => Some lin
                   | None => st.2 !! tid
                   end
              else st.2 !! tid).
  { induction l as [|x l IHl]; intros st.
    - cbn. destruct (decide (tid ∈ [])) as [Hin|_]; [inversion Hin|reflexivity].
    - cbn [fold_left]. rewrite IHl, get_lineage_step_entry.
      destruct (decide (tid ∈ l)) as [Hin|Hnotin].
      + rewrite (decide_True (P := tid ∈ x :: l))
          by (apply list_elem_of_further; exact Hin).
        destruct (lineage_of self parents tid); [reflexivity|].
        destruct (decide (x = tid)); reflexivity.
      + destruct (decide (x = tid)) as [->|Hne].
        * rewrite (decide_True (P := tid ∈ tid :: l)) by apply list_elem_of_here.
          reflexivity.
        * rewrite decide_False; [reflexivity|].
          intros Hin. apply elem_of_cons in Hin as [Heq|Hin]; [congruence|contradiction]. }
  rewrite Hfold. cbn [snd]. rewrite lookup_empty.
  destruct (decide (tid ∈ taxids)); [|reflexivity].
  destruct (lineage_of self parents tid); reflexivity.
Qed.

Lemma get_lineage_failed_logged (self : TaxTree) parents taxids tid :
  tid ∈ taxids -> tid ≠ ROOT -> is_Some (parents !! tid) ->
  (trace self tid []).1 = false ->
  LogFailedTracing tid ∈ (get_lineage self parents taxids).1.
Proof.
  intros Hin Hroot Hparent Hfail. rewrite get_lineage_unfold. cbn [fst].
  apply elem_of_app. left.
  assert (Hkeep : forall l st chunk, chunk ∈ st.1 ->
            chunk ∈ (fold_left (get_lineage_step self parents) l st).1).
  { induction l as [|x l IHl]; intros st chunk Hc; [exact Hc|].
    cbn [fold_left]. apply IHl. apply get_lineage_step_log. exact Hc. }
  generalize ([LogGettingLineage], ∅ : gmap TaxId (list TaxId)).
  induction taxids as [|x taxids IH]; intros st; [inversion Hin|].
  cbn [fold_left]. apply elem_of_cons in Hin as [<-|Hin]; [|apply IH; exact Hin].
  apply Hkeep. destruct st as [output traced]. unfold get_lineage_step.
  destruct (decide (tid = ROOT)); [contradiction|].
  destruct (decide (is_Some (parents !! tid))); [|contradiction].
  destruct (trace self tid []) as [found nodes]. cbn in Hfail. subst found.
  cbn. apply elem_of_app. right. left.
Qed.

(** X15. The lineages that [get_lineage] returns are genuine, and none
    is forgotten.  An entry is that of a requested taxid; it is [[ROOT]]
    for the root taxid and otherwise, for a taxid known to [parents],
    the keys of a path of the tree from its top to the taxid, with at
    least one key before it.  A requested taxid other than the root and
    known to [parents] gets its entry when it is an entry at depth 2 or
    more of the tree, and a warning in the log and no entry when it is
    not. *)
Theorem get_lineage_genuine (self : TaxTree) parents taxids tid :
  (forall l, (get_lineage self parents taxids).2 !! tid = Some l ->
     tid ∈ taxids
     /\ ((tid = ROOT /\ l = [ROOT])
         \/ (tid ≠ ROOT /\ is_Some (parents !! tid)
             /\ exists p n, p ≠ [] /\ l = p ++ [tid] /\ node_at self l n)))
  /\ (tid ∈ taxids -> tid ≠ ROOT -> is_Some (parents !! tid) ->
      (below_entries self tid ->
         is_Some ((get_lineage self parents taxids).2 !! tid))
      /\ (~ below_entries self tid ->
           (get_lineage self parents taxids).2 !! tid = None
           /\ LogFailedTracing tid ∈ (get_lineage self parents taxids).1)).
Proof.
  rewrite get_lineage_entry. split.
  - intros l Hl. destruct (decide (tid ∈ taxids)) as [Hin|_]; [|discriminate].
    split; [exact Hin|]. unfold lineage_of in Hl.
    destruct (decide (tid = ROOT)) as [->|Hroot]; [left; split; congruence|].
    destruct (decide (is_Some (parents !! tid))) as [Hparent|_]; [|discriminate].
    right. split; [exact Hroot|]. split; [exact Hparent|].
    destruct (trace_result self tid [])
      as [(p & n & Hp & Hn & _ & Hrun)|Hrun]; rewrite Hrun in Hl.
    + inversion Hl; subst. exists p, n. auto.
    + discriminate.
  - intros Hin Hroot Hparent. rewrite decide_True by exact Hin.
    unfold lineage_of. rewrite decide_False by exact Hroot.
    rewrite decide_True by exact Hparent. split.
    + intros Hbelow. pose proof (trace_finds_below self tid Hroot Hbelow []) as Hfound.
      destruct (trace self tid []) as [found nodes]. cbn in Hfound. subst found. eauto.
    + intros Hnot.
      assert (Hfail : (trace self tid []).1 = false).
      { destruct (trace_result self tid [])
          as [(p & n & Hp & Hn & _ & Hrun)|Hrun]; rewrite Hrun; [|reflexivity].
        exfalso. apply Hnot. exists p, n. auto. }
      split; [|apply get_lineage_failed_logged; assumption].
      destruct (trace self tid []) as [found nodes]. cbn in Hfail. subst found.
      reflexivity.
Qed.

(** X16. On a tree grown from the root, the lineage of a requested
    taxid other than the root and known to [parents] is a chain of the
    taxonomy: it starts with the root taxid, follows the children table
    down to the taxid and repeats no taxid; and the taxid gets a lineage
    exactly when such a chain leads to it. *)
Theorem get_lineage_of_grown taxonomy abundances scores fuel parents taxids tid :
  (size (tx_children taxonomy) < fuel)%nat ->
  tid ∈ taxids -> tid ≠ ROOT -> is_Some (parents !! tid) ->
  exists t,
    grow fuel taxonomy abundances scores ROOT [] empty_TaxTree = Return t
    /\ (forall l, (get_lineage t parents taxids).2 !! tid = Some l ->
          exists q, l = ROOT :: q ++ [tid]
                    /\ tax_chain taxonomy ROOT (q ++ [tid]) /\ NoDup l)
    /\ (is_Some ((get_lineage t parents taxids).2 !! tid)
        <-> exists q, tax_chain taxonomy ROOT (q ++ [tid])
                      /\ NoDup (ROOT :: q ++ [tid])).
Proof.
  intros Hfuel Hin Hroot Hparent.
  destruct (grow_returns fuel taxonomy abundances scores ROOT [] empty_TaxTree)
    as (t & Hrun).
  { constructor. }
  { intros x Hx. inversion Hx. }
  { simpl. lia. }
  pose proof Hrun as Hspec. apply grow_spec in Hspec; [|constructor].
  destruct Hspec as [[Hin' _]|(_ & node & Ht & Hgrown)]; [inversion Hin'|].
  pose proof Hrun as Hcomp. apply grow_complete in Hcomp.
  2: { constructor. }
  2: { intros x Hx. inversion Hx. }
  2: { simpl. lia. }
  2: { intros Hin'. inversion Hin'. }
  destruct Hcomp as (node2 & Ht2 & Hcomplete).
  assert (node2 = node) as -> by (rewrite Ht in Ht2; cbn in Ht2; congruence).
  assert (Hkids : children t = [(ROOT, node)]) by (rewrite Ht; reflexivity).
  clear Ht Ht2.
  exists t. split; [exact Hrun|].
  assert (Hpaths : forall p n, node_at t (p ++ [tid]) n -> p ≠ [] ->
            exists q, p = ROOT :: q /\ tax_chain taxonomy ROOT (q ++ [tid])
                      /\ NoDup (ROOT :: q ++ [tid])).
  { intros p n Hn Hp. destruct p as [|k q]; [contradiction|]. cbn in Hn.
    apply node_at_cons_inv in Hn as (child & Hin' & Hn). rewrite Hkids in Hin'.
    apply list_elem_of_singleton in Hin'. inversion Hin'; subst k child.
    destruct (Hgrown _ _ Hn) as (Hnd & Hchain & _). eauto. }
  rewrite get_lineage_entry, decide_True by exact Hin.
  unfold lineage_of. rewrite decide_False by exact Hroot.
  rewrite decide_True by exact Hparent.
  split.
  - intros l Hl.
    destruct (trace_result t tid []) as [(p & n & Hp & Hn & _ & Hrun')|Hrun'];
      rewrite Hrun' in Hl; [|discriminate].
    inversion Hl; subst l. cbn [app].
    destruct (Hpaths p n Hn Hp) as (q & -> & Hchain & Hnd).
    exists q. auto.
  - split.
    + intros Hsome.
      destruct (trace_result t tid []) as [(p & n & Hp & Hn & _ & Hrun')|Hrun'];
        rewrite Hrun' in Hsome; [|destruct Hsome; discriminate].
      destruct (Hpaths p n Hn Hp) as (q & -> & Hchain & Hnd). eauto.
    + intros (q & Hchain & Hnd).
      destruct (Hcomplete (q ++ [tid]) Hchain Hnd) as (n & Hn).
      assert (Hbelow : below_entries t tid).
      { exists (ROOT :: q), n. split; [discriminate|]. cbn.
        econstructor; [|exact Hn]. rewrite Hkids. left. }
      pose proof (trace_finds_below t tid Hroot Hbelow []) as Hfound.
      destruct (trace t tid []) as [found nodes]. cbn in Hfound. subst found. eauto.
Qed.

(** ** MultiTree.grow, further *)

Lemma per_sample_get_missing {V : Type} (samples : list Sample)
    (d : gmap Sample (gmap TaxId V)) taxid dflt :
  (exists s, s ∈ samples /\ d !! s = None) ->
  per_sample_get samples d taxid dflt = Raise KeyError.
Proof.
  unfold per_sample_get. induction samples as [|s0 samples IH];
    intros (s & Hin & Hnone); [inversion Hin|].
  cbn [omap]. destruct (d !! s0) as [m|] eqn:Hs0; [|reflexivity].
  cbn [obind]. rewrite IH; [reflexivity|].
  apply elem_of_cons in Hin as [->|Hin]; [congruence|eauto].
Qed.

Lemma per_sample_tables_cases {V : Type} (samples : list Sample)
    (d : gmap Sample (gmap TaxId V)) :
  (forall s, s ∈ samples -> is_Some (d !! s))
  \/ (exists s, s ∈ samples /\ d !! s = None).
Proof.
  induction samples as [|s0 samples IH].
  - left. intros s Hs. inversion Hs.
  - destruct (d !! s0) as [m|] eqn:Hs0.
    + destruct IH as [Hall|(s & Hin & Hnone)].
      * left. intros s Hs. apply elem_of_cons in Hs as [->|Hs]; [eauto|auto].
      * right. exists s. split; [right; exact Hin|exact Hnone].
    + right. exists s0. split; [left|exact Hs0].
Qed.

(** X17. [MultiTree.grow] raises [KeyError] as soon as it has a node to
    consider (fuel left, taxid not on the path) and a sample of the tree
    has no table in the abundances, in the accumulated counts or in the
    scores, once their defaults are in. *)
Theorem MultiTree_grow_missing_sample fuel taxonomy abundances accs scores taxid
    path (self : MultiTree) sample :
  (taxid ∉ path) ->
  sample ∈ m_samples self ->
  default_per_sample (m_samples self) {[ ROOT := 1 ]} abundances !! sample = None
  \/ default_per_sample (m_samples self) {[ ROOT := 1 ]} accs !! sample = None
  \/ default_per_sample (m_samples self) ∅ scores !! sample = None ->
  MultiTree_grow (S fuel) taxonomy abundances accs scores taxid path self
  = Raise KeyError.
Proof.
  intros Hnotin Hin Hmissing. cbn [MultiTree_grow].
  destruct (decide (taxid ∈ path)); [contradiction|].
  set (samples := m_samples self) in *.
  set (ab := default_per_sample samples {[ ROOT := 1 ]} abundances) in *.
  set (ac := default_per_sample samples {[ ROOT := 1 ]} accs) in *.
  set (sc := default_per_sample samples ∅ scores) in *.
  destruct (per_sample_tables_cases samples ab) as [Hab|Hab].
  2: { rewrite (per_sample_get_missing samples ab) by exact Hab. reflexivity. }
  rewrite (per_sample_get_returns samples ab) by exact Hab. cbn [obind].
  destruct (per_sample_tables_cases samples ac) as [Hac|Hac].
  2: { rewrite (per_sample_get_missing samples ac) by exact Hac. reflexivity. }
  rewrite (per_sample_get_returns samples ac) by exact Hac. cbn [obind].
  rewrite (per_sample_get_missing samples sc); [reflexivity|].
  exists sample. split; [exact Hin|].
  destruct Hmissing as [Hm|[Hm|Hm]]; [| |exact Hm].
  - destruct (Hab sample Hin) as (m & Hsome). congruence.
  - destruct (Hac sample Hin) as (m & Hsome). congruence.
Qed.

Lemma for_samples_lookup {V : Type} (samples : list Sample) (v : V) s :
  s ∈ samples -> for_samples samples v !! s = Some v.
Proof. apply (per_sample_lookup samples (fun _ => v)). Qed.

(** X18. Called without abundances, accumulated counts and scores on the
    empty tree of a non-empty list of samples, [MultiTree.grow] builds
    one node and no more: the root, with count 1 and accumulated count 1
    for every sample and no score, whatever the taxonomy holds. *)
Theorem MultiTree_grow_defaults taxonomy (samples : list Sample) fuel :
  samples ≠ [] ->
  (size (tx_children taxonomy) < fuel)%nat ->
  MultiTree_grow fuel taxonomy None None None ROOT [] (empty_MultiTree samples)
  = Return
      (MNode samples UNCLASSIFIED ((fun _ => 0) <$> samples)
         ((fun _ => 0) <$> samples) ((fun _ => NO_SCORE) <$> samples)
         [(ROOT, MNode samples (get_rank taxonomy ROOT)
                   ((fun _ => 1) <$> samples) ((fun _ => 1) <$> samples)
                   ((fun _ => NO_SCORE) <$> samples) [])]).
Proof.
  intros Hne Hfuel.
  set (ab := for_samples samples ({[ ROOT := 1 ]} : gmap TaxId Z)).
  set (sc := for_samples samples (∅ : gmap TaxId Score)).
  assert (Hkeys : forall s, s ∈ samples ->
            is_Some (ab !! s) /\ is_Some (ab !! s) /\ is_Some (sc !! s)).
  { intros s Hs. unfold ab, sc. rewrite !for_samples_lookup by exact Hs. eauto. }
  assert (Hroot : forall s, s ∈ samples -> table_value ab 0 ROOT s = 1).
  { intros s Hs. unfold table_value, ab. rewrite for_samples_lookup by exact Hs.
    rewrite lookup_singleton_eq. reflexivity. }
  assert (Hother : forall x s, x ≠ ROOT -> table_value ab 0 x s = 0).
  { intros x s Hx. unfold table_value, ab. destruct (for_samples _ _ !! s) as [m|] eqn:Hm;
      [|reflexivity].
    assert (m = {[ ROOT := 1 ]}) as ->.
    { unfold for_samples in Hm. apply elem_of_list_to_map_2 in Hm.
      apply list_elem_of_fmap in Hm as (s' & Heq & _). congruence. }
    rewrite lookup_singleton_ne by congruence. reflexivity. }
  assert (Hscore : forall x s, table_value sc NO_SCORE x s = NO_SCORE).
  { intros x s. unfold table_value, sc. destruct (for_samples _ _ !! s) as [m|] eqn:Hm;
      [|reflexivity].
    assert (m = ∅) as ->.
    { unfold for_samples in Hm. apply elem_of_list_to_map_2 in Hm.
      apply list_elem_of_fmap in Hm as (s' & Heq & _). congruence. }
    rewrite lookup_empty. reflexivity. }
  (* a child of the root adds nothing *)
  assert (Hchild : forall fuel' child node,
            m_samples node = samples ->
            MultiTree_grow (S fuel') taxonomy (Some ab) (Some ab) (Some sc) child
              [ROOT] node = Return node).
  { intros fuel' child node Hs.
    pose proof (MultiTree_grow_step fuel' taxonomy (Some ab) (Some ab) (Some sc)
                  child [ROOT] node) as Hstep.
    cbv zeta in Hstep. rewrite Hs in Hstep.
    assert (Hab : default_per_sample samples {[ ROOT := 1 ]} (Some ab) = ab)
      by apply (default_per_sample_idem samples _ None).
    assert (Hsc : default_per_sample samples ∅ (Some sc) = sc)
      by apply (default_per_sample_idem samples _ None).
    rewrite Hab, Hsc in Hstep. rewrite (Hstep Hkeys). clear Hstep.
    destruct (decide (child ∈ [ROOT])) as [_|Hnotin]; [reflexivity|].
    assert (Hx : child ≠ ROOT).
    { intros ->. apply Hnotin. left. }
    replace (any_acc _) with false; [reflexivity|].
    symmetry. apply not_true_iff_false. intros Hany.
    apply any_acc_items in Hany as (s & _ & Hnz). apply Hnz, Hother, Hx. }
  destruct fuel as [|fuel]; [lia|].
  pose proof (MultiTree_grow_step fuel taxonomy None None None ROOT []
                (empty_MultiTree samples)) as Hstep.
  cbv zeta in Hstep. cbn [empty_MultiTree m_samples default_per_sample] in Hstep.
  fold ab sc in Hstep. rewrite (Hstep Hkeys). clear Hstep.
  destruct (decide (ROOT ∈ [])) as [Hin|_]; [inversion Hin|].
  replace (any_acc _) with true.
  2: { symmetry. apply any_acc_items. destruct samples as [|s samples]; [contradiction|].
       exists s. split; [left|]. rewrite Hroot by left. discriminate. }
  assert (Hnode0 : fresh_MultiTree taxonomy samples ab ab sc ROOT
                   = MNode samples (get_rank taxonomy ROOT)
                       ((fun _ => 1) <$> samples) ((fun _ => 1) <$> samples)
                       ((fun _ => NO_SCORE) <$> samples) []).
  { unfold fresh_MultiTree. f_equal.
    - apply list_fmap_ext. intros i s Hs. apply Hroot.
      eapply list_elem_of_lookup_2; exact Hs.
    - apply list_fmap_ext. intros i s Hs. apply Hroot.
      eapply list_elem_of_lookup_2; exact Hs.
    - apply list_fmap_ext. intros i s Hs. apply Hscore. }
  rewrite Hnode0.
  destruct (tx_children taxonomy !! ROOT) as [kids|] eqn:Hkids; [|reflexivity].
  assert (Hfuel' : exists fuel', fuel = S fuel').
  { destruct fuel as [|fuel']; [|eauto]. exfalso.
    assert (size (tx_children taxonomy) ≠ 0%nat); [|lia].
    intros Hsize. apply map_size_empty_iff in Hsize. rewrite Hsize in Hkids.
    rewrite lookup_empty in Hkids. discriminate. }
  destruct Hfuel' as (fuel' & ->).
  assert (Hloop : forall l node, m_samples node = samples ->
            grow_loop (fun child node =>
                         MultiTree_grow (S fuel') taxonomy (Some ab) (Some ab) (Some sc)
                           child ([] ++ [ROOT]) node) l node = Return node).
  { induction l as [|child rest IHl]; intros node Hs; [reflexivity|].
    cbn [grow_loop app]. rewrite Hchild by exact Hs. cbn [obind].
    apply IHl. exact Hs. }
  rewrite Hloop by reflexivity. reflexivity.
Qed.

(** The nodes that [MultiTree.grow] builds lie on chains of the
    taxonomy that repeat no taxid. *)
Lemma MultiTree_grow_paths taxonomy samples ab ac sc :
  (forall s, s ∈ samples ->
     is_Some (ab !! s) /\ is_Some (ac !! s) /\ is_Some (sc !! s)) ->
  forall fuel abundances accs scores taxid path (self t' : MultiTree),
    m_samples self = samples ->
    default_per_sample samples {[ ROOT := 1 ]} abundances = ab ->
    default_per_sample samples {[ ROOT := 1 ]} accs = ac ->
    default_per_sample samples ∅ scores = sc ->
    NoDup path ->
    MultiTree_grow fuel taxonomy abundances accs scores taxid path self = Return t' ->
    t' = self
    \/ exists node',
         t' = MNode (m_samples self) (m_taxlevel self) (m_counts self)
                    (m_accs self) (m_score self)
                    (dict_set taxid node' (m_children self))
         /\ m_samples node' = samples
         /\ forall q n, mnode_at node' q n ->
              tax_chain taxonomy taxid q /\ NoDup (path ++ taxid :: q).
Proof.
  intros Hkeys.
  induction fuel as [|fuel IH];
    intros abundances accs scores taxid path self t' Hsamples Hab Hac Hsc Hnd Hrun;
    [discriminate|].
  pose proof (MultiTree_grow_step fuel taxonomy abundances accs scores taxid path self)
    as Hstep.
  cbv zeta in Hstep. rewrite Hsamples, Hab, Hac, Hsc in Hstep.
  rewrite (Hstep Hkeys) in Hrun. clear Hstep.
  destruct (decide (taxid ∈ path)) as [Hin|Hnotin]; [left; congruence|].
  destruct (any_acc _); [|left; congruence].
  right.
  set (path' := path ++ [taxid]) in *.
  assert (Hnd' : NoDup path').
  { apply NoDup_app. split; [exact Hnd|]. split; [|apply NoDup_singleton].
    intros x Hx Hx'. apply list_elem_of_singleton in Hx'. subst. contradiction. }
  set (node0 := fresh_MultiTree taxonomy samples ab ac sc taxid) in *.
  destruct (tx_children taxonomy !! taxid) as [kids|] eqn:Hkids.
  - set (f := fun child node =>
                MultiTree_grow fuel taxonomy (Some ab) (Some ac) (Some sc) child
                  path' node) in *.
    pose (Inv := fun node : MultiTree =>
      m_samples node = samples
      /\ forall k c, (k, c) ∈ m_children node ->
           k ∈ kids /\ forall q n, mnode_at c q n ->
                         tax_chain taxonomy k q /\ NoDup (path' ++ k :: q)).
    assert (Hloop : forall l, (forall x, x ∈ l -> x ∈ kids) ->
              forall node node', Inv node ->
                grow_loop f l node = Return node' -> Inv node').
    { induction l as [|child rest IHl]; intros Hsub node node' Hinv Hl; cbn in Hl.
      - congruence.
      - destruct (f child node) as [node1| |] eqn:Hf; try discriminate.
        cbn in Hl.
        apply (IHl (fun x Hx => Hsub x (list_elem_of_further x child rest Hx))
                 node1 node'); [|exact Hl].
        destruct Hinv as [Hs Hentries].
        unfold f in Hf. apply IH in Hf; try assumption.
        + destruct Hf as [->|(sub & -> & Hsubs & Hsub')]; [split; assumption|].
          split; [exact Hs|]. cbn [m_children]. intros k c Hin.
          apply dict_set_elem in Hin as [Heq|Hin]; [|auto].
          inversion Heq; subst. split; [apply Hsub; left|exact Hsub'].
        + rewrite <- Hab. apply default_per_sample_idem.
        + rewrite <- Hac. apply default_per_sample_idem.
        + rewrite <- Hsc. apply default_per_sample_idem. }
    destruct (grow_loop f kids node0) as [node'| |] eqn:Hrun'; try discriminate.
    cbn [obind] in Hrun. exists node'.
    destruct (Hloop kids (fun x Hx => Hx) node0 node') as [Hs Hentries];
      [split; [reflexivity|intros k c Hin; inversion Hin]|exact Hrun'|].
    split; [rewrite Hsamples; congruence|]. split; [exact Hs|].
    intros q n Hq. inversion Hq as [|? k c q' ? Hin Hq']; subst.
    + split; [constructor|exact Hnd'].
    + destruct (Hentries k c Hin) as [Hk Hc].
      destruct (Hc q' n Hq') as [Hchain Hndq]. split.
      * econstructor; eassumption.
      * unfold path' in Hndq. rewrite <- app_assoc in Hndq. exact Hndq.
  - cbn [obind] in Hrun. exists node0.
    split; [rewrite Hsamples; congruence|]. split; [reflexivity|].
    intros q n Hq. inversion Hq as [|? k c q' ? Hin Hq']; subst.
    + split; [constructor|exact Hnd'].
    + inversion Hin.
Qed.

(** [MultiTree.grow] from the root on an empty tree, when the tables hold
    every sample: where the nodes are and what they hold. *)
Lemma MultiTree_grow_from_empty taxonomy (samples : list Sample)
    (ab ac : gmap Sample (gmap TaxId Z)) (sc : gmap Sample (gmap TaxId Score)) fuel :
  (forall s, s ∈ samples ->
     is_Some (ab !! s) /\ is_Some (ac !! s) /\ is_Some (sc !! s)) ->
  (size (tx_children taxonomy) < fuel)%nat ->
  exists t,
    MultiTree_grow fuel taxonomy (Some ab) (Some ac) (Some sc) ROOT []
      (empty_MultiTree samples) = Return t
    /\ m_samples t = samples
    /\ (forall q, (exists n, mnode_at t (ROOT :: q) n)
                  <-> tax_chain taxonomy ROOT q /\ NoDup (ROOT :: q)
                      /\ Forall (occupied samples ac) (ROOT :: q))
    /\ (forall p n, mnode_at t p n -> p ≠ [] ->
          exists q, p = ROOT :: q
            /\ m_samples n = samples
            /\ m_counts n = table_value ab 0 (List.last q ROOT) <$> samples
            /\ m_accs n = table_value ac 0 (List.last q ROOT) <$> samples
            /\ m_score n = table_value sc NO_SCORE (List.last q ROOT) <$> samples).
Proof.
  intros Hkeys Hfuel.
  assert (Hdefault : forall (V : Type) (d : gmap Sample V) (v : V),
            (forall s, s ∈ samples -> is_Some (d !! s)) ->
            default_per_sample samples v (Some d) = d).
  { intros V d v Hd. unfold default_per_sample.
    destruct (decide (d = ∅)) as [->|_]; [|reflexivity].
    destruct samples as [|s samples']; [reflexivity|].
    destruct (Hd s) as (x & Hx); [left|]. rewrite lookup_empty in Hx. discriminate. }
  assert (Hdab : default_per_sample samples {[ ROOT := 1 ]} (Some ab) = ab)
    by (apply Hdefault; intros s Hs; apply (Hkeys s Hs)).
  assert (Hdac : default_per_sample samples {[ ROOT := 1 ]} (Some ac) = ac)
    by (apply Hdefault; intros s Hs; apply (Hkeys s Hs)).
  assert (Hdsc : default_per_sample samples ∅ (Some sc) = sc)
    by (apply Hdefault; intros s Hs; apply (Hkeys s Hs)).
  destruct (MultiTree_grow_spec taxonomy samples ab ac sc Hkeys fuel
              (Some ab) (Some ac) (Some sc) ROOT [] (empty_MultiTree samples))
    as (t & Hrun & Hcase); try assumption; try reflexivity.
  { constructor. }
  { intros x Hx. inversion Hx. }
  { simpl. lia. }
  pose proof (MultiTree_grow_paths taxonomy samples ab ac sc Hkeys fuel
                (Some ab) (Some ac) (Some sc) ROOT [] (empty_MultiTree samples) t
                eq_refl Hdab Hdac Hdsc (NoDup_nil_2 (A := TaxId)) Hrun) as Hpaths.
  exists t. split; [exact Hrun|].
  split; [destruct Hcase as [[_ ->]|(_ & _ & node & -> & _)]; reflexivity|].
  destruct Hcase as [[Hskip ->]|(_ & Hocc & node & -> & Hsound & Hcomplete)].
  - (* the root is not occupied: the tree is empty *)
    destruct Hskip as [Hin|Hno]; [inversion Hin|]. split.
    + intros q. split.
      * intros (n & Hn). apply mnode_at_cons_inv in Hn as (c & Hin & _). inversion Hin.
      * intros (_ & _ & Hall). apply Forall_cons in Hall as [Hroot _]. contradiction.
    + intros p n Hn Hp. destruct p as [|k p]; [contradiction|].
      apply mnode_at_cons_inv in Hn as (c & Hin & _). inversion Hin.
  - assert (Hnode : forall node2,
              MNode (m_samples (empty_MultiTree samples))
                (m_taxlevel (empty_MultiTree samples)) (m_counts (empty_MultiTree samples))
                (m_accs (empty_MultiTree samples)) (m_score (empty_MultiTree samples))
                (dict_set ROOT node (m_children (empty_MultiTree samples)))
              = MNode (m_samples (empty_MultiTree samples))
                  (m_taxlevel (empty_MultiTree samples))
                  (m_counts (empty_MultiTree samples))
                  (m_accs (empty_MultiTree samples)) (m_score (empty_MultiTree samples))
                  (dict_set ROOT node2 (m_children (empty_MultiTree samples))) ->
              node2 = node).
    { intros node2 Heq. cbn in Heq. congruence. }
    assert (Hchains : forall q n, mnode_at node q n ->
              tax_chain taxonomy ROOT q /\ NoDup (ROOT :: q)).
    { destruct Hpaths as [Heq|(node2 & Heq & _ & Hp2)].
      - exfalso. cbn in Heq. discriminate.
      - apply Hnode in Heq. subst node2. exact Hp2. }
    split.
    + intros q. split.
      * intros (n & Hn). apply mnode_at_cons_inv in Hn as (c & Hin & Hn).
        cbn in Hin. apply list_elem_of_singleton in Hin. inversion Hin; subst c.
        destruct (Hchains q n Hn) as [Hchain Hnd].
        split; [exact Hchain|]. split; [exact Hnd|].
        apply Forall_cons. split; [exact Hocc|].
        apply Forall_forall. intros y Hy.
        apply list_elem_of_split in Hy as (q1 & q2 & ->).
        change (q1 ++ y :: q2) with (q1 ++ [y] ++ q2) in Hn.
        rewrite app_assoc in Hn.
        assert (Hprefix : exists m, mnode_at node (q1 ++ [y]) m).
        { clear - Hn. revert Hn. generalize (q1 ++ [y]) as q. intros q. revert node.
          induction q as [|k q IHq]; intros node Hn.
          - exists node. constructor.
          - cbn in Hn. apply mnode_at_cons_inv in Hn as (c & Hin & Hn).
            destruct (IHq c Hn) as (m & Hm). exists m. econstructor; eassumption. }
        destruct Hprefix as (m & Hm).
        destruct (Hsound _ _ Hm) as (Ho & _).
        rewrite last_last in Ho. exact Ho.
      * intros (Hchain & Hnd & Hall). apply Forall_cons in Hall as [_ Hall].
        destruct (Hcomplete q Hchain Hnd Hall) as (n & Hn).
        exists n. econstructor; [|exact Hn]. cbn. left.
    + intros p n Hn Hp. destruct p as [|k q]; [contradiction|].
      apply mnode_at_cons_inv in Hn as (c & Hin & Hn).
      cbn in Hin. apply list_elem_of_singleton in Hin. inversion Hin; subst k c.
      exists q. split; [reflexivity|].
      destruct (Hsound q n Hn) as (_ & Hsm & Hc & Ha & Hs). auto.
Qed.

(** X19. [MultiTree.grow] on any tables that hold every sample of the
    tree: below the root entry there is a node exactly at the end of
    the chains of the taxonomy that repeat no taxid and run through
    occupied taxids only (taxids for which some sample has a nonzero
    accumulated count), the root included; and every node holds, one
    slot per sample and in the order of the samples, the counts, the
    accumulated counts and the scores of the samples for its taxid. *)
Theorem MultiTree_grow_occupied_chains taxonomy (samples : list Sample)
    (ab ac : gmap Sample (gmap TaxId Z)) (sc : gmap Sample (gmap TaxId Score)) fuel :
  (forall s, s ∈ samples ->
     is_Some (ab !! s) /\ is_Some (ac !! s) /\ is_Some (sc !! s)) ->
  (size (tx_children taxonomy) < fuel)%nat ->
  exists t,
    MultiTree_grow fuel taxonomy (Some ab) (Some ac) (Some sc) ROOT []
      (empty_MultiTree samples) = Return t
    /\ (forall q, (exists n, mnode_at t (ROOT :: q) n)
                  <-> tax_chain taxonomy ROOT q /\ NoDup (ROOT :: q)
                      /\ Forall (occupied samples ac) (ROOT :: q))
    /\ (forall p n, mnode_at t p n -> p ≠ [] ->
          exists q, p = ROOT :: q
            /\ m_counts n = table_value ab 0 (List.last q ROOT) <$> samples
            /\ m_accs n = table_value ac 0 (List.last q ROOT) <$> samples
            /\ m_score n = table_value sc NO_SCORE (List.last q ROOT) <$> samples).
Proof.
  intros Hkeys Hfuel.
  destruct (MultiTree_grow_from_empty taxonomy samples ab ac sc fuel Hkeys Hfuel)
    as (t & Hrun & _ & Hwhere & Hwhat).
  exists t. split; [exact Hrun|]. split; [exact Hwhere|].
  intros p n Hn Hp. destruct (Hwhat p n Hn Hp) as (q & -> & _ & Hc & Ha & Hs).
  exists q. auto.
Qed.

(** ** MultiTree.to_items *)

Lemma to_items_unfold rank_label get_name taxonomy (self : MultiTree) items si :
  to_items rank_label get_name taxonomy self items si
  = to_items_loop
      (fun child items1 => to_items rank_label get_name taxonomy child items1 si)
      (fun tid child => to_items_row rank_label get_name taxonomy self tid child si)
      (m_children self) items.
Proof. destruct self; reflexivity. Qed.

Lemma m_preorder_unfold (t : MultiTree) :
  m_preorder t = flat_map (fun kc => kc :: m_preorder kc.2) (m_children t).
Proof. destruct t; reflexivity. Qed.

Lemma slots_match_unfold (t : MultiTree) :
  slots_match t
  = forallb (fun kc =>
               bool_decide (m_samples kc.2 = m_samples t)
               && (length (m_counts kc.2) =? length (m_samples t))%nat
               && (length (m_accs kc.2) =? length (m_samples t))%nat
               && (length (m_score kc.2) =? length (m_samples t))%nat
               && slots_match kc.2) (m_children t).
Proof. destruct t; reflexivity. Qed.

(** When every row can be built, [to_items] appends one row per entry,
    in pre-order. *)
Lemma to_items_appends rank_label get_name taxonomy si
    (rowf : TaxId * MultiTree -> list cell) (t : MultiTree) :
  (forall p parent tid child,
     mnode_at t p parent -> (tid, child) ∈ m_children parent ->
     to_items_row rank_label get_name taxonomy parent tid child si
     = Some (rowf (tid, child))) ->
  forall items,
    to_items rank_label get_name taxonomy t items si
    = Some (items ++ ((fun kc => (kc.1, rowf kc)) <$> m_preorder t)).
Proof.
  induction t as [smp r cs acs ss kids IH] using MultiTree_induction.
  intros Hrows items. rewrite to_items_unfold, m_preorder_unfold.
  cbn [m_children].
  assert (Hrow : forall tid child, (tid, child) ∈ kids ->
            to_items_row rank_label get_name taxonomy (MNode smp r cs acs ss kids)
              tid child si = Some (rowf (tid, child))).
  { intros tid child Hin. apply (Hrows [] _ tid child); [constructor|exact Hin]. }
  assert (Hbelow : forall tid child, (tid, child) ∈ kids ->
            forall p parent tid' child',
              mnode_at child p parent -> (tid', child') ∈ m_children parent ->
              to_items_row rank_label get_name taxonomy parent tid' child' si
              = Some (rowf (tid', child'))).
  { intros tid child Hin p parent tid' child' Hat Hin'.
    apply (Hrows (tid :: p) parent tid' child'); [|exact Hin'].
    econstructor; [exact Hin|exact Hat]. }
  clear Hrows. revert Hrow.
  generalize (to_items_row rank_label get_name taxonomy (MNode smp r cs acs ss kids))
    as row.
  intros row Hrow. revert items.
  induction kids as [|[tid child] rest IHrest]; intros items.
  - cbn. rewrite app_nil_r. reflexivity.
  - apply Forall_cons in IH as [Hchild IH]. cbn [snd] in Hchild.
    cbn [to_items_loop flat_map].
    rewrite (Hrow tid child) by left. cbn [mbind option_bind].
    assert (Hvisit : match m_children child with
                     | [] => Some (items ++ [(tid, rowf (tid, child))])
                     | _ :: _ =>
                         to_items rank_label get_name taxonomy child
                           (items ++ [(tid, rowf (tid, child))]) si
                     end
                     = Some ((items ++ [(tid, rowf (tid, child))])
                             ++ ((fun kc => (kc.1, rowf kc)) <$> m_preorder child))).
    { destruct (m_children child) as [|e l] eqn:Hkids.
      - rewrite (m_preorder_unfold child), Hkids. cbn. rewrite app_nil_r. reflexivity.
      - apply Hchild. intros p parent tid' child'. apply (Hbelow tid child). left. }
    rewrite Hvisit. cbn [mbind option_bind].
    fold (to_items_loop
            (fun child0 items1 =>
               to_items rank_label get_name taxonomy child0 items1 si)
            (fun tid0 child0 => row tid0 child0 si)).
    rewrite IHrest.
    + rewrite fmap_app, fmap_cons. cbn [fst snd].
      rewrite <- !app_assoc. reflexivity.
    + exact IH.
    + intros tid0 child0 Hin. apply (Hbelow tid0 child0). right. exact Hin.
    + intros tid0 child0 Hin. apply Hrow. right. exact Hin.
Qed.

(** The three lists of an entry with one slot per sample give the
    triples of the row. *)
Lemma row_triples (accs counts : list Z) (scores : list Score) :
  length counts = length accs -> length scores = length accs ->
  forall (pa pc : list Z) (ps : list Score),
    length pc = length pa -> length ps = length pa ->
    exists l,
      mapM (fun i : nat =>
              a ← (pa ++ accs) !! i;
              c ← (pc ++ counts) !! i;
              s ← (ps ++ scores) !! i;
              Some [CellInt a; CellInt c; CellScore s])
           (seq (length pa) (length accs)) = Some l
      /\ concat l = triples accs counts scores.
Proof.
  revert counts scores.
  induction accs as [|a accs IH]; intros counts scores Hc Hs pa pc ps Hpc Hps.
  - exists []. split; reflexivity.
  - destruct counts as [|c counts]; [discriminate|].
    destruct scores as [|s scores]; [discriminate|].
    cbn [length] in Hc, Hs.
    destruct (IH counts scores ltac:(lia) ltac:(lia) (pa ++ [a]) (pc ++ [c]) (ps ++ [s]))
      as (l & Hl & Hconcat).
    { rewrite !length_app. cbn. lia. }
    { rewrite !length_app. cbn. lia. }
    exists ([CellInt a; CellInt c; CellScore s] :: l). split.
    + cbn [length seq mapM].
      rewrite (list_lookup_middle pa accs a (length pa)) by reflexivity.
      rewrite (list_lookup_middle pc counts c (length pa)) by (symmetry; exact Hpc).
      rewrite (list_lookup_middle ps scores s (length pa)) by (symmetry; exact Hps).
      cbn [mbind option_bind].
      rewrite length_app in Hl. cbn [length] in Hl.
      rewrite Nat.add_1_r in Hl.
      rewrite <- !app_assoc in Hl. cbn [app] in Hl.
      rewrite Hl. reflexivity.
    + cbn [concat triples app]. rewrite Hconcat. reflexivity.
Qed.

Lemma to_items_row_full rank_label get_name taxonomy (self : MultiTree)
    tid (child : MultiTree) :
  length (m_counts child) = length (m_samples self) ->
  length (m_accs child) = length (m_samples self) ->
  length (m_score child) = length (m_samples self) ->
  to_items_row rank_label get_name taxonomy self tid child None
  = Some (full_row rank_label get_name taxonomy (tid, child)).2.
Proof.
  intros Hc Ha Hs. unfold to_items_row, full_row. cbn [fst snd].
  destruct (row_triples (m_accs child) (m_counts child) (m_score child)
              ltac:(congruence) ltac:(congruence) [] [] [] eq_refl eq_refl)
    as (l & Hl & Hconcat).
  cbn [app length] in Hl. rewrite Ha in Hl. rewrite Hl.
  cbn [mbind option_bind]. rewrite Hconcat. reflexivity.
Qed.

Lemma slots_match_below (t : MultiTree) p n :
  mnode_at t p n -> slots_match t = true -> slots_match n = true.
Proof.
  induction 1 as [t|t tid child p n Hin _ IH]; intros Hslots; [exact Hslots|].
  apply IH. rewrite slots_match_unfold in Hslots.
  rewrite forallb_forall in Hslots.
  apply list_elem_of_In, Hslots in Hin. cbn [snd] in Hin.
  rewrite !andb_true_iff in Hin. apply Hin.
Qed.

(** Without sample indexes and with one slot per sample, every row can
    be built. *)
Lemma to_items_row_slots rank_label get_name taxonomy (self : MultiTree) :
  slots_match self = true ->
  forall p parent tid child,
    mnode_at self p parent -> (tid, child) ∈ m_children parent ->
    to_items_row rank_label get_name taxonomy parent tid child None
    = Some (full_row rank_label get_name taxonomy (tid, child)).2.
Proof.
  intros Hslots p parent tid child Hat Hin.
  pose proof (slots_match_below self p parent Hat Hslots) as Hparent.
  rewrite slots_match_unfold, forallb_forall in Hparent.
  apply list_elem_of_In, Hparent in Hin. cbn [snd] in Hin.
  rewrite !andb_true_iff, !Nat.eqb_eq in Hin.
  destruct Hin as ((((_ & Hc) & Ha) & Hs) & _).
  apply to_items_row_full; assumption.
Qed.

(** X20. Called without sample indexes on a tree whose entries have the
    samples of the node that holds them and one slot per sample,
    [to_items] raises no [IndexError] and appends to [items] exactly one
    row per entry of the tree at any depth, parents before children and
    siblings in their order: the taxid with, sample after sample, the
    accumulated count, the count and the score, and then the rank and
    the name. *)
Theorem to_items_rows rank_label get_name taxonomy (self : MultiTree) items :
  slots_match self = true ->
  to_items rank_label get_name taxonomy self items None
  = Some (items ++ (full_row rank_label get_name taxonomy <$> m_preorder self)).
Proof.
  intros Hslots.
  rewrite (to_items_appends rank_label get_name taxonomy None
             (fun kc => (full_row rank_label get_name taxonomy kc).2)).
  - reflexivity.
  - apply to_items_row_slots. exact Hslots.
Qed.

Lemma py_index_in_range {A : Type} (l : list A) (i : Z) (d : A) :
  index_in_range (length l) i ->
  py_index l i = Some (nth (Z.to_nat (i mod Z.of_nat (length l))) l d).
Proof.
  unfold index_in_range, py_index. intros Hi.
  assert (Hnth : forall k, (k < length l)%nat -> l !! k = Some (nth k l d)).
  { intros k Hk. destruct (lookup_lt_is_Some_2 l k Hk) as (x & Hx).
    rewrite Hx. f_equal. symmetry. apply nth_lookup_Some with (d := d) in Hx.
    exact Hx. }
  destruct (0 <=? i) eqn:Hsign.
  - apply Z.leb_le in Hsign. rewrite Z.mod_small by lia. apply Hnth. lia.
  - apply Z.leb_gt in Hsign.
    replace (i mod Z.of_nat (length l)) with (Z.of_nat (length l) + i).
    + destruct (0 <=? Z.of_nat (length l) + i) eqn:Hlow.
      * apply Hnth. lia.
      * apply Z.leb_gt in Hlow. lia.
    + apply Z.mod_unique with (q := -1); lia.
Qed.

Lemma py_index_out_of_range {A : Type} (l : list A) (i : Z) :
  ~ index_in_range (length l) i -> py_index l i = None.
Proof.
  unfold index_in_range, py_index. intros Hi.
  destruct (0 <=? i) eqn:Hsign.
  - apply Z.leb_le in Hsign. apply lookup_ge_None. lia.
  - apply Z.leb_gt in Hsign.
    destruct (0 <=? Z.of_nat (length l) + i) eqn:Hlow; [|reflexivity].
    apply Z.leb_le in Hlow. lia.
Qed.

(** X21. Called with sample indexes that every entry accepts for its
    counts, [to_items] appends one row per entry of the tree, in
    pre-order, that holds the counts at these indexes in the order of
    the indexes, a negative index counting from the end of the list, and
    neither rank nor name. *)
Theorem to_items_selected_counts rank_label get_name taxonomy (self : MultiTree)
    items (indexes : list Z) :
  indexes ≠ [] ->
  (forall p n, mnode_at self p n -> p ≠ [] ->
     Forall (index_in_range (length (m_counts n))) indexes) ->
  to_items rank_label get_name taxonomy self items (Some indexes)
  = Some (items ++ (counts_row indexes <$> m_preorder self)).
Proof.
  intros Hne Hrange.
  rewrite (to_items_appends rank_label get_name taxonomy (Some indexes)
             (fun kc => (counts_row indexes kc).2)).
  - reflexivity.
  - intros p parent tid child Hat Hin.
    assert (Hchild : Forall (index_in_range (length (m_counts child))) indexes).
    { apply (Hrange (p ++ [tid]) child).
      - clear - Hat Hin. induction Hat as [t|t k c p n Hk _ IH].
        + econstructor; [exact Hin|constructor].
        + econstructor; [exact Hk|apply IH; exact Hin].
      - destruct p; discriminate. }
    unfold to_items_row, counts_row. cbn [fst snd].
    destruct indexes as [|i indexes]; [contradiction|].
    apply mapM_Some. apply Forall2_fmap_r.
    apply Forall_Forall2_diag.
    eapply Forall_impl; [exact Hchild|].
    intros j Hj. cbn beta. rewrite (py_index_in_range _ j 0 Hj). reflexivity.
Qed.

Lemma to_items_loop_row_fails visit row (l : list (TaxId * MultiTree)) tid child :
  (tid, child) ∈ l -> row tid child = None ->
  forall items, to_items_loop visit row l items = None.
Proof.
  intros Hin Hrow. induction l as [|[k c] rest IH]; intros items; [inversion Hin|].
  cbn [to_items_loop].
  apply elem_of_cons in Hin as [Heq|Hin].
  - inversion Heq; subst k c. rewrite Hrow. reflexivity.
  - destruct (row k c) as [list_row|]; [|reflexivity]. cbn [mbind option_bind].
    destruct (match m_children c with
              | [] => Some (items ++ [(k, list_row)])
              | _ :: _ => visit c (items ++ [(k, list_row)])
              end) as [items1|]; [|reflexivity].
    cbn [mbind option_bind]. apply IH. exact Hin.
Qed.

(** A row that cannot be built anywhere in the tree makes the whole
    call fail. *)
Lemma to_items_fails rank_label get_name taxonomy si (self : MultiTree) p parent
    tid child :
  mnode_at self p parent -> (tid, child) ∈ m_children parent ->
  to_items_row rank_label get_name taxonomy parent tid child si = None ->
  forall items, to_items rank_label get_name taxonomy self items si = None.
Proof.
  intros Hat Hin Hrow.
  induction Hat as [t|t k c p n Hk _ IH]; intros items; rewrite to_items_unfold.
  - apply (to_items_loop_row_fails _ _ _ tid child Hin Hrow).
  - specialize (IH Hin Hrow).
    assert (Hkids : m_children c ≠ []).
    { intros Hempty. specialize (IH []). rewrite to_items_unfold, Hempty in IH.
      discriminate. }
    clear - Hk IH Hkids. revert items.
    induction (m_children t) as [|[k' c'] rest IHrest]; intros items;
      [inversion Hk|].
    cbn [to_items_loop].
    destruct (to_items_row rank_label get_name taxonomy t k' c' si) as [list_row|];
      [|reflexivity].
    cbn [mbind option_bind].
    apply elem_of_cons in Hk as [Heq|Hk].
    + inversion Heq; subst k' c'.
      destruct (m_children c) as [|e l]; [contradiction|].
      rewrite IH. reflexivity.
    + destruct (match m_children c' with
                | [] => Some (items ++ [(k', list_row)])
                | _ :: _ =>
                    to_items rank_label get_name taxonomy c'
                      (items ++ [(k', list_row)]) si
                end) as [items1|]; [|reflexivity].
      cbn [mbind option_bind]. apply IHrest. exact Hk.
Qed.

(** X22. One sample index that one entry of the tree, at any depth, does
    not accept for its counts makes the whole call of [to_items] fail
    with [IndexError], whatever the other entries and indexes are. *)
Theorem to_items_index_error rank_label get_name taxonomy (self : MultiTree)
    items (indexes : list Z) p parent tid child i :
  mnode_at self p parent -> (tid, child) ∈ m_children parent ->
  i ∈ indexes -> ~ index_in_range (length (m_counts child)) i ->
  to_items rank_label get_name taxonomy self items (Some indexes) = None.
Proof.
  intros Hat Hin Hi Hout.
  apply (to_items_fails rank_label get_name taxonomy (Some indexes) self p parent
           tid child Hat Hin).
  unfold to_items_row.
  destruct indexes as [|j indexes]; [inversion Hi|].
  destruct (mapM _ (j :: indexes)) as [row|] eqn:Hrow; [|reflexivity].
  exfalso. apply mapM_Some in Hrow.
  apply list_elem_of_lookup_1 in Hi as (pos & Hpos).
  destruct (Forall2_lookup_l _ _ _ _ _ Hrow Hpos) as (y & _ & Hy).
  cbn beta in Hy. rewrite (py_index_out_of_range _ i Hout) in Hy. discriminate.
Qed.

(** X23. Called without sample indexes, [to_items] fails with
    [IndexError] as soon as one entry of the tree, at any depth, has
    fewer counts than the node that holds it has samples. *)
Theorem to_items_short_entry rank_label get_name taxonomy (self : MultiTree)
    items p parent tid child :
  mnode_at self p parent -> (tid, child) ∈ m_children parent ->
  (length (m_counts child) < length (m_samples parent))%nat ->
  to_items rank_label get_name taxonomy self items None = None.
Proof.
  intros Hat Hin Hshort.
  apply (to_items_fails rank_label get_name taxonomy None self p parent
           tid child Hat Hin).
  unfold to_items_row.
  destruct (mapM _ (seq 0 (length (m_samples parent)))) as [l|] eqn:Hl;
    [|reflexivity].
  exfalso. apply mapM_Some in Hl.
  assert (Hpos : seq 0 (length (m_samples parent)) !! length (m_counts child)
                 = Some (length (m_counts child))).
  { apply lookup_seq_lt. exact Hshort. }
  destruct (Forall2_lookup_l _ _ _ _ _ Hl Hpos) as (y & _ & Hy).
  cbn beta in Hy.
  rewrite (proj2 (lookup_ge_None (m_counts child) (length (m_counts child))))
    in Hy by lia.
  destruct (m_accs child !! length (m_counts child)); discriminate.
Qed.

(** The entries in pre-order are the nodes at the paths that are not
    empty, each with the last taxid of its path. *)
Lemma m_preorder_nodes (t : MultiTree) tid n :
  (tid, n) ∈ m_preorder t <-> exists p, mnode_at t (p ++ [tid]) n.
Proof.
  revert tid n.
  induction t as [smp r cs acs ss kids IH] using MultiTree_induction.
  intros tid n. rewrite m_preorder_unfold. cbn [m_children].
  rewrite list_elem_of_In, in_flat_map. split.
  - intros ([k c] & Hin & Hn). apply list_elem_of_In in Hin.
    cbn [snd] in Hn. destruct Hn as [Heq|Hn].
    + inversion Heq; subst k c. exists []. econstructor; [exact Hin|constructor].
    + rewrite Forall_forall in IH. apply list_elem_of_In in Hn.
      apply (IH _ Hin) in Hn as (p & Hp).
      exists (k :: p). econstructor; [exact Hin|exact Hp].
  - intros (p & Hp). destruct p as [|k p].
    + apply mnode_at_cons_inv in Hp as (c & Hin & Hc).
      inversion Hc; subst. exists (tid, n). split; [apply list_elem_of_In; exact Hin|].
      left. reflexivity.
    + cbn [app] in Hp. apply mnode_at_cons_inv in Hp as (c & Hin & Hc).
      exists (k, c). split; [apply list_elem_of_In; exact Hin|].
      right. cbn [snd]. apply list_elem_of_In.
      rewrite Forall_forall in IH. apply (IH _ Hin). exists p. exact Hc.
Qed.

Lemma slots_match_of_nodes (samples : list Sample) (t : MultiTree) :
  m_samples t = samples ->
  (forall p n, mnode_at t p n -> p ≠ [] ->
     m_samples n = samples
     /\ length (m_counts n) = length samples
     /\ length (m_accs n) = length samples
     /\ length (m_score n) = length samples) ->
  slots_match t = true.
Proof.
  induction t as [smp r cs acs ss kids IH] using MultiTree_induction.
  intros Hsamples Hnodes. rewrite slots_match_unfold. cbn [m_children m_samples] in *.
  apply forallb_forall. intros [k c] Hin. apply list_elem_of_In in Hin.
  cbn [snd].
  destruct (Hnodes [k] c) as (Hs & Hc & Ha & Hsc);
    [econstructor; [exact Hin|constructor]|discriminate|].
  rewrite !andb_true_iff, !Nat.eqb_eq, bool_decide_eq_true.
  repeat split; try congruence.
  rewrite Forall_forall in IH. apply (IH _ Hin); [exact Hs|].
  intros p n Hn _. apply (Hnodes (k :: p) n); [|discriminate].
  econstructor; [exact Hin|exact Hn].
Qed.

Lemma triples_fmap (samples : list Sample) (fa fc : Sample -> Z) (fs : Sample -> Score) :
  triples (fa <$> samples) (fc <$> samples) (fs <$> samples)
  = flat_map (fun s => [CellInt (fa s); CellInt (fc s); CellScore (fs s)]) samples.
Proof.
  induction samples as [|s samples IH]; [reflexivity|].
  cbn. rewrite <- IH. reflexivity.
Qed.

Lemma last_of_path (p q : list TaxId) (tid root : TaxId) :
  p ++ [tid] = root :: q -> List.last q root = tid.
Proof.
  destruct p as [|k p]; cbn; intros Heq; inversion Heq; subst; [reflexivity|].
  apply last_last.
Qed.

(** X24. The rows of a grown tree: [MultiTree.grow] from the root on
    tables that hold every sample, followed by [to_items] without sample
    indexes on an empty list, raises nothing; the taxids of the rows are
    those at the end of a chain of the taxonomy from the root that
    repeats no taxid and runs through occupied taxids only, and the row
    of a taxid holds, sample after sample, its accumulated count, its
    count and its score in the tables, zero or no score where a table
    has none, and then its rank and its name. *)
Theorem to_items_of_grown rank_label get_name taxonomy (samples : list Sample)
    (ab ac : gmap Sample (gmap TaxId Z)) (sc : gmap Sample (gmap TaxId Score)) fuel :
  (forall s, s ∈ samples ->
     is_Some (ab !! s) /\ is_Some (ac !! s) /\ is_Some (sc !! s)) ->
  (size (tx_children taxonomy) < fuel)%nat ->
  exists t rows,
    MultiTree_grow fuel taxonomy (Some ab) (Some ac) (Some sc) ROOT []
      (empty_MultiTree samples) = Return t
    /\ to_items rank_label get_name taxonomy t [] None = Some rows
    /\ (forall tid row, (tid, row) ∈ rows ->
          row = table_row rank_label get_name taxonomy samples ab ac sc tid)
    /\ (forall tid, tid ∈ rows.*1 <->
          exists q, tax_chain taxonomy ROOT q /\ NoDup (ROOT :: q)
                    /\ Forall (occupied samples ac) (ROOT :: q)
                    /\ List.last q ROOT = tid).
Proof.
  intros Hkeys Hfuel.
  destruct (MultiTree_grow_from_empty taxonomy samples ab ac sc fuel Hkeys Hfuel)
    as (t & Hrun & Hsamples & Hwhere & Hwhat).
  assert (Hslots : slots_match t = true).
  { apply (slots_match_of_nodes samples); [exact Hsamples|].
    intros p n Hn Hp. destruct (Hwhat p n Hn Hp) as (q & _ & Hs & Hc & Ha & Hsc).
    rewrite Hc, Ha, Hsc, !length_fmap. auto. }
  exists t, (full_row rank_label get_name taxonomy <$> m_preorder t).
  split; [exact Hrun|].
  split.
  { rewrite (to_items_appends rank_label get_name taxonomy None
               (fun kc => (full_row rank_label get_name taxonomy kc).2));
      [reflexivity|].
    apply to_items_row_slots. exact Hslots. }
  split.
  - intros tid row Hin. apply list_elem_of_fmap in Hin as ([k n] & Heq & Hin).
    unfold full_row in Heq. cbn [fst snd] in Heq. inversion Heq; subst k row.
    apply m_preorder_nodes in Hin as (p & Hp).
    destruct (Hwhat _ n Hp) as (q & Hpath & _ & Hc & Ha & Hsc);
      [destruct p; discriminate|].
    apply last_of_path in Hpath. rewrite Hpath in Hc, Ha, Hsc.
    rewrite Hc, Ha, Hsc, triples_fmap. reflexivity.
  - intros tid. rewrite list_elem_of_fmap. split.
    + intros ([k row] & -> & Hin). cbn [fst].
      apply list_elem_of_fmap in Hin as ([k' n] & Heq & Hin).
      unfold full_row in Heq. cbn [fst snd] in Heq. inversion Heq; subst k' row.
      apply m_preorder_nodes in Hin as (p & Hp).
      destruct (Hwhat _ n Hp) as (q & Hpath & _); [destruct p; discriminate|].
      exists q. rewrite Hpath in Hp.
      destruct (proj1 (Hwhere q) (ex_intro _ n Hp)) as (Hchain & Hnd & Hocc).
      apply last_of_path in Hpath. auto.
    + intros (q & Hchain & Hnd & Hocc & Hlast).
      destruct (proj2 (Hwhere q) (conj Hchain (conj Hnd Hocc))) as (n & Hn).
      exists (full_row rank_label get_name taxonomy (tid, n)).
      split; [reflexivity|].
      apply list_elem_of_fmap. exists (tid, n). split; [reflexivity|].
      apply m_preorder_nodes.
      exists (removelast (ROOT :: q)).
      replace (removelast (ROOT :: q) ++ [tid]) with (ROOT :: q); [exact Hn|].
      rewrite <- Hlast. clear. 
      destruct q as [|x q] using rev_ind; [reflexivity|].
      rewrite last_last. rewrite app_comm_cons, removelast_last. reflexivity.
Qed.

(** ** rextract.main *)

Lemma preorder_located_node_at (t : TaxTree) above k n :
  (above, k, n) ∈ preorder_located t <-> node_at t (above ++ [k]) n.
Proof.
  revert above k n.
  induction t as [c r s a kids IH] using TaxTree_induction.
  intros above k n. rewrite preorder_located_unfold. cbn [children].
  rewrite list_elem_of_In, in_flat_map. rewrite Forall_forall in IH. split.
  - intros ([tid child] & Hin & He). apply list_elem_of_In in Hin.
    cbn [fst snd] in He. destruct He as [Heq|He].
    + inversion Heq; subst. econstructor; [exact Hin|constructor].
    + apply list_elem_of_In, list_elem_of_fmap in He as (e & Heq & He).
      destruct e as [[above' k'] n']. unfold loc_push in Heq.
      cbn [loc_above loc_key loc_node fst snd] in Heq. inversion Heq; subst.
      apply (IH _ Hin) in He. cbn [app]. econstructor; [exact Hin|exact He].
  - intros Hn. destruct above as [|tid above].
    + apply node_at_cons_inv in Hn as (child & Hin & Hc). inversion Hc; subst.
      exists (k, n). split; [apply list_elem_of_In; exact Hin|]. left. reflexivity.
    + cbn [app] in Hn. apply node_at_cons_inv in Hn as (child & Hin & Hc).
      exists (tid, child). split; [apply list_elem_of_In; exact Hin|].
      right. cbn [fst snd]. apply list_elem_of_In, list_elem_of_fmap.
      exists (above, k, n). split; [reflexivity|]. apply (IH _ Hin). exact Hc.
Qed.

Lemma record_all_ranks l out :
  out_ranks (record_all l out)
  = fold_left (fun m kc => <[kc.1 := taxlevel kc.2]> m) l <$> out_ranks out.
Proof.
  revert out. induction l as [|kc l IH]; intros out.
  - cbn. destruct (out_ranks out); reflexivity.
  - cbn [record_all fold_left]. fold (record_all l (record_taxon kc.1 kc.2 out)).
    rewrite IH. cbn [record_taxon out_ranks].
    destruct (out_ranks out); reflexivity.
Qed.

(** The taxids that [main] selects, by the flag [in_branch] along the
    chains of the taxonomy. *)
Lemma selected_taxids_branches fuel ncbi (including excluding : gset TaxId) :
  (size (tx_children ncbi) < fuel)%nat ->
  exists taxids,
    selected_taxids fuel ncbi including excluding = Return taxids
    /\ forall tid, tid ∈ taxids <->
         exists q, reached_by ncbi q tid
                   /\ branch_along including excluding false (ROOT :: q) = true.
Proof.
  intros Hfuel. unfold selected_taxids.
  destruct (grow_returns fuel ncbi None None ROOT [] empty_TaxTree) as (t & Hrun).
  { constructor. }
  { intros x Hx. inversion Hx. }
  { simpl. lia. }
  pose proof Hrun as Hspec. apply grow_spec in Hspec; [|constructor].
  destruct Hspec as [[Hin' _]|(_ & node & Ht & Hgrown)]; [inversion Hin'|].
  pose proof Hrun as Hcomp. apply grow_complete in Hcomp.
  2: { constructor. }
  2: { intros x Hx. inversion Hx. }
  2: { simpl. lia. }
  2: { intros Hin'. inversion Hin'. }
  destruct Hcomp as (node2 & Ht2 & Hcomplete).
  assert (node2 = node) as -> by (rewrite Ht in Ht2; cbn in Ht2; congruence).
  assert (Hkids : children t = [(ROOT, node)]) by (rewrite Ht; reflexivity).
  clear Ht Ht2. rewrite Hrun. cbn [obind].
  rewrite get_taxa_selected, record_all_ranks. cbn [out_ranks fmap option_fmap option_map].
  eexists. split; [reflexivity|].
  intros tid. rewrite elem_of_dom. split.
  - intros (v & Hv). apply fold_insert_lookup in Hv as [(n & Hin & _)|Hv];
      [|rewrite lookup_empty in Hv; discriminate].
    apply list_elem_of_fmap in Hin as ([[above k] n'] & Heq & Hin).
    unfold loc_entry in Heq. cbn [loc_key loc_node fst snd] in Heq.
    inversion Heq; subst k n'.
    apply list_elem_of_In, List.filter_In in Hin as [Hin Hsel].
    apply list_elem_of_In, preorder_located_node_at in Hin.
    destruct (above ++ [tid]) as [|k q] eqn:Hpath; [destruct above; discriminate|].
    apply node_at_cons_inv in Hin as (child & Hc & Hn). rewrite Hkids in Hc.
    apply list_elem_of_singleton in Hc. inversion Hc; subst k child.
    destruct (Hgrown _ _ Hn) as (Hnd & Hchain & _).
    exists q. split.
    + split; [exact Hchain|]. split; [exact Hnd|].
      apply (last_of_path above q tid ROOT Hpath).
    + unfold taxa_selected in Hsel. cbn [loc_above loc_key fst snd] in Hsel.
      rewrite Hpath in Hsel. rewrite !andb_true_iff in Hsel. apply Hsel.
  - intros (q & (Hchain & Hnd & Hlast) & Hbranch).
    destruct (Hcomplete q Hchain Hnd) as (n & Hn).
    apply fold_insert_is_Some. left. exists n.
    assert (Hpath : ROOT :: q = removelast (ROOT :: q) ++ [tid]).
    { rewrite <- Hlast. clear.
      destruct q as [|x q] using rev_ind; [reflexivity|].
      rewrite last_last. rewrite app_comm_cons, removelast_last. reflexivity. }
    apply list_elem_of_fmap. exists (removelast (ROOT :: q), tid, n).
    split; [reflexivity|].
    apply list_elem_of_In, List.filter_In. split.
    + apply list_elem_of_In, preorder_located_node_at. rewrite <- Hpath.
      econstructor; [rewrite Hkids; left|exact Hn].
    + unfold taxa_selected. cbn [loc_above loc_key loc_node fst snd].
      rewrite <- Hpath, Hbranch. reflexivity.
Qed.

(** X25. Without [--include], [main] selects the taxids that the
    taxonomy reaches from the root, the root among them, and that are not
    excluded themselves: a taxid below an excluded one stays selected. *)
Theorem selected_taxids_exclude fuel ncbi (excluding : gset TaxId) :
  (size (tx_children ncbi) < fuel)%nat ->
  exists taxids,
    selected_taxids fuel ncbi ∅ excluding = Return taxids
    /\ forall tid, tid ∈ taxids <->
         (exists q, reached_by ncbi q tid) /\ (tid ∉ excluding).
Proof.
  intros Hfuel.
  destruct (selected_taxids_branches fuel ncbi ∅ excluding Hfuel)
    as (taxids & Hrun & Htaxids).
  exists taxids. split; [exact Hrun|]. intros tid. rewrite Htaxids.
  assert (Hbranch : forall q, reached_by ncbi q tid ->
            branch_along ∅ excluding false (ROOT :: q)
            = negb (bool_decide (tid ∈ excluding))).
  { intros q (_ & _ & Hlast). rewrite <- Hlast. clear.
    destruct q as [|x q] using rev_ind.
    - apply (branch_along_no_include excluding false [] ROOT).
    - rewrite last_last, app_comm_cons. apply branch_along_no_include. }
  split.
  - intros (q & Hq & Hb). rewrite (Hbranch q Hq) in Hb.
    apply negb_true_iff, bool_decide_eq_false in Hb. eauto.
  - intros ((q & Hq) & Hex). exists q. split; [exact Hq|].
    rewrite (Hbranch q Hq). apply negb_true_iff, bool_decide_eq_false. exact Hex.
Qed.

(** X26. With [--include], [main] selects the taxids at the end of a
    chain of the taxonomy from the root with an included taxid on it
    from which on no taxid of the chain is excluded: the included taxa
    and everything below them, cut at the excluded taxa. *)
Theorem selected_taxids_include fuel ncbi (including excluding : gset TaxId) :
  including ≠ ∅ ->
  (size (tx_children ncbi) < fuel)%nat ->
  exists taxids,
    selected_taxids fuel ncbi including excluding = Return taxids
    /\ forall tid, tid ∈ taxids <->
         exists q, reached_by ncbi q tid
                   /\ under_include including excluding (ROOT :: q) = true.
Proof.
  intros Hne Hfuel.
  destruct (selected_taxids_branches fuel ncbi including excluding Hfuel)
    as (taxids & Hrun & Htaxids).
  exists taxids. split; [exact Hrun|]. intros tid. rewrite Htaxids.
  split; intros (q & Hq & Hb); exists q; (split; [exact Hq|]).
  - rewrite (branch_along_include including excluding (ROOT :: q) Hne) in Hb.
    exact Hb.
  - rewrite (branch_along_include including excluding (ROOT :: q) Hne).
    exact Hb.
Qed.

Lemma records_loop_result taxids parsed :
  forall i records num_seqs,
    records_loop taxids i parsed records num_seqs
    = (records ++ classified_in taxids parsed,
       match parsed with
       | [] => num_seqs
       | _ :: _ => i + Z.of_nat (length parsed) - 1
       end).
Proof.
  induction parsed as [|record rest IH]; intros i records num_seqs.
  - cbn. rewrite app_nil_r. reflexivity.
  - cbn [records_loop]. rewrite IH. unfold classified_in. cbn [List.filter].
    f_equal.
    + destruct (decide (record_taxid record ∈ taxids)) as [Hin|Hout].
      * rewrite (bool_decide_eq_true_2 _ Hin), <- app_assoc. reflexivity.
      * rewrite (bool_decide_eq_false_2 _ Hout). reflexivity.
    + destruct rest; cbn [length]; lia.
Qed.

Lemma id_count_cons x y ids :
  id_count x (y :: ids) = ((if decide (y = x) then 1 else 0) + id_count x ids)%nat.
Proof.
  unfold id_count. cbn [List.filter].
  destruct (decide (y = x)) as [Heq|Hne].
  - rewrite (bool_decide_eq_true_2 _ Heq). reflexivity.
  - rewrite (bool_decide_eq_false_2 _ Hne). reflexivity.
Qed.

Lemma count_id_cons x r l :
  count_id x (r :: l)
  = ((if decide (record_id r = x) then 1 else 0) + count_id x l)%nat.
Proof.
  unfold count_id. cbn [List.filter].
  destruct (decide (record_id r = x)) as [Heq|Hne].
  - rewrite (bool_decide_eq_true_2 _ Heq). reflexivity.
  - rewrite (bool_decide_eq_false_2 _ Hne). reflexivity.
Qed.

Lemma count_id_ids x l : id_count x (record_id <$> l) = count_id x l.
Proof.
  induction l as [|r l IH]; [reflexivity|].
  rewrite fmap_cons, id_count_cons, count_id_cons, IH. reflexivity.
Qed.

Lemma py_remove_None x ids : py_remove x ids = None -> id_count x ids = 0%nat.
Proof.
  induction ids as [|y ids IH]; [reflexivity|]. cbn [py_remove].
  rewrite id_count_cons. destruct (decide (y = x)); [discriminate|].
  destruct (py_remove x ids); [discriminate|]. intros _. rewrite IH; reflexivity.
Qed.

Lemma py_remove_Some x ids ids' :
  py_remove x ids = Some ids' ->
  forall y, id_count y ids
            = ((if decide (x = y) then 1 else 0) + id_count y ids')%nat.
Proof.
  revert ids'. induction ids as [|z ids IH]; intros ids' Hrem y; [discriminate|].
  cbn [py_remove] in Hrem. rewrite id_count_cons.
  destruct (decide (z = x)) as [->|Hne].
  - inversion Hrem; subst. reflexivity.
  - destruct (py_remove x ids) as [rest|]; [|discriminate].
    inversion Hrem; subst. rewrite id_count_cons, (IH rest eq_refl y). lia.
Qed.

(** The reads that the loop over a FASTQ file keeps. *)
Lemma fastq_single_loop_keeps reads :
  forall records_ids seqs1,
    exists kept,
      fastq_single_loop reads records_ids seqs1 = seqs1 ++ kept
      /\ sublist kept reads
      /\ forall x, count_id x kept
                   = Nat.min (count_id x reads) (id_count x records_ids).
Proof.
  induction reads as [|rec1 rest IH]; intros records_ids seqs1.
  - exists []. rewrite app_nil_r. split; [reflexivity|].
    split; [constructor|]. intros x. reflexivity.
  - cbn [fastq_single_loop].
    destruct (py_remove (record_id rec1) records_ids) as [ids'|] eqn:Hrem.
    + destruct (IH ids' (seqs1 ++ [rec1])) as (kept & Hrun & Hsub & Hcount).
      exists (rec1 :: kept). rewrite Hrun, <- app_assoc.
      split; [reflexivity|]. split; [constructor; exact Hsub|].
      intros x. rewrite !count_id_cons, Hcount.
      rewrite (py_remove_Some _ _ _ Hrem x).
      destruct (decide (record_id rec1 = x)); lia.
    + destruct (IH records_ids seqs1) as (kept & Hrun & Hsub & Hcount).
      exists kept. split; [exact Hrun|]. split; [constructor; exact Hsub|].
      intros x. rewrite count_id_cons, Hcount.
      destruct (decide (record_id rec1 = x)) as [<-|]; [|reflexivity].
      rewrite (py_remove_None _ _ Hrem). lia.
Qed.

(** The pairs of reads that the loop over two FASTQ files keeps. *)
Lemma fastq_paired_loop_keeps reads :
  forall records_ids seqs1 seqs2,
    exists kept,
      fastq_paired_loop reads records_ids seqs1 seqs2
      = (seqs1 ++ kept.*1, seqs2 ++ kept.*2)
      /\ sublist kept reads
      /\ forall x, count_id x kept.*1
                   = Nat.min (count_id x reads.*1) (id_count x records_ids).
Proof.
  induction reads as [|[rec1 rec2] rest IH]; intros records_ids seqs1 seqs2.
  - exists []. cbn. rewrite !app_nil_r. split; [reflexivity|].
    split; [constructor|]. intros x. reflexivity.
  - cbn [fastq_paired_loop].
    destruct (py_remove (record_id rec1) records_ids) as [ids'|] eqn:Hrem.
    + destruct (IH ids' (seqs1 ++ [rec1]) (seqs2 ++ [rec2]))
        as (kept & Hrun & Hsub & Hcount).
      exists ((rec1, rec2) :: kept). rewrite Hrun, <- !app_assoc.
      split; [reflexivity|]. split; [constructor; exact Hsub|].
      intros x. rewrite !fmap_cons. cbn [fst]. rewrite !count_id_cons, Hcount.
      rewrite (py_remove_Some _ _ _ Hrem x).
      destruct (decide (record_id rec1 = x)); lia.
    + destruct (IH records_ids seqs1 seqs2) as (kept & Hrun & Hsub & Hcount).
      exists kept. split; [exact Hrun|]. split; [constructor; exact Hsub|].
      intros x. rewrite fmap_cons. cbn [fst]. rewrite count_id_cons, Hcount.
      destruct (decide (record_id rec1 = x)) as [<-|]; [|reflexivity].
      rewrite (py_remove_None _ _ Hrem). lia.
Qed.

Lemma zip_first {A B : Type} (l : list A) (k : list B) :
  (zip l k).*1 = take (length k) l.
Proof.
  revert k. induction l as [|x l IH]; intros [|y k]; cbn; try reflexivity.
  rewrite <- IH. reflexivity.
Qed.

(** [main] up to the statistics on the matching reads. *)
Lemma main_unfold fuel ncbi including excluding output fastq_1 fastq_2 taxids :
  selected_taxids fuel ncbi including excluding = Return taxids ->
  main fuel ncbi including excluding output fastq_1 fastq_2
  = if (length output <=? 1)%nat then Raise ZeroDivisionError
    else
      let records_ids := record_id <$> classified_in taxids output in
      match fastq_2 with
      | Some mate2 =>
          Return (fastq_paired_loop (zip fastq_1 mate2) records_ids [] [])
      | None => Return (fastq_single_loop fastq_1 records_ids [], [])
      end.
Proof.
  intros Hsel. unfold main. rewrite Hsel. cbn [obind].
  rewrite records_loop_result. cbn [app].
  destruct output as [|r output]; [reflexivity|].
  destruct output as [|r' output]; [reflexivity|].
  cbn [length].
  replace (0 + Z.of_nat (S (S (length output))) - 1 =? 0) with false
    by (symmetry; apply Z.eqb_neq; lia).
  reflexivity.
Qed.

(** X27. [main] stops with [ZeroDivisionError], before it reads a FASTQ
    file, exactly when the output file holds fewer than two records:
    the statistics divide by the index of the last record, not by the
    number of records. *)
Theorem main_zero_division fuel ncbi including excluding output fastq_1 fastq_2 :
  (size (tx_children ncbi) < fuel)%nat ->
  main fuel ncbi including excluding output fastq_1 fastq_2 = Raise ZeroDivisionError
  <-> (length output <= 1)%nat.
Proof.
  intros Hfuel.
  destruct (selected_taxids_branches fuel ncbi including excluding Hfuel)
    as (taxids & Hsel & _).
  rewrite (main_unfold _ _ _ _ _ _ _ taxids Hsel).
  destruct (length output <=? 1)%nat eqn:Hlen.
  - apply Nat.leb_le in Hlen. split; [intros _; exact Hlen|reflexivity].
  - apply Nat.leb_gt in Hlen. split; [|lia].
    cbv zeta. destruct fastq_2; discriminate.
Qed.

(** X28. With a single FASTQ file and at least two records in the output
    file, [main] writes reads of the FASTQ file in the order of the
    file, and for every id as many reads as the file has with this id,
    but not more than there are records with this id classified to a
    selected taxid: a record accounts for one read. *)
Theorem main_single_end fuel ncbi including excluding output fastq :
  (size (tx_children ncbi) < fuel)%nat ->
  (2 <= length output)%nat ->
  exists taxids seqs1,
    selected_taxids fuel ncbi including excluding = Return taxids
    /\ main fuel ncbi including excluding output fastq None = Return (seqs1, [])
    /\ sublist seqs1 fastq
    /\ forall x, count_id x seqs1
                 = Nat.min (count_id x fastq)
                           (count_id x (classified_in taxids output)).
Proof.
  intros Hfuel Hlen.
  destruct (selected_taxids_branches fuel ncbi including excluding Hfuel)
    as (taxids & Hsel & _).
  destruct (fastq_single_loop_keeps fastq
              (record_id <$> classified_in taxids output) [])
    as (kept & Hrun & Hsub & Hcount).
  exists taxids, kept. split; [exact Hsel|].
  rewrite (main_unfold _ _ _ _ _ _ _ taxids Hsel).
  replace (length output <=? 1)%nat with false
    by (symmetry; apply Nat.leb_gt; lia).
  cbv zeta. rewrite Hrun. cbn [app]. split; [reflexivity|].
  split; [exact Hsub|]. intros x. rewrite Hcount, count_id_ids. reflexivity.
Qed.

(** X29. With two FASTQ files and at least two records in the output
    file, [main] writes mates together: the reads written for mate 1 and
    for mate 2 are, position by position, pairs of reads at the same
    position in the two files, in the order of the files and up to the
    end of the shorter one; only the id of the read of mate 1 is looked
    at, and for every id as many pairs are written as there are pairs
    with this id, but not more than there are records with this id
    classified to a selected taxid. *)
Theorem main_paired_end fuel ncbi including excluding output mate1 mate2 :
  (size (tx_children ncbi) < fuel)%nat ->
  (2 <= length output)%nat ->
  exists taxids pairs,
    selected_taxids fuel ncbi including excluding = Return taxids
    /\ main fuel ncbi including excluding output mate1 (Some mate2)
       = Return (pairs.*1, pairs.*2)
    /\ sublist pairs (zip mate1 mate2)
    /\ forall x, count_id x pairs.*1
                 = Nat.min (count_id x (take (length mate2) mate1))
                           (count_id x (classified_in taxids output)).
Proof.
  intros Hfuel Hlen.
  destruct (selected_taxids_branches fuel ncbi including excluding Hfuel)
    as (taxids & Hsel & _).
  destruct (fastq_paired_loop_keeps (zip mate1 mate2)
              (record_id <$> classified_in taxids output) [] [])
    as (kept & Hrun & Hsub & Hcount).
  exists taxids, kept. split; [exact Hsel|].
  rewrite (main_unfold _ _ _ _ _ _ _ taxids Hsel).
  replace (length output <=? 1)%nat with false
    by (symmetry; apply Nat.leb_gt; lia).
  cbv zeta. rewrite Hrun. cbn [app]. split; [reflexivity|].
  split; [exact Hsub|]. intros x.
  rewrite Hcount, count_id_ids, zip_first. reflexivity.
Qed.

End Trees.

(** * The properties on concrete trees *)

(** Taxids and samples are strings, the root is ["1"]; ranks and scores
    are those of [level_RankOps] and [rational_ScoreOps]. *)

Local Open Scope string_scope.

(** C2 on the tree 1→A→B→C with counts 1, 2, 3 and 4, pruned below 4. *)
Lemma prune_collapse_conservation_witness :
  nonneg_counts
    (chain4 "1" "A" "B" "C" (new_TaxTree 1 1%nat 1%Q) (new_TaxTree 2 2%nat 2%Q)
       (new_TaxTree 3 3%nat 3%Q) (new_TaxTree 4 4%nat 4%Q)) = true
  /\ exists b t',
       prune 4 None true
         (chain4 "1" "A" "B" "C" (new_TaxTree 1 1%nat 1%Q) (new_TaxTree 2 2%nat 2%Q)
            (new_TaxTree 3 3%nat 3%Q) (new_TaxTree 4 4%nat 4%Q)) = Return (b, t')
       /\ total_counts t'
          = total_counts
              (chain4 "1" "A" "B" "C" (new_TaxTree 1 1%nat 1%Q)
                 (new_TaxTree 2 2%nat 2%Q) (new_TaxTree 3 3%nat 3%Q)
                 (new_TaxTree 4 4%nat 4%Q)).
Proof.
  split; [reflexivity|].
  apply (prune_collapse_conservation 4 None). reflexivity.
Defined.

(** C3 on a taxonomy where the root lists itself and A lists the root. *)
Lemma grow_cycle_safe_witness :
  (size (tx_children
           {| tx_children := {[ "1" := ["1"; "A"]; "A" := ["1"] ]};
              get_rank := fun _ : string => 1%nat |}) < 3)%nat
  /\ exists t : TaxTree,
       grow "1" 3
         {| tx_children := {[ "1" := ["1"; "A"]; "A" := ["1"] ]};
            get_rank := fun _ : string => 1%nat |}
         None (@None (gmap string Q)) "1" [] empty_TaxTree = Return t
       /\ forall p n, node_at t p n -> NoDup p.
Proof.
  assert (Hsize : (size (tx_children
                     {| tx_children := {[ "1" := ["1"; "A"]; "A" := ["1"] ]};
                        get_rank := fun _ : string => 1%nat |}) < 3)%nat)
    by (vm_compute; lia).
  split; [exact Hsize|].
  apply (grow_cycle_safe "1"). exact Hsize.
Defined.

(** C6 on two samples over the taxonomy 1→X, 1→Y: the first sample has
    reads of X only, the second of Y only. *)
Lemma multi_grow_union_witness :
  (size (tx_children
           {| tx_children := {[ "1" := ["X"; "Y"] ]};
              get_rank := fun _ : string => 1%nat |}) < 2)%nat
  /\ exists (tables : string -> sample_table) (t : MultiTree),
       (forall s,
          sample_tables "1" 2
            {| tx_children := {[ "1" := ["X"; "Y"] ]};
               get_rank := fun _ : string => 1%nat |}
            (if decide (s = "s1") then Some {[ "X" := 5 ]} else Some {[ "Y" := 2 ]})
            (@None (gmap string Q))
          = Return (tables s))
       /\ MultiTree_grow "1" 2
            {| tx_children := {[ "1" := ["X"; "Y"] ]};
               get_rank := fun _ : string => 1%nat |}
            (Some (per_sample ["s1"; "s2"] (fun s => st_abundance (tables s))))
            (Some (per_sample ["s1"; "s2"] (fun s => st_accs (tables s))))
            (Some (per_sample ["s1"; "s2"] (fun s => st_scores (tables s))))
            "1" [] (empty_MultiTree ["s1"; "s2"]) = Return t
       /\ (forall x,
             (exists p n, mnode_at t (p ++ [x]) n)
             <-> exists s, s ∈ ["s1"; "s2"]
                           /\ default 0 (st_accs (tables s) !! x) ≠ 0)
       /\ (forall x p n i s,
             mnode_at t (p ++ [x]) n -> ["s1"; "s2"] !! i = Some s ->
             default 0 (st_accs (tables s) !! x) = 0 ->
             m_counts n !! i = Some 0 /\ m_accs n !! i = Some 0).
Proof.
  assert (Hsize : (size (tx_children
                     {| tx_children := {[ "1" := ["X"; "Y"] ]};
                        get_rank := fun _ : string => 1%nat |}) < 2)%nat)
    by (vm_compute; lia).
  split; [exact Hsize|].
  apply (multi_grow_union "1").
  exact Hsize.
Defined.

(** The claim of C7 fails on the tree 1→A→B→C: with [mindepth=2] and
    [maxdepth=2] no dictionary receives anything, B is not recorded. *)
Lemma get_taxa_depth_2_2_records_nothing :
  get_taxa
    (chain4 "1" "A" "B" "C" (new_TaxTree 1 1%nat 1%Q) (new_TaxTree 2 2%nat 2%Q)
       (new_TaxTree 3 3%nat 3%Q) (new_TaxTree 4 4%nat 4%Q))
    no_taxa 2 2 ∅ ∅ None false = no_taxa
  /\ out_abundance
       (get_taxa
          (chain4 "1" "A" "B" "C" (new_TaxTree 1 1%nat 1%Q)
             (new_TaxTree 2 2%nat 2%Q) (new_TaxTree 3 3%nat 3%Q)
             (new_TaxTree 4 4%nat 4%Q))
          no_taxa 2 2 ∅ ∅ None false)
     ≠ Some {[ "B" := 3 ]}.
Proof.
  assert (Hrun : get_taxa
            (chain4 "1" "A" "B" "C" (new_TaxTree 1 1%nat 1%Q)
               (new_TaxTree 2 2%nat 2%Q) (new_TaxTree 3 3%nat 3%Q)
               (new_TaxTree 4 4%nat 4%Q))
            no_taxa 2 2 ∅ ∅ None false = no_taxa).
  { unfold chain4, with_children. rewrite !get_taxa_unfold. reflexivity. }
  split; [exact Hrun|].
  rewrite Hrun. cbn [no_taxa out_abundance]. intros Heq.
  apply (f_equal (fun m => m ≫= (.!! "B"))) in Heq. cbn in Heq.
  rewrite lookup_empty, lookup_singleton_eq in Heq. discriminate.
Qed.

(** The claim of C8 fails for the root: with an empty [parents] the
    root is missing in it, and yet it gets its entry and no warning. *)
Lemma get_lineage_root_missing_in_parents :
  (∅ : gmap string string) !! "1" = None
  /\ get_lineage "1"
       (chain3 "1" "A" "B" (new_TaxTree 1 1%nat 1%Q) (new_TaxTree 2 2%nat 2%Q)
          (new_TaxTree 3 3%nat 3%Q))
       ∅ ["1"]
     = ([LogGettingLineage; LogOK], {[ "1" := ["1"] ]}).
Proof.
  split; [apply lookup_empty|].
  unfold get_lineage. cbn [fold_left]. unfold get_lineage_step.
  destruct (decide ("1" = "1")); [reflexivity|contradiction].
Qed.

(** The claim of C9 fails on the taxonomy 1→X: grown without
    abundances, the tree has two nodes. *)
Lemma grow_missing_abundances_two_nodes :
  exists t : TaxTree,
    grow "1" 2
      {| tx_children := {[ "1" := ["X"] ]}; get_rank := fun _ : string => 1%nat |}
      None (@None (gmap string Q)) "1" [] empty_TaxTree = Return t
    /\ count_nodes t = 2%nat
    /\ count_nodes t ≠ 1%nat.
Proof.
  eexists. split; [vm_compute; reflexivity|].
  split; [reflexivity|discriminate].
Qed.

(** C8 (as the code has it) on the tree 1→A→B, and on a request that
    holds the unknown taxid Z. *)
Lemma get_lineage_correct_witness :
  ("B" ≠ "1" /\ "A" ≠ "B"
   /\ is_Some (({[ "B" := "A"; "A" := "1"; "1" := "1" ]} : gmap string string) !! "B"))
  /\ get_lineage "1"
       (chain3 "1" "A" "B" (new_TaxTree 1 1%nat 1%Q) (new_TaxTree 2 2%nat 2%Q)
          (new_TaxTree 3 3%nat 3%Q))
       {[ "B" := "A"; "A" := "1"; "1" := "1" ]} ["B"]
     = ([LogGettingLineage; LogOK], {[ "B" := ["1"; "A"; "B"] ]})
  /\ ("Z" ≠ "1"
      /\ ({[ "B" := "A"; "A" := "1"; "1" := "1" ]} : gmap string string) !! "Z" = None)
  /\ (get_lineage "1"
        (chain3 "1" "A" "B" (new_TaxTree 1 1%nat 1%Q) (new_TaxTree 2 2%nat 2%Q)
           (new_TaxTree 3 3%nat 3%Q))
        {[ "B" := "A"; "A" := "1"; "1" := "1" ]} ["B"; "Z"; "A"]).2 !! "Z" = None.
Proof.
  assert (Hb : "B" ≠ "1") by discriminate.
  assert (Hab : "A" ≠ "B") by discriminate.
  assert (Hparent : is_Some (({[ "B" := "A"; "A" := "1"; "1" := "1" ]}
                               : gmap string string) !! "B"))
    by (exists "A"; vm_compute; reflexivity).
  assert (Hz : "Z" ≠ "1") by discriminate.
  assert (Hnone : ({[ "B" := "A"; "A" := "1"; "1" := "1" ]}
                     : gmap string string) !! "Z" = None)
    by (vm_compute; reflexivity).
  split; [auto|].
  split.
  { apply (proj1 (get_lineage_correct "1")); assumption. }
  split; [auto|].
  apply (proj2 (get_lineage_correct (Rank := nat) (Score := Q) "1")); assumption.
Defined.

(** C9 (as the code has it) on the taxonomy 1→X, without abundances. *)
Lemma grow_missing_abundances_witness :
  ((@None (gmap string Z) = None \/ @None (gmap string Z) = Some ∅)
   /\ (size (tx_children
               {| tx_children := {[ "1" := ["X"] ]};
                  get_rank := fun _ : string => 1%nat |}) < 2)%nat)
  /\ grow "1" 2
       {| tx_children := {[ "1" := ["X"] ]}; get_rank := fun _ : string => 1%nat |}
       None (@None (gmap string Q)) "1" [] empty_TaxTree
     = grow "1" 2
         {| tx_children := {[ "1" := ["X"] ]}; get_rank := fun _ : string => 1%nat |}
         (Some {[ "1" := 1 ]}) None "1" [] empty_TaxTree
  /\ exists t t' : TaxTree,
       grow "1" 2
         {| tx_children := {[ "1" := ["X"] ]}; get_rank := fun _ : string => 1%nat |}
         None (@None (gmap string Q)) "1" [] empty_TaxTree = Return t
       /\ shape t = Return t'
       /\ children t' = [("1", Node 1 1%nat (default NO_SCORE
                                               (default_scores None !! "1")) 1 [])]
       /\ count_nodes t' = 1%nat.
Proof.
  assert (Hmissing : @None (gmap string Z) = None \/ @None (gmap string Z) = Some ∅)
    by (left; reflexivity).
  assert (Hsize : (size (tx_children
                     {| tx_children := {[ "1" := ["X"] ]};
                        get_rank := fun _ : string => 1%nat |}) < 2)%nat)
    by (vm_compute; lia).
  split; [auto|].
  apply (grow_missing_abundances "1"
           {| tx_children := {[ "1" := ["X"] ]}; get_rank := fun _ : string => 1%nat |}
           None (@None (gmap string Q)) 2 Hmissing Hsize).
Defined.

(** C10 on the tree 1→A→B→C, and on a leaf without counts pruned into
    a node without counts. *)
Lemma score_divisions_guarded_witness :
  (exists t', shape
                (chain4 "1" "A" "B" "C" (new_TaxTree 0 1%nat 1%Q)
                   (new_TaxTree 0 2%nat 2%Q) (new_TaxTree 0 3%nat 3%Q)
                   (new_TaxTree 4 4%nat 4%Q)) = Return t')
  /\ (exists r, prune 5 None true
                  (chain4 "1" "A" "B" "C" (new_TaxTree 0 1%nat 1%Q)
                     (new_TaxTree 0 2%nat 2%Q) (new_TaxTree 0 3%nat 3%Q)
                     (new_TaxTree 4 4%nat 4%Q)) = Return r)
  /\ (ps_counts (PruneState 0 3%Q 7) + counts (new_TaxTree (TaxId := string) 0 4%nat 4%Q) = 0
      /\ prune_leaf true (PruneState 0 3%Q 7) (new_TaxTree (TaxId := string) 0 4%nat 4%Q)
         = Return (PruneState 0 3%Q 7)).
Proof.
  pose proof (score_divisions_guarded (TaxId := string) (Rank := nat) (Score := Q))
    as (_ & Hshape & Hprune & _ & _ & Hzero & _).
  split; [apply Hshape|].
  split; [apply Hprune|].
  split; [reflexivity|].
  apply Hzero. reflexivity.
Defined.

(** C1 on the tree 1→A, 1→B, 1→C with counts 0, 2, 0 and 6: C has
    reads and stays, with its counts. *)
Lemma shape_conservation_witness :
  let t : TaxTree :=
    with_children empty_TaxTree
      [("1", with_children (new_TaxTree 0 1%nat 1%Q)
               [("A", new_TaxTree 2 2%nat 3%Q);
                ("B", new_TaxTree 0 2%nat 5%Q);
                ("C", new_TaxTree 6 2%nat 1%Q)])] in
  live_at t ["1"; "C"] (new_TaxTree 6 2%nat 1%Q)
  /\ exists t',
       shape t = Return t'
       /\ (forall p n, node_at t' p n ->
             acc n = counts n + sum_acc (children n) /\ acc n = total_counts n)
       /\ acc t' = total_counts t'
       /\ acc t' = total_counts t
       /\ (forall p n, node_at t' p n ->
             exists n0, live_at t p n0
                        /\ counts n = counts n0 /\ acc n = total_counts n0)
       /\ (forall p n0, live_at t p n0 ->
             exists n, node_at t' p n
                       /\ counts n = counts n0 /\ acc n = total_counts n0).
Proof.
  intros t. split.
  - apply live_at_child with (child := with_children (new_TaxTree 0 1%nat 1%Q)
                                        [("A", new_TaxTree 2 2%nat 3%Q);
                                         ("B", new_TaxTree 0 2%nat 5%Q);
                                         ("C", new_TaxTree 6 2%nat 1%Q)]);
      [left|vm_compute; discriminate|].
    apply live_at_child with (child := new_TaxTree 6 2%nat 1%Q);
      [right; right; left|vm_compute; discriminate|constructor].
  - apply (shape_conservation t).
Defined.

(** C5 on the same tree: the root entry has no counts of its own and
    reads below it. *)
Lemma shape_scores_witness :
  let root : TaxTree :=
    with_children (new_TaxTree 0 1%nat 1%Q)
      [("A", new_TaxTree 2 2%nat 3%Q);
       ("B", new_TaxTree 0 2%nat 5%Q);
       ("C", new_TaxTree 6 2%nat 1%Q)] in
  let t : TaxTree := with_children empty_TaxTree [("1", root)] in
  (live_at t ["1"] root /\ counts root = 0 /\ total_counts root ≠ 0)
  /\ exists t',
       shape t = Return t'
       /\ (forall p n', node_at t' p n' ->
            (counts n' = 0 -> acc n' ≠ 0 ->
               acc n' = sum_acc (children n')
               /\ score n' = acc_weighted_average (children n'))
            /\ (counts n' ≠ 0 ->
                  exists n, node_at t p n /\ counts n = counts n'
                            /\ score n' = score n))
       /\ (forall p n', node_at t' p n' ->
             exists n, live_at t p n
                       /\ counts n' = counts n /\ acc n' = total_counts n)
       /\ (forall p n, live_at t p n ->
             exists n', node_at t' p n'
               /\ counts n' = counts n /\ acc n' = total_counts n
               /\ (counts n ≠ 0 -> score n' = score n)
               /\ (counts n = 0 -> total_counts n ≠ 0 ->
                     acc n' = sum_acc (children n')
                     /\ score n' = acc_weighted_average (children n'))).
Proof.
  intros root t. split.
  - split; [|split; [reflexivity|vm_compute; discriminate]].
    apply live_at_child with (child := root);
      [left|vm_compute; discriminate|constructor].
  - apply (shape_scores t).
Defined.

(** * Further properties on concrete trees *)

(** X2 on the tree 1→A→B→C with B excluded. *)
Lemma get_taxa_never_excluded_witness :
  let t := (chain4 "1" "A" "B" "C" (new_TaxTree 1 1%nat 1%Q) (new_TaxTree 2 2%nat 2%Q)
       (new_TaxTree 3 3%nat 3%Q) (new_TaxTree 4 4%nat 4%Q)) in
  "B" ∈ ({[ "B" ]} : gset string)
  /\ taxa_at "B" (get_taxa t no_taxa 0 0 ∅ {[ "B" ]} None false)
     = taxa_at "B" no_taxa.
Proof.
  cbv zeta. split; [apply elem_of_singleton; reflexivity|].
  apply get_taxa_never_excluded. apply elem_of_singleton. reflexivity.
Defined.

(** X3 on the tree 1→A→B→C with A excluded. *)
Lemma get_taxa_exclude_is_per_node_witness :
  let t := (chain4 "1" "A" "B" "C" (new_TaxTree 1 1%nat 1%Q) (new_TaxTree 2 2%nat 2%Q)
       (new_TaxTree 3 3%nat 3%Q) (new_TaxTree 4 4%nat 4%Q)) in
  (0 <= 1 /\ 0 <= 0)
  /\ get_taxa t no_taxa 0 0 ∅ {[ "A" ]} None false
     = record_all
         (List.filter
            (fun kc => negb (bool_decide (kc.1 ∈ ({[ "A" ]} : gset string))))
            (preorder t))
         no_taxa.
Proof.
  cbv zeta. split; [lia|].
  apply get_taxa_exclude_is_per_node; lia.
Defined.

(** X4 on the tree 1→A→B→C with A included and C excluded. *)
Lemma get_taxa_include_branches_witness :
  let t := (chain4 "1" "A" "B" "C" (new_TaxTree 1 1%nat 1%Q) (new_TaxTree 2 2%nat 2%Q)
       (new_TaxTree 3 3%nat 3%Q) (new_TaxTree 4 4%nat 4%Q)) in
  (({[ "A" ]} : gset string) ≠ ∅ /\ 0 <= 1 /\ 0 <= 0)
  /\ get_taxa t no_taxa 0 0 {[ "A" ]} {[ "C" ]} None false
     = record_all
         (loc_entry <$> List.filter
            (fun e => under_include {[ "A" ]} {[ "C" ]} (loc_above e ++ [loc_key e]))
            (preorder_located t))
         no_taxa.
Proof.
  cbv zeta. split; [split; [apply non_empty_singleton_L|lia]|].
  apply get_taxa_include_branches; [apply non_empty_singleton_L|lia|lia].
Defined.

(** X5 on the tree 1→A→B→C with counts 1, 2, 3 and 4. *)
Lemma shape_keeps_reads_witness :
  let t := (chain4 "1" "A" "B" "C" (new_TaxTree 1 1%nat 1%Q) (new_TaxTree 2 2%nat 2%Q)
       (new_TaxTree 3 3%nat 3%Q) (new_TaxTree 4 4%nat 4%Q)) in
  nonneg_counts t = true
  /\ exists t',
       shape t = Return t'
       /\ acc t' = total_counts t
       /\ forall p n0, node_at t p n0 -> total_counts n0 ≠ 0 ->
            exists n, node_at t' p n /\ counts n = counts n0
                      /\ acc n = total_counts n0.
Proof.
  cbv zeta. split; [reflexivity|].
  apply shape_keeps_reads. reflexivity.
Defined.

(** X10 on the tree 1→A→B→C, pruned below 4 without collapse. *)
Lemma prune_without_collapse_witness :
  let t := (chain4 "1" "A" "B" "C" (new_TaxTree 1 1%nat 1%Q) (new_TaxTree 2 2%nat 2%Q)
       (new_TaxTree 3 3%nat 3%Q) (new_TaxTree 4 4%nat 4%Q)) in
  nonneg_counts t = true
  /\ exists b t',
       prune 4 None false t = Return (b, t')
       /\ forall p n', node_at t' p n' ->
            exists n0, node_at t p n0
              /\ taxlevel n' = taxlevel n0 /\ counts n' = counts n0
              /\ score n' = score n0
              /\ (0 <= acc n0 -> 0 <= acc n' <= acc n0).
Proof.
  cbv zeta. split; [reflexivity|].
  apply prune_without_collapse. reflexivity.
Defined.

(** X11 on the tree 1→A→B→C, pruned below 5 with collapse. *)
Lemma prune_collapse_moves_up_witness :
  let t := (chain4 "1" "A" "B" "C" (new_TaxTree 1 1%nat 1%Q) (new_TaxTree 2 2%nat 2%Q)
       (new_TaxTree 3 3%nat 3%Q) (new_TaxTree 4 4%nat 4%Q)) in
  nonneg_counts t = true
  /\ exists b t',
       prune 5 None true t = Return (b, t')
       /\ forall p n', node_at t' p n' ->
            exists n0, node_at t p n0
              /\ taxlevel n' = taxlevel n0 /\ counts n0 <= counts n'
              /\ acc n' = acc n0.
Proof.
  cbv zeta. split; [reflexivity|].
  apply prune_collapse_moves_up. reflexivity.
Defined.

(** X9 on the tree 1→A with counts 5 and 7, pruned below 2. *)
Lemma prune_nothing_to_prune_witness :
  let t := with_children empty_TaxTree
             [("1", with_children (new_TaxTree 5 1%nat 1%Q)
                      [("A", new_TaxTree 7 2%nat 1%Q)])] in
  (forall p n, node_at t p n -> p ≠ [] -> 2 <= counts n)
  /\ prune 2 None true t = Return (has_entries t, t).
Proof.
  cbv zeta.
  assert (Hcounts : forall p n,
            node_at
              (with_children empty_TaxTree
                 [("1", with_children (new_TaxTree 5 1%nat 1%Q)
                          [("A", new_TaxTree 7 2%nat 1%Q)])]) p n ->
            p ≠ [] -> 2 <= counts n).
  { intros p n Hn Hp.
    destruct p as [|k p]; [contradiction|].
    apply node_at_cons_inv in Hn as (c1 & Hin & Hn). cbn in Hin.
    apply list_elem_of_singleton in Hin. inversion Hin; subst k c1.
    destruct p as [|k p]; [inversion Hn; subst; cbn; lia|].
    apply node_at_cons_inv in Hn as (c2 & Hin2 & Hn). cbn in Hin2.
    apply list_elem_of_singleton in Hin2. inversion Hin2; subst k c2.
    destruct p as [|k p]; [inversion Hn; subst; cbn; lia|].
    apply node_at_cons_inv in Hn as (c3 & Hin3 & _). cbn in Hin3. inversion Hin3. }
  split; [exact Hcounts|].
  apply prune_nothing_to_prune. exact Hcounts.
Defined.

(** X12 on the taxonomy 1→X, 1→Y. *)
Lemma grow_mirrors_taxonomy_witness :
  let taxonomy := {| tx_children := {[ "1" := ["X"; "Y"] ]};
                 get_rank := fun _ : string => 1%nat |} in
  (size (tx_children taxonomy) < 2)%nat
  /\ exists t node,
       grow "1" 2 taxonomy None (@None (gmap string Q)) "1" [] empty_TaxTree
       = Return t
       /\ children t = [("1", node)]
       /\ (forall q n, node_at node q n ->
             NoDup ("1" :: q) /\ tax_chain taxonomy "1" q
             /\ counts n = default 0 (default_abundances "1" None !! List.last q "1")
             /\ score n = default NO_SCORE (default_scores None !! List.last q "1")
             /\ taxlevel n = get_rank taxonomy (List.last q "1")
             /\ acc n = 0)
       /\ (forall q, tax_chain taxonomy "1" q -> NoDup ("1" :: q) ->
             exists n, node_at node q n).
Proof.
  cbv zeta.
  assert (Hsize : (size (tx_children {| tx_children := {[ "1" := ["X"; "Y"] ]};
                 get_rank := fun _ : string => 1%nat |}) < 2)%nat) by (vm_compute; lia).
  split; [exact Hsize|].
  apply (grow_mirrors_taxonomy "1"). exact Hsize.
Defined.

(** X16 on the taxonomy 1→A→B, for the lineage of B. *)
Lemma get_lineage_of_grown_witness :
  let taxonomy := {| tx_children := {[ "1" := ["A"]; "A" := ["B"] ]};
                     get_rank := fun _ : string => 1%nat |} in
  let parents : gmap string string := {[ "B" := "A"; "A" := "1"; "1" := "1" ]} in
  ((size (tx_children taxonomy) < 3)%nat
   /\ "B" ∈ ["B"] /\ "B" ≠ "1" /\ is_Some (parents !! "B"))
  /\ exists t,
       grow "1" 3 taxonomy None (@None (gmap string Q)) "1" [] empty_TaxTree
       = Return t
       /\ (forall l, (get_lineage "1" t parents ["B"]).2 !! "B" = Some l ->
             exists q, l = "1" :: q ++ ["B"]
                       /\ tax_chain taxonomy "1" (q ++ ["B"]) /\ NoDup l)
       /\ (is_Some ((get_lineage "1" t parents ["B"]).2 !! "B")
           <-> exists q, tax_chain taxonomy "1" (q ++ ["B"])
                         /\ NoDup ("1" :: q ++ ["B"])).
Proof.
  cbv zeta.
  assert (Hsize : (size (tx_children
                     {| tx_children := {[ "1" := ["A"]; "A" := ["B"] ]};
                        get_rank := fun _ : string => 1%nat |}) < 3)%nat)
    by (vm_compute; lia).
  assert (Hin : "B" ∈ ["B"]) by left.
  assert (Hroot : "B" ≠ "1") by discriminate.
  assert (Hparent : is_Some (({[ "B" := "A"; "A" := "1"; "1" := "1" ]}
                              : gmap string string) !! "B"))
    by (vm_compute; eauto).
  split; [auto|].
  apply (get_lineage_of_grown "1"); assumption.
Defined.

(** X17 on two samples, the second without a table of abundances. *)
Lemma MultiTree_grow_missing_sample_witness :
  let taxonomy := {| tx_children := {[ "1" := ["X"; "Y"] ]};
                 get_rank := fun _ : string => 1%nat |} in
  let abundances : option (gmap string (gmap string Z)) :=
    Some {[ "s1" := {[ "1" := 1 ]} ]} in
  let self : MultiTree := empty_MultiTree ["s1"; "s2"] in
  (("1" ∉ ([] : list string))
   /\ "s2" ∈ m_samples self
   /\ (default_per_sample (m_samples self) ({[ "1" := 1 ]} : gmap string Z)
         abundances !! "s2" = None
       \/ default_per_sample (m_samples self) ({[ "1" := 1 ]} : gmap string Z)
            None !! "s2" = None
       \/ default_per_sample (m_samples self) (∅ : gmap string Q) None !! "s2" = None))
  /\ MultiTree_grow "1" 1 taxonomy abundances None None "1" [] self
     = Raise KeyError.
Proof.
  cbv zeta.
  assert (Hpath : "1" ∉ ([] : list string)) by (intros Hin; inversion Hin).
  assert (Hsample : "s2" ∈ m_samples
                      (empty_MultiTree (TaxId := string) (Rank := nat) (Score := Q)
                         ["s1"; "s2"]))
    by (right; left).
  assert (Htable : default_per_sample ["s1"; "s2"] ({[ "1" := 1 ]} : gmap string Z)
                     (Some {[ "s1" := {[ "1" := 1 ]} ]}) !! "s2" = None)
    by (vm_compute; reflexivity).
  split; [split; [exact Hpath|split; [exact Hsample|left; exact Htable]]|].
  apply (MultiTree_grow_missing_sample "1" 0 _ _ _ _ _ _ _ "s2");
    [exact Hpath|exact Hsample|].
  left. exact Htable.
Defined.

(** X18 on two samples and the taxonomy 1→X, 1→Y. *)
Lemma MultiTree_grow_defaults_witness :
  let taxonomy := {| tx_children := {[ "1" := ["X"; "Y"] ]};
                 get_rank := fun _ : string => 1%nat |} in
  let samples := ["s1"; "s2"] in
  (samples ≠ [] /\ (size (tx_children taxonomy) < 2)%nat)
  /\ MultiTree_grow "1" 2 taxonomy None None None "1" [] (empty_MultiTree samples)
     = Return
         (MNode samples UNCLASSIFIED ((fun _ => 0) <$> samples)
            ((fun _ => 0) <$> samples) ((fun _ => (NO_SCORE : Q)) <$> samples)
            [("1", MNode samples (get_rank taxonomy "1")
                     ((fun _ => 1) <$> samples) ((fun _ => 1) <$> samples)
                     ((fun _ => NO_SCORE) <$> samples) [])]).
Proof.
  cbv zeta.
  assert (Hsize : (size (tx_children {| tx_children := {[ "1" := ["X"; "Y"] ]};
                 get_rank := fun _ : string => 1%nat |}) < 2)%nat) by (vm_compute; lia).
  split; [split; [discriminate|exact Hsize]|].
  apply (MultiTree_grow_defaults "1"); [discriminate|exact Hsize].
Defined.

(** X19 on two samples over the taxonomy 1→X, 1→Y: the first sample
    has reads of X only, the second of Y only. *)
Lemma MultiTree_grow_occupied_chains_witness :
  let taxonomy := {| tx_children := {[ "1" := ["X"; "Y"] ]};
                 get_rank := fun _ : string => 1%nat |} in
  let samples := ["s1"; "s2"] in
  let ab : gmap string (gmap string Z) := {[ "s1" := {[ "X" := 5 ]}; "s2" := {[ "Y" := 2 ]} ]} in
  let ac : gmap string (gmap string Z) := {[ "s1" := {[ "1" := 5; "X" := 5 ]}; "s2" := {[ "1" := 2; "Y" := 2 ]} ]} in
  let sc : gmap string (gmap string Q) := {[ "s1" := ∅; "s2" := ∅ ]} in
  ((forall s, s ∈ samples ->
      is_Some (ab !! s) /\ is_Some (ac !! s) /\ is_Some (sc !! s))
   /\ (size (tx_children taxonomy) < 2)%nat)
  /\ exists t,
       MultiTree_grow "1" 2 taxonomy (Some ab) (Some ac) (Some sc) "1" []
         (empty_MultiTree samples) = Return t
       /\ (forall q, (exists n, mnode_at t ("1" :: q) n)
                     <-> tax_chain taxonomy "1" q /\ NoDup ("1" :: q)
                         /\ Forall (occupied samples ac) ("1" :: q))
       /\ (forall p n, mnode_at t p n -> p ≠ [] ->
             exists q, p = "1" :: q
               /\ m_counts n = table_value ab 0 (List.last q "1") <$> samples
               /\ m_accs n = table_value ac 0 (List.last q "1") <$> samples
               /\ m_score n = table_value sc NO_SCORE (List.last q "1") <$> samples).
Proof.
  cbv zeta.
  assert (Hkeys : forall s, s ∈ ["s1"; "s2"] ->
            is_Some (({[ "s1" := {[ "X" := 5 ]}; "s2" := {[ "Y" := 2 ]} ]} : gmap string (gmap string Z)) !! s)
            /\ is_Some (({[ "s1" := {[ "1" := 5; "X" := 5 ]}; "s2" := {[ "1" := 2; "Y" := 2 ]} ]} : gmap string (gmap string Z)) !! s)
            /\ is_Some (({[ "s1" := ∅; "s2" := ∅ ]} : gmap string (gmap string Q)) !! s)).
  { intros s Hs. apply elem_of_cons in Hs as [->|Hs];
      [|apply list_elem_of_singleton in Hs; subst s];
      (split; [|split]); vm_compute; eauto. }
  assert (Hsize : (size (tx_children {| tx_children := {[ "1" := ["X"; "Y"] ]};
                 get_rank := fun _ : string => 1%nat |}) < 2)%nat) by (vm_compute; lia).
  split; [split; [exact Hkeys|exact Hsize]|].
  apply (MultiTree_grow_occupied_chains "1"); [exact Hkeys|exact Hsize].
Defined.

(** X20 on a tree of two samples with the entries 1, X and Y. *)
Lemma to_items_rows_witness :
  let taxonomy := {| tx_children := {[ "1" := ["X"; "Y"] ]};
                 get_rank := fun _ : string => 1%nat |} in
  let self : MultiTree := (MNode (Rank := nat) ["s1"; "s2"] 0%nat [0; 0] [0; 0] [1%Q; 1%Q]
       [("1", MNode ["s1"; "s2"] 1%nat [0; 0] [7; 2] [1%Q; 1%Q]
                [("X", MNode ["s1"; "s2"] 2%nat [5; 0] [5; 0] [1%Q; 1%Q] []);
                 ("Y", MNode ["s1"; "s2"] 2%nat [2; 2] [2; 2] [1%Q; 1%Q] [])])]) in
  slots_match self = true
  /\ to_items (fun _ : nat => "rank") (fun tid : string => tid) taxonomy self [] None
     = Some ([] ++ (full_row (fun _ : nat => "rank") (fun tid : string => tid) taxonomy
                      <$> m_preorder self))%list.
Proof.
  cbv zeta. split; [reflexivity|].
  apply to_items_rows. reflexivity.
Defined.

(** X21 on a tree of two samples with the entry 1, for the indexes 1
    and -2. *)
Lemma to_items_selected_counts_witness :
  let taxonomy := {| tx_children := {[ "1" := ["X"; "Y"] ]};
                 get_rank := fun _ : string => 1%nat |} in
  let self : MultiTree :=
    MNode (Rank := nat) ["s1"; "s2"] 0%nat [0; 0] [0; 0] [1%Q; 1%Q]
      [("1", MNode ["s1"; "s2"] 1%nat [5; 2] [7; 2] [1%Q; 1%Q] [])] in
  ([1; -2] ≠ []
   /\ (forall p n, mnode_at self p n -> p ≠ [] ->
         Forall (index_in_range (length (m_counts n))) [1; -2]))
  /\ to_items (fun _ : nat => "rank") (fun tid : string => tid) taxonomy self []
       (Some [1; -2])
     = Some ([] ++ (counts_row [1; -2] <$> m_preorder self))%list.
Proof.
  cbv zeta.
  assert (Hrange : forall p n,
            mnode_at
              (MNode (Rank := nat) ["s1"; "s2"] 0%nat [0; 0] [0; 0] [1%Q; 1%Q]
                 [("1", MNode ["s1"; "s2"] 1%nat [5; 2] [7; 2] [1%Q; 1%Q] [])]) p n ->
            p ≠ [] -> Forall (index_in_range (length (m_counts n))) [1; -2]).
  { intros p n Hn Hp. destruct p as [|k p]; [contradiction|].
    apply mnode_at_cons_inv in Hn as (c1 & Hin & Hn). cbn in Hin.
    apply list_elem_of_singleton in Hin. inversion Hin; subst k c1.
    destruct p as [|k p].
    - inversion Hn; subst. cbn. unfold index_in_range.
      repeat (apply Forall_cons; split; [cbn; lia|]). apply Forall_nil_2.
    - apply mnode_at_cons_inv in Hn as (c2 & Hin2 & _). cbn in Hin2. inversion Hin2. }
  split; [split; [discriminate|exact Hrange]|].
  apply to_items_selected_counts; [discriminate|exact Hrange].
Defined.

(** X22 on a tree of two samples with the entry 1, for the index 2. *)
Lemma to_items_index_error_witness :
  let taxonomy := {| tx_children := {[ "1" := ["X"; "Y"] ]};
                 get_rank := fun _ : string => 1%nat |} in
  let child : MultiTree := MNode (Rank := nat) ["s1"; "s2"] 1%nat [5; 2] [7; 2] [1%Q; 1%Q] [] in
  let self : MultiTree := MNode ["s1"; "s2"] 0%nat [0; 0] [0; 0] [1%Q; 1%Q] [("1", child)] in
  (mnode_at self [] self /\ ("1", child) ∈ m_children self
   /\ 2 ∈ [0; 2] /\ ~ index_in_range (length (m_counts child)) 2)
  /\ to_items (fun _ : nat => "rank") (fun tid : string => tid) taxonomy self []
       (Some [0; 2]) = None.
Proof.
  intros taxonomy child self.
  assert (Hout : ~ index_in_range (length (m_counts child)) 2)
    by (unfold index_in_range; cbn; lia).
  split.
  - split; [constructor|]. split; [left|]. split; [right; left|exact Hout].
  - apply (to_items_index_error _ _ _ self _ _ [] self "1" child 2);
      [constructor|left|right; left|exact Hout].
Defined.

(** X23 on a tree of two samples whose entry 1 has a single count. *)
Lemma to_items_short_entry_witness :
  let taxonomy := {| tx_children := {[ "1" := ["X"; "Y"] ]};
                 get_rank := fun _ : string => 1%nat |} in
  let child : MultiTree := MNode (Rank := nat) ["s1"] 1%nat [5] [7] [1%Q] [] in
  let self : MultiTree := MNode ["s1"; "s2"] 0%nat [0; 0] [0; 0] [1%Q; 1%Q] [("1", child)] in
  (mnode_at self [] self /\ ("1", child) ∈ m_children self
   /\ (length (m_counts child) < length (m_samples self))%nat)
  /\ to_items (fun _ : nat => "rank") (fun tid : string => tid) taxonomy self [] None
     = None.
Proof.
  intros taxonomy child self.
  split.
  - split; [constructor|]. split; [left|cbn; lia].
  - apply (to_items_short_entry _ _ _ self _ [] self "1" child);
      [constructor|left|cbn; lia].
Defined.

(** X24 on two samples over the taxonomy 1→X, 1→Y. *)
Lemma to_items_of_grown_witness :
  let taxonomy := {| tx_children := {[ "1" := ["X"; "Y"] ]};
                 get_rank := fun _ : string => 1%nat |} in
  let samples := ["s1"; "s2"] in
  let ab : gmap string (gmap string Z) := {[ "s1" := {[ "X" := 5 ]}; "s2" := {[ "Y" := 2 ]} ]} in
  let ac : gmap string (gmap string Z) := {[ "s1" := {[ "1" := 5; "X" := 5 ]}; "s2" := {[ "1" := 2; "Y" := 2 ]} ]} in
  let sc : gmap string (gmap string Q) := {[ "s1" := ∅; "s2" := ∅ ]} in
  let rank_label := fun _ : nat => "rank" in
  let get_name := fun tid : string => tid in
  ((forall s, s ∈ samples ->
      is_Some (ab !! s) /\ is_Some (ac !! s) /\ is_Some (sc !! s))
   /\ (size (tx_children taxonomy) < 2)%nat)
  /\ exists t rows,
       MultiTree_grow "1" 2 taxonomy (Some ab) (Some ac) (Some sc) "1" []
         (empty_MultiTree samples) = Return t
       /\ to_items rank_label get_name taxonomy t [] None = Some rows
       /\ (forall tid row, (tid, row) ∈ rows ->
             row = table_row rank_label get_name taxonomy samples ab ac sc tid)
       /\ (forall tid, tid ∈ rows.*1 <->
             exists q, tax_chain taxonomy "1" q /\ NoDup ("1" :: q)
                       /\ Forall (occupied samples ac) ("1" :: q)
                       /\ List.last q "1" = tid).
Proof.
  cbv zeta.
  assert (Hkeys : forall s, s ∈ ["s1"; "s2"] ->
            is_Some (({[ "s1" := {[ "X" := 5 ]}; "s2" := {[ "Y" := 2 ]} ]} : gmap string (gmap string Z)) !! s)
            /\ is_Some (({[ "s1" := {[ "1" := 5; "X" := 5 ]}; "s2" := {[ "1" := 2; "Y" := 2 ]} ]} : gmap string (gmap string Z)) !! s)
            /\ is_Some (({[ "s1" := ∅; "s2" := ∅ ]} : gmap string (gmap string Q)) !! s)).
  { intros s Hs. apply elem_of_cons in Hs as [->|Hs];
      [|apply list_elem_of_singleton in Hs; subst s];
      (split; [|split]); vm_compute; eauto. }
  assert (Hsize : (size (tx_children {| tx_children := {[ "1" := ["X"; "Y"] ]};
                 get_rank := fun _ : string => 1%nat |}) < 2)%nat) by (vm_compute; lia).
  split; [split; [exact Hkeys|exact Hsize]|].
  apply (to_items_of_grown "1"); [exact Hkeys|exact Hsize].
Defined.

(** * rextract on concrete files *)

(** A record is the pair of its id and of its taxid; the taxonomy is
    1→X, 1→Y. *)

(** X25 with Y excluded. *)
Lemma selected_taxids_exclude_witness :
  let ncbi := {| tx_children := {[ "1" := ["X"; "Y"] ]};
            get_rank := fun _ : string => 1%nat |} in
  (size (tx_children ncbi) < 2)%nat
  /\ exists taxids,
       selected_taxids (Score := Q) "1" 2 ncbi ∅ {[ "Y" ]} = Return taxids
       /\ forall tid, tid ∈ taxids <->
            (exists q, reached_by "1" ncbi q tid) /\ (tid ∉ ({[ "Y" ]} : gset string)).
Proof.
  cbv zeta.
  assert (Hsize : (size (tx_children {| tx_children := {[ "1" := ["X"; "Y"] ]};
            get_rank := fun _ : string => 1%nat |}) < 2)%nat) by (vm_compute; lia).
  split; [exact Hsize|].
  apply (selected_taxids_exclude "1"). exact Hsize.
Defined.

(** X26 with X included. *)
Lemma selected_taxids_include_witness :
  let ncbi := {| tx_children := {[ "1" := ["X"; "Y"] ]};
            get_rank := fun _ : string => 1%nat |} in
  (({[ "X" ]} : gset string) ≠ ∅ /\ (size (tx_children ncbi) < 2)%nat)
  /\ exists taxids,
       selected_taxids (Score := Q) "1" 2 ncbi {[ "X" ]} ∅ = Return taxids
       /\ forall tid, tid ∈ taxids <->
            exists q, reached_by "1" ncbi q tid
                      /\ under_include {[ "X" ]} ∅ ("1" :: q) = true.
Proof.
  cbv zeta.
  assert (Hsize : (size (tx_children {| tx_children := {[ "1" := ["X"; "Y"] ]};
            get_rank := fun _ : string => 1%nat |}) < 2)%nat) by (vm_compute; lia).
  split; [split; [apply non_empty_singleton_L|exact Hsize]|].
  apply (selected_taxids_include "1"); [apply non_empty_singleton_L|exact Hsize].
Defined.

(** X27 on an output file with a single record. *)
Lemma main_zero_division_witness :
  let ncbi := {| tx_children := {[ "1" := ["X"; "Y"] ]};
            get_rank := fun _ : string => 1%nat |} in
  let output := [("r1", "X")] in
  (size (tx_children ncbi) < 2)%nat
  /\ (main (Score := Q) "1" fst snd 2 ncbi ∅ ∅ output [("r1", "")] None
      = Raise ZeroDivisionError
      <-> (length output <= 1)%nat).
Proof.
  cbv zeta.
  assert (Hsize : (size (tx_children {| tx_children := {[ "1" := ["X"; "Y"] ]};
            get_rank := fun _ : string => 1%nat |}) < 2)%nat) by (vm_compute; lia).
  split; [exact Hsize|].
  apply (main_zero_division "1"). exact Hsize.
Defined.

(** X28 on an output file with three records, that of Y excluded. *)
Lemma main_single_end_witness :
  let ncbi := {| tx_children := {[ "1" := ["X"; "Y"] ]};
            get_rank := fun _ : string => 1%nat |} in
  let output := [("r1", "X"); ("r2", "Y"); ("r3", "X")] in
  let fastq := [("r0", ""); ("r1", ""); ("r2", ""); ("r3", ""); ("r3", "")] in
  ((size (tx_children ncbi) < 2)%nat /\ (2 <= length output)%nat)
  /\ exists taxids seqs1,
       selected_taxids (Score := Q) "1" 2 ncbi ∅ {[ "Y" ]} = Return taxids
       /\ main (Score := Q) "1" fst snd 2 ncbi ∅ {[ "Y" ]} output fastq None
          = Return (seqs1, [])
       /\ sublist seqs1 fastq
       /\ forall x, count_id fst x seqs1
                    = Nat.min (count_id fst x fastq)
                              (count_id fst x (classified_in snd taxids output)).
Proof.
  cbv zeta.
  assert (Hsize : (size (tx_children {| tx_children := {[ "1" := ["X"; "Y"] ]};
            get_rank := fun _ : string => 1%nat |}) < 2)%nat) by (vm_compute; lia).
  split; [split; [exact Hsize|cbn; lia]|].
  apply (main_single_end "1"); [exact Hsize|cbn; lia].
Defined.

(** X29 on an output file with three records, that of Y excluded, and
    two files of mates, the second shorter. *)
Lemma main_paired_end_witness :
  let ncbi := {| tx_children := {[ "1" := ["X"; "Y"] ]};
            get_rank := fun _ : string => 1%nat |} in
  let output := [("r1", "X"); ("r2", "Y"); ("r3", "X")] in
  let mate1 := [("r0", ""); ("r1", ""); ("r2", ""); ("r3", "")] in
  let mate2 := [("m0", ""); ("m1", ""); ("m2", "")] in
  ((size (tx_children ncbi) < 2)%nat /\ (2 <= length output)%nat)
  /\ exists taxids pairs,
       selected_taxids (Score := Q) "1" 2 ncbi ∅ {[ "Y" ]} = Return taxids
       /\ main (Score := Q) "1" fst snd 2 ncbi ∅ {[ "Y" ]} output mate1 (Some mate2)
          = Return (pairs.*1, pairs.*2)
       /\ sublist pairs (zip mate1 mate2)
       /\ forall x, count_id fst x pairs.*1
                    = Nat.min (count_id fst x (take (length mate2) mate1))
                              (count_id fst x (classified_in snd taxids output)).
Proof.
  cbv zeta.
  assert (Hsize : (size (tx_children {| tx_children := {[ "1" := ["X"; "Y"] ]};
            get_rank := fun _ : string => 1%nat |}) < 2)%nat) by (vm_compute; lia).
  split; [split; [exact Hsize|cbn; lia]|].
  apply (main_paired_end "1"); [exact Hsize|cbn; lia].
Defined.
